(** * Batch geocoding engine of app.py: cache, retry controller, postal-code
      fallback and the controllable batch loop

    The development embeds the geocoding core of [app.py] (the functions
    [get_cache_key], [load_cache], [save_cache], [custom_geocode],
    [geocode_with_retry], [geocode_address_robust], [geocode_cep_robust],
    [save_partial_progress] and [geocode_batch_with_control]) as executable
    functions over an explicit program state, and proves properties of them.

    Conventions of the embedding.
    - Python exceptions are outcomes of a state-and-exception monad: a raised
      exception keeps every mutation made before it.
    - Coordinates are IEEE doubles ([PrimFloat.float]) compared with
      [PrimFloat.leb], as Python compares them.
    - A [string] holds one [ascii] per character.  The text constants of the
      source are kept as they are written there.  [strip], [lower], [upper],
      the length and the slices are those of Python on ASCII text
      ([ascii_only], [exact_cell]); outside ASCII they are not (Python
      strips U+00A0 and lowercases accented letters, these functions leave
      them alone).
    - [hashlib.md5(...).hexdigest()] is a parameter of the development.
    - Streamlit widgets, progress bars and log lines are presentation and are
      left out; what the engine does to the outside (provider calls, sleeps,
      cache file writes, checkpoints) is recorded in a trace. *)

From Stdlib Require Import ZArith QArith String Ascii List Floats Lia.
From stdpp Require Import base gmap strings list pretty.

Local Open Scope string_scope.
Local Open Scope list_scope.

(** ** The fragment of Python the engine relies on *)

Module Py.

(** Exception classes that occur.  All of them derive from [Exception]. *)
Inductive exn : Type :=
  | TypeError
  | AttributeError
  | KeyError
  | IndexError
  | UnboundLocalError
  | RuntimeError
  | GeocoderTimedOut
  | GeocoderServiceError
  | GeocoderUnavailable.

(** The outcome of running a piece of code: a value, a raised exception, or
    no outcome at all (a polling loop that never sees its exit condition). *)
Inductive outcome (A : Type) : Type :=
  | Ok (a : A)
  | Raise (e : exn)
  | Diverge.
Arguments Ok {A} a.
Arguments Raise {A} e.
Arguments Diverge {A}.

(** A cell of the input table, or an argument received from one.
    [CNull] stands for [None] and [NaN] (what [pd.isna] accepts). *)
Inductive cell : Type :=
  | CNull
  | CStr (s : string)
  | CInt (z : Z)
  | CBytes (b : string).

(** [pd.isna(x)] / [pd.notna(x)] on a scalar. *)
Definition pd_isna (x : cell) : bool :=
  match x with CNull => true | _ => false end.

Definition pd_notna (x : cell) : bool := negb (pd_isna x).

(** [not x or pd.isna(x)]: [None], [NaN], the empty string, the empty bytes
    object and the integer zero. *)
Definition falsy_or_na (x : cell) : bool :=
  match x with
  | CNull => true
  | CStr s => if decide (s = "") then true else false
  | CInt z => (z =? 0)%Z
  | CBytes b => if decide (b = "") then true else false
  end.

(** [x[:50]] succeeds on sequences and raises [TypeError] on [None], [NaN]
    and numbers. *)
Definition subscriptable (x : cell) : bool :=
  match x with
  | CStr _ | CBytes _ => true
  | CNull | CInt _ => false
  end.

(** [str(x)].  The repr of a bytes object is exact for printable bytes other
    than the quote and the backslash; [str(None)] is taken for [CNull]. *)
Definition py_str (x : cell) : string :=
  match x with
  | CNull => "None"
  | CStr s => s
  | CInt z => pretty z
  | CBytes b => "b'" +:+ b +:+ "'"
  end.

(** [s.lower()] on ASCII letters. *)
Definition lower_ascii (c : ascii) : ascii :=
  let n := nat_of_ascii c in
  if (65 <=? n)%nat && (n <=? 90)%nat then ascii_of_nat (n + 32) else c.

Fixpoint lower (s : string) : string :=
  match s with
  | EmptyString => EmptyString
  | String c r => String (lower_ascii c) (lower r)
  end.

(** White space for [str.strip()]: the ASCII characters for which
    [str.isspace] holds. *)
Definition isspace (c : ascii) : bool :=
  let n := nat_of_ascii c in
  ((9 <=? n)%nat && (n <=? 13)%nat) || ((28 <=? n)%nat && (n <=? 32)%nat).

Fixpoint lstrip (s : string) : string :=
  match s with
  | EmptyString => EmptyString
  | String c r => if isspace c then lstrip r else s
  end.

Definition strip (s : string) : string :=
  String.rev (lstrip (String.rev (lstrip s))).

(** [s.replace(c, '')] for a one-character [c]. *)
Fixpoint remove_char (c : ascii) (s : string) : string :=
  match s with
  | EmptyString => EmptyString
  | String d r => if decide (c = d) then remove_char c r else String d (remove_char c r)
  end.

(** [sub in s]. *)
Fixpoint contains (sub s : string) : bool :=
  String.prefix sub s ||
  match s with
  | EmptyString => false
  | String _ r => contains sub r
  end.

(** [s[:n]] and [s[n:]]. *)
Fixpoint slice_to (n : nat) (s : string) : string :=
  match n, s with
  | S k, String c r => String c (slice_to k r)
  | _, _ => EmptyString
  end.

Fixpoint slice_from (n : nat) (s : string) : string :=
  match n, s with
  | S k, String _ r => slice_from k r
  | _, _ => s
  end.

End Py.
Import Py.

(** ** Program state *)

(** [PROCESSING_STATES]. *)
Inductive pstate : Type := IDLE | RUNNING | PAUSED | STOPPED | COMPLETED.

#[global] Instance pstate_eq_dec : EqDecision pstate.
Proof. solve_decision. Defined.

(** A value of [GEOCODING_CACHE]: [(lat, lon, geocoder_name, "Sucesso")]. *)
Abbreviation cache_entry := (float * float * string * string)%type.

(** What the resolution functions return: [(lat, lon, method, status)]. *)
Abbreviation geo_result := (option float * option float * string * string)%type.

(** One answer of a geocoding backend to [geocoder.geocode(...)]: a location,
    [None], or an exception. *)
Inductive response : Type :=
  | Located (lat lon : float)
  | NoMatch
  | Fails (e : exn).

(** A backend is any function of the number of provider calls made before
    this one, the query and the timeout argument (absent in the second call
    of [custom_geocode]).  The engine is sequential, so this covers every
    behaviour a backend can show during a run. *)
Definition provider : Type := nat -> string -> option Z -> response.

(** An element of the [geocoders] list: [(geocoder_name, geocoder)]. *)
Abbreviation geocoder := (string * provider)%type.

(** Effects on the outside, in the order they happen.  [EvAttempt] is the
    log line "Tentativa k/n com <name>" that opens an attempt. *)
Inductive event : Type :=
  | EvAttempt (geocoder_name : string) (attempt : nat)
  | EvGeocode (query : string) (timeout : option Z)
  | EvSleep (seconds : Q)
  | EvSaveCache
  | EvCheckpoint (processed_count total_count : nat).

(** A record of the table with the four result columns the engine adds. *)
Record row : Type := {
  cells : list cell;
  latitude : option float;
  longitude : option float;
  geocoding_method : option string;
  geocoding_status : option string
}.

(** The [DataFrame]: the labels of the input columns, whether the result
    columns exist yet, and the records.  Input columns are assumed to be
    named differently from the four result columns. *)
Record dataframe : Type := {
  columns : list string;
  has_result_columns : bool;
  rows : list row
}.

(** [st.session_state['partial_results']] (the time stamp is left out). *)
Record checkpoint : Type := {
  cp_df : dataframe;
  cp_processed_count : nat;
  cp_total_count : nat
}.

(** [st.session_state['current_stats']]. *)
Record stats : Type := {
  st_success_count : Z;
  st_cep_count : Z;
  st_cache_count : Z;
  st_error_count : Z;
  st_total_processed : nat;
  st_total_records : nat
}.

(** The keys of [st.session_state] the engine uses; [None] is a missing key. *)
Record session : Type := {
  processing_state : option pstate;
  processed_index : option nat;
  partial_results : option checkpoint;
  current_stats : option stats
}.

(** [CACHE_FILE] on disk. *)
Inductive cache_file : Type :=
  | NoFile
  | Unreadable
  | Pickled (m : gmap string cache_entry).

(** The local variables of [geocode_batch_with_control] that live across
    iterations.  [status = None] is the unbound variable. *)
Record locals : Type := {
  success_count : Z;
  cep_count : Z;
  error_count : Z;
  cache_count : Z;
  status : option string
}.

(** The whole state.  [controller] is what the user interface will still
    write to [processing_state]: one slot per read the loop makes, [None]
    when nothing was clicked since the previous read.  [calls] counts the
    provider calls made so far. *)
Record world : Type := {
  GEOCODING_CACHE : gmap string cache_entry;
  CACHE_FILE : cache_file;
  session_state : session;
  controller : list (option pstate);
  frame : dataframe;
  batch_locals : locals;
  calls : nat;
  trace : list event
}.

Definition with_cache (c : gmap string cache_entry) (w : world) : world :=
  {| GEOCODING_CACHE := c; CACHE_FILE := CACHE_FILE w; session_state := session_state w;
     controller := controller w; frame := frame w; batch_locals := batch_locals w;
     calls := calls w; trace := trace w |}.

Definition with_file (f : cache_file) (w : world) : world :=
  {| GEOCODING_CACHE := GEOCODING_CACHE w; CACHE_FILE := f; session_state := session_state w;
     controller := controller w; frame := frame w; batch_locals := batch_locals w;
     calls := calls w; trace := trace w |}.

Definition with_session (s : session) (w : world) : world :=
  {| GEOCODING_CACHE := GEOCODING_CACHE w; CACHE_FILE := CACHE_FILE w; session_state := s;
     controller := controller w; frame := frame w; batch_locals := batch_locals w;
     calls := calls w; trace := trace w |}.

Definition with_controller (c : list (option pstate)) (w : world) : world :=
  {| GEOCODING_CACHE := GEOCODING_CACHE w; CACHE_FILE := CACHE_FILE w; session_state := session_state w;
     controller := c; frame := frame w; batch_locals := batch_locals w;
     calls := calls w; trace := trace w |}.

Definition with_frame (d : dataframe) (w : world) : world :=
  {| GEOCODING_CACHE := GEOCODING_CACHE w; CACHE_FILE := CACHE_FILE w; session_state := session_state w;
     controller := controller w; frame := d; batch_locals := batch_locals w;
     calls := calls w; trace := trace w |}.

Definition with_locals (l : locals) (w : world) : world :=
  {| GEOCODING_CACHE := GEOCODING_CACHE w; CACHE_FILE := CACHE_FILE w; session_state := session_state w;
     controller := controller w; frame := frame w; batch_locals := l;
     calls := calls w; trace := trace w |}.

(** One more provider call, recorded in the trace. *)
Definition with_call (ev : event) (w : world) : world :=
  {| GEOCODING_CACHE := GEOCODING_CACHE w; CACHE_FILE := CACHE_FILE w; session_state := session_state w;
     controller := controller w; frame := frame w; batch_locals := batch_locals w;
     calls := S (calls w); trace := trace w ++ [ev] |}.

Definition with_event (ev : event) (w : world) : world :=
  {| GEOCODING_CACHE := GEOCODING_CACHE w; CACHE_FILE := CACHE_FILE w; session_state := session_state w;
     controller := controller w; frame := frame w; batch_locals := batch_locals w;
     calls := calls w; trace := trace w ++ [ev] |}.

(** ** The state-and-exception monad *)

Definition M (A : Type) : Type := world -> outcome A * world.

#[global] Instance M_ret : MRet M := fun A a w => (Ok a, w).

#[global] Instance M_bind : MBind M := fun A B f m w =>
  match m w with
  | (Ok a, w') => f a w'
  | (Raise e, w') => (Raise e, w')
  | (Diverge, w') => (Diverge, w')
  end.

Definition raise {A : Type} (e : exn) : M A := fun w => (Raise e, w).

(** [try: body  except Exception as e: handler]. *)
Definition try_except {A : Type} (body : M A) (handler : exn -> M A) : M A :=
  fun w =>
    match body w with
    | (Raise e, w') => handler e w'
    | r => r
    end.

Definition read {A : Type} (f : world -> A) : M A := fun w => (Ok (f w), w).

Definition modify (f : world -> world) : M unit := fun w => (Ok tt, f w).

Definition emit (ev : event) : M unit := modify (with_event ev).

(** [time.sleep(seconds)]. *)
Definition sleep (seconds : Q) : M unit := emit (EvSleep seconds).

(** ** Cache store *)

(** [load_cache]: a missing file leaves the global as it is, an unreadable
    one empties it. *)
Definition load_cache : M unit :=
  modify (fun w =>
    match CACHE_FILE w with
    | NoFile => w
    | Unreadable => with_cache ∅ w
    | Pickled m => with_cache m w
    end).

(** [save_cache]: the whole cache is written over the file.  The function
    swallows every exception, so it always returns. *)
Definition save_cache : M unit :=
  modify (fun w => with_file (Pickled (GEOCODING_CACHE w)) w);;
  emit EvSaveCache.

(** How one pass through a loop body ends. *)
Inductive flow (R : Type) : Type :=
  | Continue
  | Break
  | Return (r : R).
Arguments Continue {R}.
Arguments Break {R}.
Arguments Return {R} r.

Section Engine.

(** [hashlib.md5(data).hexdigest()]. *)
Variable md5_hexdigest : string -> string.

(** [get_cache_key]. *)
Definition get_cache_key (address : string) : string :=
  md5_hexdigest (lower address).

(** ** Provider adapter *)

(** One call [geocoder.geocode(query[, timeout])]. *)
Definition geocode (g : provider) (query : string) (timeout : option Z)
  : M (option (float * float)) :=
  fun w =>
    let w' := with_call (EvGeocode query timeout) w in
    match g (calls w) query timeout with
    | Located lat lon => (Ok (Some (lat, lon)), w')
    | NoMatch => (Ok None, w')
    | Fails e => (Raise e, w')
    end.

(** [custom_geocode]: any exception of the call with a timeout leads to a
    second call without one, whose outcome is the function's. *)
Definition custom_geocode (g : provider) (address : string) (timeout : Z)
  : M (option (float * float)) :=
  try_except (geocode g address (Some timeout))
             (fun _ => geocode g address None).

(** ** Retry and backoff controller *)

(** [-22.0 <= lat <= -17.0 and -42.0 <= lon <= -38.0]. *)
Definition in_bounds (lat lon : float) : bool :=
  (PrimFloat.leb (-22)%float lat && PrimFloat.leb lat (-17)%float)
  && (PrimFloat.leb (-42)%float lon && PrimFloat.leb lon (-38)%float).

(** [if attempt < max_retries - 1: time.sleep(2 ** attempt)]. *)
Definition backoff (attempt max_retries : nat) : M unit :=
  if (attempt <? max_retries - 1)%nat
  then sleep (inject_Z (2 ^ Z.of_nat attempt))
  else mret tt.

Definition retryable (e : exn) : bool :=
  match e with
  | GeocoderTimedOut | GeocoderServiceError | GeocoderUnavailable => true
  | _ => false
  end.

(** The body of [for attempt in range(max_retries)]. *)
Definition attempt_once (geocoder_name : string) (g : provider)
    (address cache_key : string) (max_retries attempt : nat)
  : M (flow geo_result) :=
  try_except
    (emit (EvAttempt geocoder_name attempt);;
     location ← custom_geocode g address 30;
     match location with
     | Some (lat, lon) =>
         if in_bounds lat lon then
           modify (fun w =>
             with_cache (<[cache_key := (lat, lon, geocoder_name, "Sucesso")]>
                           (GEOCODING_CACHE w)) w);;
           save_cache;;
           mret (Return (Some lat, Some lon, geocoder_name, "Sucesso"))
         else mret Continue
     | None => backoff attempt max_retries;; mret Continue
     end)
    (fun e =>
       if retryable e
       then backoff attempt max_retries;; mret Continue
       else mret Break).

(** The attempts on one geocoder: [Some r] when the function returns [r]
    from inside the loop, [None] when the loop is left (by exhaustion or
    [break]) for the next geocoder. *)
Fixpoint attempts_loop (geocoder_name : string) (g : provider)
    (address cache_key : string) (max_retries : nat) (attempts : list nat)
  : M (option geo_result) :=
  match attempts with
  | [] => mret None
  | attempt :: rest =>
      f ← attempt_once geocoder_name g address cache_key max_retries attempt;
      match f with
      | Continue => attempts_loop geocoder_name g address cache_key max_retries rest
      | Break => mret None
      | Return r => mret (Some r)
      end
  end.

(** [for geocoder_name, geocoder in geocoders], and the final return. *)
Fixpoint geocoders_loop (address cache_key : string) (max_retries : nat)
    (geocoders : list geocoder) : M geo_result :=
  match geocoders with
  | [] => mret (None, None, "Múltiplos provedores", "Falhou")
  | (geocoder_name, g) :: rest =>
      r ← attempts_loop geocoder_name g address cache_key max_retries
            (seq 0 max_retries);
      match r with
      | Some x => mret x
      | None => geocoders_loop address cache_key max_retries rest
      end
  end.

(** [geocode_with_retry].  An argument that is not a [str] fails in
    [get_cache_key] ([.lower()] or [.encode()] is missing). *)
Definition geocode_with_retry (address : cell) (geocoders : list geocoder)
    (max_retries : nat) : M geo_result :=
  if falsy_or_na address then mret (None, None, "Endereço vazio", "Falhou")
  else
    match address with
    | CStr a =>
        let cache_key := get_cache_key a in
        cache ← read GEOCODING_CACHE;
        match cache !! cache_key with
        | Some cached_result =>
            mret (Some cached_result.1.1.1, Some cached_result.1.1.2,
                  cached_result.1.2, "Cache")
        | None => geocoders_loop a cache_key max_retries geocoders
        end
    | _ => raise AttributeError
    end.

(** ** Resolution strategy *)

(** [geocode_address_robust]. *)
Definition geocode_address_robust (address : cell) (geocoders : list geocoder)
  : M geo_result :=
  geocode_with_retry address geocoders 3.

(** [str(cep).replace('-', '').replace('.', '').strip()]. *)
Definition cep_clean (cep : cell) : string :=
  strip (remove_char "." (remove_char "-" (py_str cep))).

(** [pd.isna(cep) or str(cep).strip() == '']. *)
Definition cep_missing (cep : cell) : bool :=
  pd_isna cep || (if decide (strip (py_str cep) = "") then true else false).

(** [geocode_cep_robust]. *)
Definition geocode_cep_robust (cep : cell) (geocoders : list geocoder)
  : M geo_result :=
  try_except
    (if cep_missing cep then mret (None, None, "CEP", "Sem CEP")
     else
       let cep_clean := cep_clean cep in
       if negb (String.length cep_clean =? 8)%nat
       then mret (None, None, "CEP", "CEP inválido")
       else
         let cep_formatted := slice_to 5 cep_clean +:+ "-" +:+ slice_from 5 cep_clean in
         let cep_address := cep_formatted +:+ ", Espírito Santo, Brasil" in
         r ← geocode_with_retry (CStr cep_address) geocoders 3;
         match r with
         | (Some lat, lon, method, st) => mret (Some lat, lon, "CEP-" +:+ method, st)
         | (None, _, _, _) => mret (None, None, "CEP", "Falhou")
         end)
    (fun _ => mret (None, None, "CEP", "Erro")).

End Engine.

(** ** Session state, table and local-variable updates *)

Definition set_processing_state (v : option pstate) (s : session) : session :=
  {| processing_state := v; processed_index := processed_index s;
     partial_results := partial_results s; current_stats := current_stats s |}.

Definition set_processed_index (v : option nat) (s : session) : session :=
  {| processing_state := processing_state s; processed_index := v;
     partial_results := partial_results s; current_stats := current_stats s |}.

Definition set_partial_results (v : option checkpoint) (s : session) : session :=
  {| processing_state := processing_state s; processed_index := processed_index s;
     partial_results := v; current_stats := current_stats s |}.

Definition set_current_stats (v : option stats) (s : session) : session :=
  {| processing_state := processing_state s; processed_index := processed_index s;
     partial_results := partial_results s; current_stats := v |}.

Definition update_session (f : session -> session) : M unit :=
  modify (fun w => with_session (f (session_state w)) w).

(** [row[label]]: the cell under the first column that carries the label;
    [None] when no column does. *)
Fixpoint lookup_column (label : string) (columns : list string) (cells : list cell)
  : option cell :=
  match columns with
  | [] => None
  | c :: cs =>
      if decide (c = label) then Some (hd CNull cells)
      else lookup_column label cs (tl cells)
  end.

(** [df['latitude'] = None] and the like for the four result columns. *)
Definition clear_results (r : row) : row :=
  {| cells := cells r; latitude := None; longitude := None;
     geocoding_method := None; geocoding_status := None |}.

Definition add_result_columns (df : dataframe) : dataframe :=
  {| columns := columns df; has_result_columns := true;
     rows := map clear_results (rows df) |}.

(** The four writes [df.iloc[i, ...] = lat / lon / method / status]. *)
Definition put_result (lat lon : option float) (method st : string) (r : row) : row :=
  {| cells := cells r; latitude := lat; longitude := lon;
     geocoding_method := Some method; geocoding_status := Some st |}.

(** The two writes [df.iloc[i, ...] = method / status]. *)
Definition put_failure (method st : string) (r : row) : row :=
  {| cells := cells r; latitude := latitude r; longitude := longitude r;
     geocoding_method := Some method; geocoding_status := Some st |}.

Definition update_row (i : nat) (f : row -> row) : M unit :=
  modify (fun w =>
    with_frame {| columns := columns (frame w);
                  has_result_columns := has_result_columns (frame w);
                  rows := alter f i (rows (frame w)) |} w).

Definition bind_status (s : string) (l : locals) : locals :=
  {| success_count := success_count l; cep_count := cep_count l;
     error_count := error_count l; cache_count := cache_count l; status := Some s |}.

Definition incr_success (l : locals) : locals :=
  {| success_count := success_count l + 1; cep_count := cep_count l;
     error_count := error_count l; cache_count := cache_count l; status := status l |}.

Definition incr_cep (l : locals) : locals :=
  {| success_count := success_count l; cep_count := cep_count l + 1;
     error_count := error_count l; cache_count := cache_count l; status := status l |}.

Definition incr_error (l : locals) : locals :=
  {| success_count := success_count l; cep_count := cep_count l;
     error_count := error_count l + 1; cache_count := cache_count l; status := status l |}.

Definition incr_cache (l : locals) : locals :=
  {| success_count := success_count l; cep_count := cep_count l;
     error_count := error_count l; cache_count := cache_count l + 1; status := status l |}.

Definition update_locals (f : locals -> locals) : M unit :=
  modify (fun w => with_locals (f (batch_locals w)) w).

(** ** Progress checkpoint *)

(** [save_partial_progress(df, processed_count, total_count)]: the previous
    snapshot is overwritten. *)
Definition save_partial_progress (processed_count total_count : nat) : M unit :=
  modify (fun w =>
    with_session
      (set_partial_results
         (Some {| cp_df := frame w; cp_processed_count := processed_count;
                  cp_total_count := total_count |})
         (session_state w)) w);;
  emit (EvCheckpoint processed_count total_count).

(** ** Control commands *)

(** What the user interface wrote since the last read reaches the cell. *)
Definition deliver (w : world) : world :=
  match controller w with
  | [] => w
  | None :: rest => with_controller rest w
  | Some s :: rest =>
      with_session (set_processing_state (Some s) (session_state w))
                   (with_controller rest w)
  end.

(** [st.session_state.get('processing_state')]. *)
Definition observe_state : M (option pstate) :=
  fun w => let w' := deliver w in (Ok (processing_state (session_state w')), w').

(** [while st.session_state.get('processing_state') == PAUSED: time.sleep(0.1)].
    [pending] is the controller's remaining schedule; once it is used up
    nothing changes the cell any more, and a paused loop polls for ever. *)
Fixpoint poll_while_paused (pending : list (option pstate)) (w : world)
  : outcome unit * world :=
  match pending with
  | [] =>
      match processing_state (session_state w) with
      | Some PAUSED => (Diverge, w)
      | _ => (Ok tt, w)
      end
  | _ :: rest =>
      let w1 := deliver w in
      match processing_state (session_state w1) with
      | Some PAUSED => poll_while_paused rest (with_event (EvSleep 0.1) w1)
      | _ => (Ok tt, w1)
      end
  end.

Definition while_paused : M unit := fun w => poll_while_paused (controller w) w.

(** The control check at the top of an iteration: [Break] leaves the loop. *)
Definition control_check : M (flow unit) :=
  current_state ← observe_state;
  match default RUNNING current_state with
  | STOPPED => mret Break
  | PAUSED =>
      while_paused;;
      s ← observe_state;
      if decide (s = Some STOPPED) then mret Break else mret Continue
  | _ => mret Continue
  end.

(** ** Batch controller *)

Section Batch.

Variable md5_hexdigest : string -> string.

(** ['cep' in col.lower() or col == 'V19']. *)
Definition is_cep_column (col : string) : bool :=
  contains "cep" (lower col) || (if decide (col = "V19") then true else false).

(** [cep_columns = [col for col in df.columns if ...]]. *)
Definition cep_columns (df : dataframe) : list string :=
  filter (fun col => is_cep_column col = true) (columns df).

(** [lat, lon, method, status = ...]: of the four targets only [status] is
    read again after the statement that follows the assignment. *)
Definition assign (r : geo_result) : M unit :=
  update_locals (bind_status r.2).

(** The postal-code lookup for record [i] and what is written back; the
    source has this block twice (after a failed address lookup and for a
    record without address). *)
Definition resolve_by_cep (i : nat) (cep_value : cell) (geocoders : list geocoder)
  : M unit :=
  r ← geocode_cep_robust md5_hexdigest cep_value geocoders;
  assign r;;
  match r with
  | (Some lat, lon, method, st) =>
      update_row i (put_result (Some lat) lon method st);;
      if decide (st = "Cache") then update_locals incr_cache
      else update_locals incr_cep
  | (None, _, method, st) =>
      update_row i (put_failure method st);;
      update_locals incr_error
  end.

(** [cep_value = row[cep_columns[0]]] when there is such a column, else the
    "Sem CEP" result. *)
Definition cep_fallback (i : nat) (r : row) (geocoders : list geocoder) : M unit :=
  df ← read frame;
  match cep_columns df with
  | c :: _ =>
      resolve_by_cep i (default CNull (lookup_column c (columns df) (cells r)))
                     geocoders
  | [] =>
      update_row i (put_failure "Sem CEP" "Falhou");;
      update_locals incr_error
  end.

(** From the log line that slices the address to the end of the
    [if pd.notna(...) / else] statement. *)
Definition resolve_record (i : nat) (r : row) (geocoders : list geocoder) : M unit :=
  df ← read frame;
  let endereco := lookup_column "endereco_completo" (columns df) (cells r) in
  (* endereco = row.get('endereco_completo', 'Sem endereço'); endereco[:50] *)
  (match endereco with
   | Some e => if subscriptable e then mret tt else raise TypeError
   | None => mret tt
   end);;
  (* row['endereco_completo'] *)
  address ← (match endereco with
             | Some a => mret a
             | None => raise KeyError
             end);
  if pd_notna address then
    try_except
      (res ← geocode_address_robust md5_hexdigest address geocoders;
       assign res;;
       match res with
       | (Some lat, lon, method, st) =>
           update_row i (put_result (Some lat) lon method st);;
           if decide (st = "Cache") then update_locals incr_cache
           else update_locals incr_success
       | (None, _, _, _) => cep_fallback i r geocoders
       end)
      (fun _ =>
         update_row i (put_failure "Erro" "Erro");;
         update_locals incr_error)
  else cep_fallback i r geocoders.

Definition stats_of (l : locals) (total_processed total_records : nat) : stats :=
  {| st_success_count := success_count l; st_cep_count := cep_count l;
     st_cache_count := cache_count l; st_error_count := error_count l;
     st_total_processed := total_processed; st_total_records := total_records |}.

(** [if (current_idx + 1) % 25 == 0: save_partial_progress(...)] and the
    update of [processed_index] that goes with it. *)
Definition checkpoint_step (total_records i : nat) : M unit :=
  if decide ((i + 1) `mod` 25 = 0)%nat
  then save_partial_progress (i + 1) total_records;;
       update_session (set_processed_index (Some (i + 1)%nat))
  else mret tt.

(** The end of the loop body: the statistics of the session, the short
    pause, and the rate limit that reads [status]. *)
Definition after_record (total_records i : nat) : M (flow unit) :=
  l ← read batch_locals;
  update_session (set_current_stats (Some (stats_of l (i + 1) total_records)));;
  sleep 0.01;;
  (* if status != "Cache": time.sleep(0.3) *)
  match status l with
  | None => raise UnboundLocalError
  | Some s => if decide (s = "Cache") then mret Continue
              else sleep 0.3;; mret Continue
  end.

(** One pass through the body of [for i in range(start_index, len(df))]. *)
Definition iteration (geocoders : list geocoder) (total_records i : nat)
  : M (flow unit) :=
  c ← control_check;
  match c with
  | Break => mret Break
  | _ =>
      df ← read frame;
      r ← (match rows df !! i with
           | Some r => mret r
           | None => raise IndexError
           end);
      checkpoint_step total_records i;;
      resolve_record i r geocoders;;
      after_record total_records i
  end.

(** The loop: [Break] when it was left by [break], [Continue] when the
    range was exhausted. *)
Fixpoint records_loop (geocoders : list geocoder) (total_records : nat)
    (indices : list nat) : M (flow unit) :=
  match indices with
  | [] => mret Continue
  | i :: rest =>
      f ← iteration geocoders total_records i;
      match f with
      | Break => mret Break
      | _ => records_loop geocoders total_records rest
      end
  end.

(** The counters recomputed from the first [start_index] records when a run
    is resumed. *)
Definition count_rows (p : row -> bool) (l : list row) : Z :=
  Z.of_nat (length (filter (fun r => p r = true) l)).

Definition status_is (s : string) (r : row) : bool :=
  if decide (geocoding_status r = Some s) then true else false.

Definition method_contains_cep (r : row) : bool :=
  match geocoding_method r with
  | Some m => contains "CEP" m
  | None => false
  end.

Definition resumed_locals (start_index : nat) (df : dataframe) : locals :=
  let done := take start_index (rows df) in
  let success := count_rows (status_is "Sucesso") done in
  let cep := count_rows method_contains_cep done in
  let cache := count_rows (status_is "Cache") done in
  {| success_count := success; cep_count := cep;
     error_count := Z.of_nat start_index - success - cep - cache;
     cache_count := cache; status := None |}.

Definition fresh_locals : locals :=
  {| success_count := 0; cep_count := 0; error_count := 0; cache_count := 0;
     status := None |}.

(** The part of [geocode_batch_with_control] before the loop: the session
    keys, the cache, the result columns, the counters, and the state
    [RUNNING].  It yields [start_index] and [total_records]. *)
Definition prepare : M (nat * nat) :=
  update_session (fun s =>
    match processing_state s with
    | None => set_processing_state (Some IDLE) s
    | Some _ => s
    end);;
  update_session (fun s =>
    match processed_index s with
    | None => set_processed_index (Some 0%nat) s
    | Some _ => s
    end);;
  load_cache;;
  start_index ← read (fun w => default 0%nat (processed_index (session_state w)));
  (if decide (start_index = 0%nat)
   then modify (fun w => with_frame (add_result_columns (frame w)) w)
   else mret tt);;
  df ← read frame;
  let total_records := length (rows df) in
  modify (with_locals fresh_locals);;
  (if decide (start_index = 0%nat) then mret tt
   else if has_result_columns df
        then modify (with_locals (resumed_locals start_index df))
        else raise KeyError);;
  update_session (set_processing_state (Some RUNNING));;
  mret (start_index, total_records).

(** The part after the loop, whether the loop was left by [break] or not. *)
Definition finish (total_records : nat) : M dataframe :=
  update_session (set_processing_state (Some COMPLETED));;
  update_session (set_processed_index (Some total_records));;
  l ← read batch_locals;
  update_session (set_current_stats (Some (stats_of l total_records total_records)));;
  save_cache;;
  read frame.

(** [geocode_batch_with_control(df, geocoders)]; [df] is the table [frame]
    of the state, which the function mutates and returns. *)
Definition geocode_batch_with_control (geocoders : list geocoder) : M dataframe :=
  p ← prepare;
  records_loop geocoders p.2 (seq p.1 (p.2 - p.1));;
  finish p.2.

End Batch.

(** ** Concrete inputs for the examples *)

(** Any function can stand for the digest; the examples use the identity. *)
Definition plain_digest (s : string) : string := s.

Definition no_session : session :=
  {| processing_state := None; processed_index := None;
     partial_results := None; current_stats := None |}.

(** A state at the start of a run over [df]: nothing in the session, no
    cache file, [cache] in memory, and the clicks [clicks] still to come. *)
Definition start_world (cache : gmap string cache_entry) (df : dataframe)
    (clicks : list (option pstate)) : world :=
  {| GEOCODING_CACHE := cache; CACHE_FILE := NoFile; session_state := no_session;
     controller := clicks; frame := df; batch_locals := fresh_locals;
     calls := 0; trace := [] |}.

(** A backend that gives the same answer to every call. *)
Definition always (r : response) : provider := fun _ _ _ => r.

Definition input_row (cs : list cell) : row :=
  {| cells := cs; latitude := None; longitude := None;
     geocoding_method := None; geocoding_status := None |}.

Definition table (cols : list string) (rs : list (list cell)) : dataframe :=
  {| columns := cols; has_result_columns := false; rows := map input_row rs |}.

(** Vitória, inside the box, and São Paulo, outside it. *)
Definition vitoria : float * float := ((-20.3125)%float, (-40.3125)%float).
Definition sao_paulo : float * float := ((-23.5625)%float, (-46.625)%float).

(** Three geocoder lists: one that always finds Vitória, one whose two
    backends always time out or are unavailable, and one whose first backend
    answers outside the box, whose second finds nothing and whose third
    raises something unexpected. *)
Definition finds_vitoria : list geocoder :=
  [("Nominatim", always (Located vitoria.1 vitoria.2))].

Definition always_failing : list geocoder :=
  [("Nominatim", always (Fails GeocoderTimedOut));
   ("Photon", always (Fails GeocoderUnavailable))].

Definition never_in_bounds : list geocoder :=
  [("Nominatim", always (Located sao_paulo.1 sao_paulo.2));
   ("Photon", always NoMatch);
   ("ArcGIS", always (Fails RuntimeError))].

(** A cache that holds an entry for the empty query and an entry outside
    the box for "rua a". *)
Definition odd_cache : gmap string cache_entry :=
  <[get_cache_key plain_digest "" := (vitoria.1, vitoria.2, "Nominatim", "Sucesso")]>
    (<[get_cache_key plain_digest "Rua A" :=
         (sao_paulo.1, sao_paulo.2, "Photon", "Sucesso")]> ∅).

Definition no_table : dataframe := table [] [].

(** A table of [n] records with the same address. *)
Definition uniform_table (n : nat) : dataframe :=
  table ["endereco_completo"] (replicate n [CStr "Rua A"]).

(** ** Vocabulary of the statements *)

(** The attempts a trace records, in order. *)
Definition attempts (t : list event) : list (string * nat) :=
  omap (fun ev => match ev with
                  | EvAttempt name k => Some (name, k)
                  | _ => None
                  end) t.

(** [max_retries] attempts, numbered from 0, on each geocoder in the order
    of the list. *)
Definition expected_attempts (geocoders : list geocoder) (max_retries : nat)
  : list (string * nat) :=
  flat_map (fun ng => map (fun k => (ng.1, k)) (seq 0 max_retries)) geocoders.

(** The checkpoints a trace records, in order, as (cursor, total). *)
Definition checkpoints (t : list event) : list (nat * nat) :=
  omap (fun ev => match ev with
                  | EvCheckpoint p n => Some (p, n)
                  | _ => None
                  end) t.

(** Cursor and total of the snapshot that is kept. *)
Definition retained (w : world) : option (nat * nat) :=
  (fun c => (cp_processed_count c, cp_total_count c))
    <$> partial_results (session_state w).

(** The checkpoint taken when the loop starts on the record of index [i]. *)
Definition tick (total : nat) (i : nat) : list (nat * nat) :=
  if decide ((i + 1) `mod` 25 = 0)%nat then [((i + 1)%nat, total)] else [].

(** The checkpoints of [k] consecutive records from index [start] on. *)
Definition cadence (total start k : nat) : list (nat * nat) :=
  flat_map (tick total) (seq start k).

(** Latitude and longitude are both present or both absent. *)
Definition paired (r : geo_result) : Prop :=
  match r with
  | (Some _, Some _, _, _) | (None, None, _, _) => True
  | _ => False
  end.

(** What resolving a record never changes: the control state, the snapshot
    that is kept, the pending clicks and the checkpoints recorded so far. *)
Definition quiet (w w' : world) : Prop :=
  processing_state (session_state w') = processing_state (session_state w)
  /\ partial_results (session_state w') = partial_results (session_state w)
  /\ controller w' = controller w
  /\ checkpoints (trace w') = checkpoints (trace w).

(** Between [w] and [w'] exactly the checkpoints [l] were taken, and the
    snapshot that is kept is the last of them (the one of [w] if there is
    none). *)
Definition checkpointed (w : world) (l : list (nat * nat)) (w' : world) : Prop :=
  checkpoints (trace w') = checkpoints (trace w) ++ l
  /\ retained w' = from_option Some (retained w) (last l).

(** No stop has been clicked and none is pending. *)
Definition stop_free (w : world) : Prop :=
  processing_state (session_state w) <> Some STOPPED
  /\ Some STOPPED ∉ controller w.

(** Running [m] from [w] ends in an outcome and a state that satisfy [Q]. *)
Definition sat {A : Type} (m : M A) (w : world)
    (Q : outcome A -> world -> Prop) : Prop :=
  Q (m w).1 (m w).2.

Definition is_checkpoint (ev : event) : bool :=
  match ev with EvCheckpoint _ _ => true | _ => false end.

(** The results [geocode_with_retry] can return. *)
Inductive resolved : geo_result -> Prop :=
  | resolved_empty : resolved (None, None, "Endereço vazio", "Falhou")
  | resolved_cache (lat lon : float) (name : string) :
      resolved (Some lat, Some lon, name, "Cache")
  | resolved_found (lat lon : float) (name : string) :
      in_bounds lat lon = true ->
      resolved (Some lat, Some lon, name, "Sucesso")
  | resolved_failed : resolved (None, None, "Múltiplos provedores", "Falhou").

(** A backend that raises a retryable error whatever it is asked. *)
Definition always_retryable (g : provider) : Prop :=
  forall k q t, exists e, g k q t = Fails e /\ retryable e = true.

(** The worlds the examples start from. *)
Definition plain_world : world := start_world ∅ no_table [].
Definition odd_world : world := start_world odd_cache no_table [].

(** [k] provider calls and the attempts [l] are added between [w] and [w'],
    and the cache is the same. *)
Definition adds (w : world) (k : nat) (l : list (string * nat)) (w' : world) : Prop :=
  attempts (trace w') = attempts (trace w) ++ l
  /\ calls w' = (calls w + k)%nat
  /\ GEOCODING_CACHE w' = GEOCODING_CACHE w.


(** ** Vocabulary of the further statements *)

(** The sleeps a trace records, in order. *)
Definition sleeps (t : list event) : list Q :=
  omap (fun ev => match ev with EvSleep s => Some s | _ => None end) t.

(** The cache and its file are the same in both states. *)
Definition cache_kept (w w' : world) : Prop :=
  GEOCODING_CACHE w' = GEOCODING_CACHE w /\ CACHE_FILE w' = CACHE_FILE w.

(** The entry [e] was stored under [key], and the whole cache written to
    the file. *)
Definition cache_put (key : string) (e : cache_entry) (w w' : world) : Prop :=
  GEOCODING_CACHE w' = <[key := e]> (GEOCODING_CACHE w)
  /\ CACHE_FILE w' = Pickled (GEOCODING_CACHE w').

(** Between [w] and [w'] the trace only grew, by events that satisfy [P]. *)
Definition emits (P : event -> Prop) (w w' : world) : Prop :=
  exists evs, trace w' = trace w ++ evs /\ Forall P evs.

(** The events one call of [geocode_with_retry] for the query [a] can
    produce: an attempt on a configured geocoder, numbered below
    [max_retries]; a provider call for [a] itself, with the timeout of 30 or
    with none; a sleep of [2 ** k] seconds with [k < max_retries - 1]; a
    write of the cache file.  Never a checkpoint. *)
Definition retry_event (a : string) (geocoders : list geocoder) (max_retries : nat)
    (ev : event) : Prop :=
  match ev with
  | EvAttempt name k => name ∈ geocoders.*1 /\ (k < max_retries)%nat
  | EvGeocode q t => q = a /\ (t = Some 30%Z \/ t = None)
  | EvSleep s => exists k, (S k < max_retries)%nat /\ s = inject_Z (2 ^ Z.of_nat k)
  | EvSaveCache => True
  | EvCheckpoint _ _ => False
  end.

(** At most [m] attempts and [2 * m] provider calls lie between [w] and [w']. *)
Definition within (m : nat) (w w' : world) : Prop :=
  (calls w' <= calls w + 2 * m)%nat
  /\ (length (attempts (trace w')) <= length (attempts (trace w)) + m)%nat.

(** [2 ** attempt] seconds. *)
Definition backoff_delay (attempt : nat) : Q := inject_Z (2 ^ Z.of_nat attempt).

(** Between [w] and [w'] exactly the attempts [A], [G] provider calls and
    the sleeps [S] took place. *)
Definition tally (w : world) (A : list (string * nat)) (G : nat) (S : list Q)
    (w' : world) : Prop :=
  attempts (trace w') = attempts (trace w) ++ A
  /\ calls w' = (calls w + G)%nat
  /\ sleeps (trace w') = sleeps (trace w) ++ S.

(** A backend that always answers, and always outside the box. *)
Definition always_outside (g : provider) : Prop :=
  forall k q t, exists lat lon, g k q t = Located lat lon /\ in_bounds lat lon = false.

(** A backend that raises something other than a timeout, a service error
    or an unavailability, whatever it is asked. *)
Definition always_unexpected (g : provider) : Prop :=
  forall k q t, exists e, g k q t = Fails e /\ retryable e = false.

(** A backend that raises retryable errors on its first [n] calls and then
    finds the given place. *)
Definition recovers_after (n : nat) (place : float * float) : provider :=
  fun k _ _ =>
    if (k <? n)%nat then Fails GeocoderTimedOut else Located place.1 place.2.

(** What the resolution functions leave alone: the table, the local
    variables of the batch loop, the session and the pending clicks. *)
Definition engine_frame (w w' : world) : Prop :=
  frame w' = frame w /\ batch_locals w' = batch_locals w
  /\ session_state w' = session_state w /\ controller w' = controller w.

(** The results [geocode_cep_robust] can return. *)
Inductive cep_resolved : geo_result -> Prop :=
  | cep_absent : cep_resolved (None, None, "CEP", "Sem CEP")
  | cep_invalid : cep_resolved (None, None, "CEP", "CEP inválido")
  | cep_failed : cep_resolved (None, None, "CEP", "Falhou")
  | cep_cached (lat lon : float) (name : string) :
      cep_resolved (Some lat, Some lon, "CEP-" +:+ name, "Cache")
  | cep_found (lat lon : float) (name : string) :
      in_bounds lat lon = true ->
      cep_resolved (Some lat, Some lon, "CEP-" +:+ name, "Sucesso").

(** The query [geocode_cep_robust] builds from a cleaned postal code. *)
Definition cep_query (cep_clean : string) : string :=
  (slice_to 5 cep_clean +:+ "-" +:+ slice_from 5 cep_clean)
  +:+ ", Espírito Santo, Brasil".

(** ** Column clean-up of the visualisation page *)

(** A table as a list of labelled columns, in the order of [df.columns].
    The labels are strings, as the second pass of the function needs. *)
Abbreviation labelled A := (list (string * A)).

(** [df.columns.duplicated(keep='first')]: the mask that is [True] at every
    label seen before. *)
Fixpoint duplicated_after (seen : list string) (cols : list string) : list bool :=
  match cols with
  | [] => []
  | c :: rest => bool_decide (c ∈ seen) :: duplicated_after (c :: seen) rest
  end.

Definition duplicated (cols : list string) : list bool := duplicated_after [] cols.

(** [mask.any()]. *)
Definition any (mask : list bool) : bool := existsb id mask.

(** [df.loc[:, ~mask]]. *)
Fixpoint loc_not {A : Type} (mask : list bool) (df : labelled A) : labelled A :=
  match mask, df with
  | m :: ms, c :: cs => if m then loc_not ms cs else c :: loc_not ms cs
  | _, _ => []
  end.

(** [df.drop(columns=[col], errors='ignore')]. *)
Definition drop_column {A : Type} (col : string) (df : labelled A) : labelled A :=
  filter (fun c => c.1 <> col) df.

(** [col.lower().strip()]. *)
Definition col_key (col : string) : string := strip (lower col).

(** The second pass.  The loop runs over the labels the table had when the
    loop began; [cols_lower] is the dictionary of the keys met so far. *)
Fixpoint second_pass {A : Type} (cols : list string) (cols_lower : gmap string string)
    (df : labelled A) : labelled A :=
  match cols with
  | [] => df
  | col :: rest =>
      match cols_lower !! col_key col with
      | Some _ => second_pass rest cols_lower (drop_column col df)
      | None => second_pass rest (<[col_key col := col]> cols_lower) df
      end
  end.

(** The third pass: [while df.columns.duplicated().any() and attempts < 5];
    [remaining] is [5 - attempts]. *)
Fixpoint third_pass {A : Type} (remaining : nat) (df : labelled A) : labelled A :=
  match remaining with
  | O => df
  | S k =>
      if any (duplicated df.*1)
      then third_pass k (loc_not (duplicated df.*1) df)
      else df
  end.

(** [remove_duplicate_columns_robust(df)]. *)
Definition remove_duplicate_columns_robust {A : Type} (df : option (labelled A))
  : option (labelled A) :=
  match df with
  | None => None
  | Some df =>
      let df1 :=
        if any (duplicated df.*1) then loc_not (duplicated df.*1) df else df in
      let df2 := second_pass df1.*1 ∅ df1 in
      let df3 := third_pass 5 df2 in
      if any (duplicated df3.*1) then None else Some df3
  end.

(** The columns of [df] whose key is not in [seen] and not the key of an
    earlier column. *)
Fixpoint first_of_each_key {A : Type} (seen : list string) (df : labelled A)
  : labelled A :=
  match df with
  | [] => []
  | c :: rest =>
      if bool_decide (col_key c.1 ∈ seen) then first_of_each_key seen rest
      else c :: first_of_each_key (col_key c.1 :: seen) rest
  end.

(** The columns of [df] whose label is not in [seen] and not the label of
    an earlier column. *)
Fixpoint first_of_each_label {A : Type} (seen : list string) (df : labelled A)
  : labelled A :=
  match df with
  | [] => []
  | c :: rest =>
      if bool_decide (c.1 ∈ seen) then first_of_each_label (c.1 :: seen) rest
      else c :: first_of_each_label (c.1 :: seen) rest
  end.

(** ** Log buffer *)

(** An entry of [LogCapture.logs]. *)
Record log_entry : Type := {
  log_timestamp : string;
  log_level : string;
  log_message : string;
  log_details : string
}.

(** An instance of [LogCapture]. *)
Record LogCapture : Type := {
  logs : list log_entry;
  max_logs : nat
}.

(** [LogCapture.__init__]. *)
Definition new_LogCapture : LogCapture := {| logs := []; max_logs := 100 |}.

(** What [add_log] builds from its arguments; [now] is the reading of the
    clock, formatted "%H:%M:%S", and [details or ""] the text that is kept. *)
Definition make_entry (now level message : string) (details : option string)
  : log_entry :=
  {| log_timestamp := now; log_level := level; log_message := message;
     log_details := default "" details |}.

(** [LogCapture.add_log]: append, then [pop(0)] when the list is longer than
    [max_logs]. *)
Definition add_log (now level message : string) (details : option string)
    (self : LogCapture) : LogCapture :=
  let appended := logs self ++ [make_entry now level message details] in
  {| logs := if (max_logs self <? length appended)%nat then tail appended
             else appended;
     max_logs := max_logs self |}.

(** [LogCapture.get_logs] and [LogCapture.clear_logs]. *)
Definition get_logs (self : LogCapture) : list log_entry := logs self.

Definition clear_logs (self : LogCapture) : LogCapture :=
  {| logs := []; max_logs := max_logs self |}.

(** A call of [add_log] to come: clock reading, level, message, details. *)
Abbreviation log_call := (string * string * string * option string)%type.

Definition entry_of (c : log_call) : log_entry :=
  make_entry c.1.1.1 c.1.1.2 c.1.2 c.2.

(** The calls [cs] of [add_log], one after the other. *)
Definition add_logs (cs : list log_call) (self : LogCapture) : LogCapture :=
  fold_left (fun l c => add_log c.1.1.1 c.1.1.2 c.1.2 c.2 l) cs self.

(** [l[-n:]] for a positive [n]. *)
Definition last_n {A : Type} (n : nat) (l : list A) : list A :=
  drop (length l - n) l.

(** The entries [display_logs] shows: [logs[-15:]]. *)
Definition displayed (self : LogCapture) : list log_entry :=
  last_n 15 (get_logs self).

(** ** Control buttons and their handlers *)

Inductive button : Type := StartButton | PauseButton | StopButton | DownloadButton.

#[global] Instance button_eq_dec : EqDecision button.
Proof. solve_decision. Defined.

(** The four values [create_control_buttons] returns. *)
Record clicks : Type := {
  start_clicked : bool;
  pause_clicked : bool;
  stop_clicked : bool;
  download_clicked : bool
}.

(** [create_control_buttons].  [pressed] is the button whose click caused
    this run of the script, if any; [st.button] returns [True] for it and
    [False] for the others, and a button drawn with [disabled=True] cannot
    be clicked. *)
Definition create_control_buttons (pressed : option button) (s : session) : clicks :=
  let current_state := default IDLE (processing_state s) in
  let hit b := bool_decide (pressed = Some b) in
  {| start_clicked :=
       match current_state with
       | IDLE => hit StartButton
       | _ => false
       end;
     pause_clicked :=
       match current_state with
       | RUNNING | PAUSED => hit PauseButton
       | _ => false
       end;
     stop_clicked :=
       match current_state with
       | RUNNING | PAUSED => hit StopButton
       | _ => false
       end;
     download_clicked :=
       match partial_results s with
       | Some c => if (0 <? cp_processed_count c)%nat then hit DownloadButton else false
       | None => false
       end |}.

(** The handlers that follow the call of [create_control_buttons]; each of
    the first three ends in [st.rerun()], which ends the run of the script,
    so at most one of them acts.  The result says whether a rerun was
    asked for. *)
Definition handle_clicks (now : string) (c : clicks) (s : session) (log : LogCapture)
  : session * LogCapture * bool :=
  if start_clicked c then
    (set_processed_index (Some 0%nat) (set_processing_state (Some RUNNING) s),
     add_log now "INFO" "Iniciando processamento..." None (clear_logs log),
     true)
  else if pause_clicked c then
    match default IDLE (processing_state s) with
    | RUNNING =>
        (set_processing_state (Some PAUSED) s,
         add_log now "INFO" "Processamento pausado pelo usuário" None log, true)
    | PAUSED =>
        (set_processing_state (Some RUNNING) s,
         add_log now "INFO" "Processamento retomado pelo usuário" None log, true)
    | _ => (s, log, true)
    end
  else if stop_clicked c then
    (set_processing_state (Some STOPPED) s,
     add_log now "WARNING" "Processamento interrompido pelo usuário" None log,
     true)
  else (s, log, false).

(** One run of the script up to the handlers, for the button [pressed] at
    the time [now]. *)
Definition control_pass (pn : option button * string) (sl : session * LogCapture)
  : session * LogCapture :=
  (handle_clicks pn.2 (create_control_buttons pn.1 sl.1) sl.1 sl.2).1.

(** A series of such runs. *)
Definition control_passes (pns : list (option button * string))
    (sl : session * LogCapture) : session * LogCapture :=
  fold_left (fun sl pn => control_pass pn sl) pns sl.

(** ** Vocabulary of the complete run *)

(** The record has a string, possibly empty, in the address column. *)
Definition has_text_address (cols : list string) (r : row) : Prop :=
  exists a, lookup_column "endereco_completo" cols (cells r) = Some (CStr a).

(** The result cells of a record that was not processed yet. *)
Definition blank (r : row) : Prop :=
  latitude r = None /\ longitude r = None
  /\ geocoding_method r = None /\ geocoding_status r = None.

(** The exception the loop body raises before it resolves a record whose
    address cell cannot be used: [TypeError] from slicing a cell that is not
    a sequence, [KeyError] from reading a column that does not exist. *)
Definition address_error (cols : list string) (cs : list cell) : option exn :=
  match lookup_column "endereco_completo" cols cs with
  | Some e => if subscriptable e then None else Some TypeError
  | None => Some KeyError
  end.

(** The result cells of a processed record: both coordinates with the
    status "Sucesso" or "Cache", or no coordinate with one of the three
    statuses of a failure. *)
Definition settled (r : row) : Prop :=
  match latitude r, longitude r, geocoding_method r, geocoding_status r with
  | Some _, Some _, Some _, Some st => st = "Sucesso" \/ st = "Cache"
  | None, None, Some _, Some st =>
      st = "Falhou" \/ st = "Sem CEP" \/ st = "CEP inválido"
  | _, _, _, _ => False
  end.

Definition one_if (b : bool) : Z := if b then 1%Z else 0%Z.

(** How the counters move when the record [r'] has been written. *)
Definition counted (r' : row) (l l' : locals) : Prop :=
  cache_count l' = (cache_count l + one_if (status_is "Cache" r'))%Z
  /\ (success_count l' + cep_count l'
      = success_count l + cep_count l + one_if (status_is "Sucesso" r'))%Z
  /\ (success_count l' + cep_count l' + cache_count l' + error_count l'
      = success_count l + cep_count l + cache_count l + error_count l + 1)%Z.

(** The counters agree with the records [done]. *)
Definition tallies (l : locals) (done : list row) : Prop :=
  cache_count l = count_rows (status_is "Cache") done
  /\ (success_count l + cep_count l)%Z = count_rows (status_is "Sucesso") done
  /\ (success_count l + cep_count l + cache_count l + error_count l)%Z
     = Z.of_nat (length done).

(** What processing the record [r] of index [i] does to the state. *)
Definition record_resolved (i : nat) (r : row) (w w' : world) : Prop :=
  session_state w' = session_state w
  /\ controller w' = controller w
  /\ columns (frame w') = columns (frame w)
  /\ exists r',
       rows (frame w') = <[i := r']> (rows (frame w))
       /\ cells r' = cells r
       /\ settled r'
       /\ status (batch_locals w') = geocoding_status r'
       /\ counted r' (batch_locals w) (batch_locals w').

(** The state of a run that has processed the first [k] records of the
    table with the columns [cols] and the cells [input] without being
    disturbed; [ctl] is what the user interface will still write. *)
Definition run_inv (ctl : list (option pstate)) (cols : list string)
    (input : list (list cell)) (k : nat) (w : world) : Prop :=
  processing_state (session_state w) = Some RUNNING
  /\ controller w = ctl
  /\ columns (frame w) = cols
  /\ cells <$> rows (frame w) = input
  /\ Forall settled (take k (rows (frame w)))
  /\ Forall blank (drop k (rows (frame w)))
  /\ tallies (batch_locals w) (take k (rows (frame w)))
  /\ (k = 0%nat \/ status (batch_locals w) <> None).

(** ** Address construction *)

(** A value of a row of the uploaded table: [None], [NaN], a string or an
    integer. *)
Inductive scalar : Type :=
  | SNone
  | SNaN
  | SStr (s : string)
  | SInt (z : Z).

(** [str(x)]. *)
Definition str_scalar (x : scalar) : string :=
  match x with
  | SNone => "None"
  | SNaN => "nan"
  | SStr s => s
  | SInt z => pretty z
  end.

(** [s.upper()] on ASCII letters. *)
Definition upper_ascii (c : ascii) : ascii :=
  let n := nat_of_ascii c in
  if (97 <=? n)%nat && (n <=? 122)%nat then ascii_of_nat (n - 32) else c.

Fixpoint upper (s : string) : string :=
  match s with
  | EmptyString => EmptyString
  | String c r => String (upper_ascii c) (upper r)
  end.

(** [sep.join(parts)]. *)
Fixpoint join (sep : string) (parts : list string) : string :=
  match parts with
  | [] => ""
  | [p] => p
  | p :: rest => p +:+ sep +:+ join sep rest
  end.

(** The value under the first index label equal to [label] of a row with
    the index [cols] and the values [vals]. *)
Fixpoint series_lookup {A : Type} (label : string) (cols : list string)
    (vals : list A) : option A :=
  match cols, vals with
  | c :: cs, v :: vs =>
      if decide (c = label) then Some v else series_lookup label cs vs
  | _, _ => None
  end.

(** [row.get(label, '')]. *)
Definition row_get (cols : list string) (vals : list scalar) (label : string)
  : scalar :=
  default (SStr "") (series_lookup label cols vals).

(** The condition [pd.notna(x) and x.strip()]: its truth value, or [None]
    when [x] has no method [strip] and the evaluation raises
    [AttributeError]. *)
Definition notna_and_strip (x : scalar) : option bool :=
  match x with
  | SNone | SNaN => Some false
  | SStr s => Some (if decide (strip s = "") then false else true)
  | SInt _ => None
  end.

(** [if pd.notna(row.get(label, '')) and row.get(label, '').strip():
        parts.append(str(row[label]).strip())]. *)
Definition append_part (cols : list string) (vals : list scalar) (label : string)
    (parts : list string) : option (list string) :=
  match notna_and_strip (row_get cols vals label) with
  | Some true => Some (parts ++ [strip (str_scalar (row_get cols vals label))])
  | Some false => Some parts
  | None => None
  end.

(** The number: [str(row.get('V16', '')).strip().upper()], appended unless
    it is empty or one of 'S/N', 'SN', 'NAN'. *)
Definition append_number (cols : list string) (vals : list scalar)
    (parts : list string) : list string :=
  let numero := upper (strip (str_scalar (row_get cols vals "V16"))) in
  if bool_decide (numero ∈ ["S/N"; "SN"; "NAN"; ""]) then parts
  else parts ++ [numero].

(** The body of the [try] of [construct_address]; [None] is a raised
    exception, [SNone] the value [None]. *)
Definition construct_address_body (cols : list string) (vals : list scalar)
  : option scalar :=
  given ← (if bool_decide ("endereco_completo" ∈ cols)
           then notna_and_strip (row_get cols vals "endereco_completo")
           else Some false);
  if (given : bool) then Some (row_get cols vals "endereco_completo")
  else
    parts ← append_part cols vals "V14" [];
    parts ← append_part cols vals "V15" parts;
    parts ← append_part cols vals "V18" (append_number cols vals parts);
    match parts with
    | [] => Some SNone
    | _ => Some (SStr (join ", " parts +:+ ", Espírito Santo, Brasil"))
    end.

(** [construct_address(row)]: every exception gives [None]. *)
Definition construct_address (cols : list string) (vals : list scalar) : scalar :=
  default SNone (construct_address_body cols vals).

(** The cell the batch loop sees for a value of the table. *)
Definition to_cell (x : scalar) : cell :=
  match x with
  | SNone | SNaN => CNull
  | SStr s => CStr s
  | SInt z => CInt z
  end.

(** The values of a row with the value under the first label [label]
    replaced by [x]. *)
Fixpoint series_set {A : Type} (label : string) (cols : list string)
    (vals : list A) (x : A) : list A :=
  match cols, vals with
  | c :: cs, v :: vs =>
      if decide (c = label) then x :: vs else v :: series_set label cs vs x
  | _, _ => vals
  end.

(** [df['endereco_completo'] = df.apply(construct_address, axis=1)] of
    [process_uploaded_files], on a table with distinct column labels, and
    the table handed to the batch loop. *)
Definition assign_addresses (cols : list string) (rows : list (list scalar))
  : list string * list (list scalar) :=
  if bool_decide ("endereco_completo" ∈ cols)
  then (cols,
        map (fun vals => series_set "endereco_completo" cols vals
                           (construct_address cols vals)) rows)
  else (cols ++ ["endereco_completo"],
        map (fun vals => vals ++ [construct_address cols vals]) rows).

Definition to_dataframe (t : list string * list (list scalar)) : dataframe :=
  table t.1 (map (map to_cell) t.2).

(** Every character of the string is white space. *)
Fixpoint all_space (s : string) : bool :=
  match s with
  | EmptyString => true
  | String c r => isspace c && all_space r
  end.

(** [get_geocoders]; each argument is the backend its constructor returns,
    or [None] when the constructor raises. *)
Definition get_geocoders (nominatim photon arcgis : option provider)
  : list geocoder :=
  let geocoders := [] in
  let geocoders :=
    match nominatim with
    | Some g => geocoders ++ [("Nominatim", g)]
    | None => geocoders
    end in
  let geocoders :=
    match photon with
    | Some g => geocoders ++ [("Photon", g)]
    | None => geocoders
    end in
  match arcgis with
  | Some g => geocoders ++ [("ArcGIS", g)]
  | None => geocoders
  end.

(** ** Text on which the embedding is exact *)

(** The characters of ASCII.  On them [isspace], [lower_ascii] and
    [upper_ascii] are [str.isspace], [str.lower] and [str.upper], and a
    character is one element of the string. *)
Definition is_ascii (c : ascii) : bool := (nat_of_ascii c <? 128)%nat.

Definition ascii_only (s : string) : bool :=
  forallb is_ascii (list_ascii_of_string s).

(** The bytes that [repr] of a [bytes] object writes as they are: printable
    ASCII but the quote and the backslash. *)
Definition shown_as_is (c : ascii) : bool :=
  let n := nat_of_ascii c in
  (32 <=? n)%nat && (n <? 127)%nat && negb (n =? 39)%nat && negb (n =? 92)%nat.

(** The cells for which [py_str] is the text of [str(x)], character by
    character. *)
Definition exact_cell (x : cell) : bool :=
  match x with
  | CNull => true
  | CStr s => ascii_only s
  | CInt _ => true
  | CBytes b => forallb shown_as_is (list_ascii_of_string b)
  end.

(** ** The records a run goes on to *)

(** The control check at the top of an iteration lets the loop go on to the
    record of index [i] (lines 243-262): no stop is seen, and [df.iloc[i]]
    exists. *)

Definition reaches_record (i : nat) (w : world) : bool :=
  match control_check w with
  | (Ok Break, _) => false
  | (Ok _, w') => bool_decide (is_Some (rows (frame w') !! i))
  | _ => false
  end.

Section Reach.

Variable md5_hexdigest : string -> string.

Fixpoint records_reached (geocoders : list geocoder) (total : nat)
    (indices : list nat) (w : world) : nat :=
  match indices with
  | [] => 0
  | i :: rest =>
      if reaches_record i w then
        S (match iteration md5_hexdigest geocoders total i w with
           | (Ok Break, _) => 0
           | (Ok _, w') => records_reached geocoders total rest w'
           | _ => 0
           end)
      else 0
  end.

Definition run_reached (geocoders : list geocoder) (w : world) : nat :=
  match prepare w with
  | (Ok p, w') => records_reached geocoders p.2 (seq p.1 (p.2 - p.1)) w'
  | _ => 0
  end.

End Reach.


(** * Properties *)

(** ** Rules for running monadic code *)

Lemma bind_run {A B : Type} (m : M A) (f : A -> M B) (w : world) :
  (m ≫= f) w =
  match m w with
  | (Ok a, w') => f a w'
  | (Raise e, w') => (Raise e, w')
  | (Diverge, w') => (Diverge, w')
  end.
Proof. reflexivity. Qed.

Lemma try_except_run {A : Type} (body : M A) (handler : exn -> M A) (w : world) :
  try_except body handler w =
  match body w with
  | (Raise e, w') => handler e w'
  | r => r
  end.
Proof. reflexivity. Qed.

Lemma sat_ret {A : Type} (a : A) (w : world) (Q : outcome A -> world -> Prop) :
  Q (Ok a) w -> sat (mret a) w Q.
Proof. exact (fun H => H). Qed.

Lemma sat_raise {A : Type} (e : exn) (w : world) (Q : outcome A -> world -> Prop) :
  Q (Raise e) w -> sat (raise e) w Q.
Proof. exact (fun H => H). Qed.

Lemma sat_read {A : Type} (f : world -> A) (w : world) (Q : outcome A -> world -> Prop) :
  Q (Ok (f w)) w -> sat (read f) w Q.
Proof. exact (fun H => H). Qed.

Lemma sat_modify (f : world -> world) (w : world) (Q : outcome unit -> world -> Prop) :
  Q (Ok tt) (f w) -> sat (modify f) w Q.
Proof. exact (fun H => H). Qed.

Lemma sat_emit (ev : event) (w : world) (Q : outcome unit -> world -> Prop) :
  Q (Ok tt) (with_event ev w) -> sat (emit ev) w Q.
Proof. exact (fun H => H). Qed.

Lemma sat_sleep (s : Q) (w : world) (Q : outcome unit -> world -> Prop) :
  Q (Ok tt) (with_event (EvSleep s) w) -> sat (sleep s) w Q.
Proof. exact (fun H => H). Qed.

Lemma sat_bind {A B : Type} (m : M A) (f : A -> M B) (w : world)
    (Q : outcome B -> world -> Prop) :
  sat m w (fun o w' =>
             match o with
             | Ok a => sat (f a) w' Q
             | Raise e => Q (Raise e) w'
             | Diverge => Q Diverge w'
             end) ->
  sat (m ≫= f) w Q.
Proof.
  unfold sat. rewrite bind_run. destruct (m w) as [[a | e |] w']; cbn; auto.
Qed.

Lemma sat_try {A : Type} (body : M A) (handler : exn -> M A) (w : world)
    (Q : outcome A -> world -> Prop) :
  sat body w (fun o w' =>
                match o with
                | Raise e => sat (handler e) w' Q
                | _ => Q o w'
                end) ->
  sat (try_except body handler) w Q.
Proof.
  unfold sat. rewrite try_except_run. destruct (body w) as [[a | e |] w']; cbn; auto.
Qed.

Lemma sat_mono {A : Type} (m : M A) (w : world) (Q Q' : outcome A -> world -> Prop) :
  sat m w Q -> (forall o w', Q o w' -> Q' o w') -> sat m w Q'.
Proof. unfold sat. auto. Qed.

Lemma sat_run {A : Type} (m : M A) (w : world) (Q : outcome A -> world -> Prop)
    (o : outcome A) (w' : world) :
  sat m w Q -> m w = (o, w') -> Q o w'.
Proof. unfold sat. intros H E. rewrite E in H. exact H. Qed.

(** Symbolic execution of straight-line code; branches are split. *)
Ltac wp_step :=
  lazymatch goal with
  | |- sat (mret _) _ _ => apply sat_ret
  | |- sat (raise _) _ _ => apply sat_raise
  | |- sat (read _) _ _ => apply sat_read
  | |- sat (modify _) _ _ => apply sat_modify
  | |- sat (emit _) _ _ => apply sat_emit
  | |- sat (sleep _) _ _ => apply sat_sleep
  | |- sat (_ ≫= _) _ _ => apply sat_bind
  | |- sat (try_except _ _) _ _ => apply sat_try
  | |- sat (if ?b then _ else _) _ _ => destruct b eqn:?
  | |- sat (match ?x with _ => _ end) _ _ => destruct x eqn:?
  end; cbn beta iota.

Ltac wp := repeat wp_step.

(** Closes [exists x, o = Ok x /\ P x] when [o] is a value. *)
Ltac returns := eexists; split; [reflexivity | cbn; eauto].

(** ** What leaves the session and the checkpoints alone *)

Lemma checkpoints_app (t1 t2 : list event) :
  checkpoints (t1 ++ t2) = checkpoints t1 ++ checkpoints t2.
Proof. apply omap_app. Qed.

Lemma checkpoints_snoc (t : list event) (ev : event) :
  is_checkpoint ev = false -> checkpoints (t ++ [ev]) = checkpoints t.
Proof.
  intros H. rewrite checkpoints_app.
  destruct ev; try discriminate H; cbn; apply app_nil_r.
Qed.

Lemma quiet_refl (w : world) : quiet w w.
Proof. repeat split. Qed.

Lemma quiet_trans (w1 w2 w3 : world) : quiet w1 w2 -> quiet w2 w3 -> quiet w1 w3.
Proof.
  intros (H1 & H2 & H3 & H4) (K1 & K2 & K3 & K4). repeat split; congruence.
Qed.

Lemma quiet_event (w w' : world) (ev : event) :
  is_checkpoint ev = false -> quiet w w' -> quiet w (with_event ev w').
Proof.
  intros Hev (H1 & H2 & H3 & H4). repeat split; cbn; auto.
  rewrite checkpoints_snoc; auto.
Qed.

Lemma quiet_call (w w' : world) (ev : event) :
  is_checkpoint ev = false -> quiet w w' -> quiet w (with_call ev w').
Proof.
  intros Hev (H1 & H2 & H3 & H4). repeat split; cbn; auto.
  rewrite checkpoints_snoc; auto.
Qed.

Lemma quiet_cache (w w' : world) (c : gmap string cache_entry) :
  quiet w w' -> quiet w (with_cache c w').
Proof. exact (fun H => H). Qed.

Lemma quiet_file (w w' : world) (f : cache_file) :
  quiet w w' -> quiet w (with_file f w').
Proof. exact (fun H => H). Qed.

Lemma quiet_frame (w w' : world) (d : dataframe) :
  quiet w w' -> quiet w (with_frame d w').
Proof. exact (fun H => H). Qed.

Lemma quiet_locals (w w' : world) (l : locals) :
  quiet w w' -> quiet w (with_locals l w').
Proof. exact (fun H => H). Qed.

Create HintDb quiet.
#[local] Hint Resolve quiet_refl quiet_event quiet_call quiet_cache quiet_file
  quiet_frame quiet_locals : quiet.
#[local] Hint Extern 1 (is_checkpoint _ = false) => reflexivity : quiet.

(** ** Retry and backoff controller *)

Section Retry_facts.

Variable md5_hexdigest : string -> string.

(** A query that passes the guard and whose key is cached is answered from
    the cache, and nothing else happens. *)
Lemma cache_hit (a : string) (geocoders : list geocoder) (max_retries : nat)
    (w : world) (e : cache_entry) :
  a <> "" ->
  GEOCODING_CACHE w !! get_cache_key md5_hexdigest a = Some e ->
  geocode_with_retry md5_hexdigest (CStr a) geocoders max_retries w
  = (Ok (Some e.1.1.1, Some e.1.1.2, e.1.2, "Cache"), w).
Proof.
  intros Ha He. unfold geocode_with_retry, falsy_or_na.
  destruct (decide (a = "")) as [Heq | _]; [contradiction |].
  rewrite bind_run. unfold read. cbn beta iota. rewrite He. reflexivity.
Qed.

(** The empty query never reaches the cache. *)
Lemma empty_query (geocoders : list geocoder) (max_retries : nat) (w : world) :
  geocode_with_retry md5_hexdigest (CStr "") geocoders max_retries w
  = (Ok (None, None, "Endereço vazio", "Falhou"), w).
Proof. reflexivity. Qed.

Lemma sat_geocode (g : provider) (q : string) (t : option Z) (w : world)
    (Q : outcome (option (float * float)) -> world -> Prop) :
  match g (calls w) q t with
  | Located lat lon => Q (Ok (Some (lat, lon))) (with_call (EvGeocode q t) w)
  | NoMatch => Q (Ok None) (with_call (EvGeocode q t) w)
  | Fails e => Q (Raise e) (with_call (EvGeocode q t) w)
  end ->
  sat (geocode g q t) w Q.
Proof.
  unfold sat, geocode. destruct (g (calls w) q t); auto.
Qed.

Lemma backoff_quiet (attempt max_retries : nat) (w : world)
    (Q : outcome unit -> world -> Prop) :
  (forall w', quiet w w' -> Q (Ok tt) w') ->
  sat (backoff attempt max_retries) w Q.
Proof.
  intros H. unfold backoff. wp; apply H; auto with quiet.
Qed.

(** What one attempt can end in: it always returns, and it returns from the
    function only with a coordinate inside the box, under the name of the
    geocoder. *)
Lemma attempt_once_outcome (name : string) (g : provider) (a key : string)
    (max_retries attempt : nat) (w : world) :
  sat (attempt_once name g a key max_retries attempt) w
      (fun o w' =>
         quiet w w'
         /\ exists f, o = Ok f
            /\ match f with
               | Return r =>
                   exists lat lon, r = (Some lat, Some lon, name, "Sucesso")
                                   /\ in_bounds lat lon = true
               | _ => True
               end).
Proof.
  unfold attempt_once, custom_geocode, save_cache.
  wp. apply sat_geocode.
  destruct (g _ a (Some 30%Z)) as [lat lon | | e1]; cbn beta iota.
  - wp.
    + split; [auto 10 with quiet | returns].
    + split; [auto 10 with quiet | returns].
  - apply sat_bind, backoff_quiet. intros w' Hw'. wp.
    split; [| returns]. eapply quiet_trans; [| exact Hw']. auto with quiet.
  - apply sat_geocode.
    destruct (g _ a None) as [lat lon | | e2]; cbn beta iota.
    + wp.
      * split; [auto 10 with quiet | returns].
      * split; [auto 10 with quiet | returns].
    + apply sat_bind, backoff_quiet. intros w' Hw'. wp.
      split; [| returns]. eapply quiet_trans; [| exact Hw']. auto with quiet.
    + wp.
      * apply backoff_quiet. intros w' Hw'. wp.
        split; [| returns]. eapply quiet_trans; [| exact Hw']. auto with quiet.
      * split; [auto with quiet | returns].
Qed.

(** The attempts on one geocoder always come to an end, and end the function
    only with an in-bounds coordinate. *)
Lemma attempts_loop_outcome (name : string) (g : provider) (a key : string)
    (max_retries : nat) (l : list nat) (w : world) :
  sat (attempts_loop name g a key max_retries l) w
      (fun o w' =>
         quiet w w'
         /\ exists r, o = Ok r
            /\ match r with
               | Some x => resolved x /\ x.2 = "Sucesso"
               | None => True
               end).
Proof.
  revert w. induction l as [| attempt rest IH]; intros w; cbn [attempts_loop].
  - wp. split; [auto with quiet | returns].
  - apply sat_bind. eapply sat_mono; [apply attempt_once_outcome |].
    intros o w1 (Hq & f & -> & Hf). cbn beta iota.
    destruct f as [| | r]; cbn beta iota.
    + eapply sat_mono; [apply IH |]. intros o w2 (Hq2 & Hr).
      split; [eapply quiet_trans; eassumption | exact Hr].
    + wp. split; [assumption | returns].
    + wp. split; [assumption |]. destruct Hf as (lat & lon & -> & Hb).
      eexists; split; [reflexivity |]. split; [constructor; exact Hb | reflexivity].
Qed.

(** The walk over the geocoders always returns a result. *)
Lemma geocoders_loop_outcome (a key : string) (max_retries : nat)
    (geocoders : list geocoder) (w : world) :
  sat (geocoders_loop a key max_retries geocoders) w
      (fun o w' => quiet w w' /\ exists r, o = Ok r /\ resolved r).
Proof.
  revert w. induction geocoders as [| [name g] rest IH]; intros w;
    cbn [geocoders_loop].
  - wp. split; [auto with quiet |]. eexists; split; [reflexivity | constructor].
  - apply sat_bind. eapply sat_mono; [apply attempts_loop_outcome |].
    intros o w1 (Hq & r & -> & Hr). cbn beta iota.
    destruct r as [x |]; cbn beta iota.
    + wp. split; [assumption |]. eexists; split; [reflexivity | apply Hr].
    + eapply sat_mono; [apply IH |]. intros o w2 (Hq2 & Hr2).
      split; [eapply quiet_trans; eassumption | exact Hr2].
Qed.

(** [geocode_with_retry] returns one of the four kinds of result, or raises
    [AttributeError] on an argument that is not a string; it changes
    neither the session nor the checkpoints. *)
Lemma geocode_with_retry_outcome (address : cell) (geocoders : list geocoder)
    (max_retries : nat) (w : world) :
  sat (geocode_with_retry md5_hexdigest address geocoders max_retries) w
      (fun o w' =>
         quiet w w'
         /\ match o with
            | Ok r => resolved r
            | Raise e => e = AttributeError /\ forall a, address <> CStr a
            | Diverge => False
            end).
Proof.
  unfold geocode_with_retry.
  destruct (falsy_or_na address) eqn:Hguard.
  - wp. split; [auto with quiet | constructor].
  - destruct address as [| a | z | b]; wp;
      try (split; [auto with quiet | split; [reflexivity | congruence]]).
    + destruct p as [[[lat lon] name] st]. split; [auto with quiet | constructor].
    + eapply sat_mono; [apply geocoders_loop_outcome |].
      intros o w' (Hq & r & -> & Hr). auto.
Qed.

(** On a string the function always returns. *)
Lemma geocode_with_retry_returns (a : string) (geocoders : list geocoder)
    (max_retries : nat) (w : world) :
  exists r w',
    geocode_with_retry md5_hexdigest (CStr a) geocoders max_retries w = (Ok r, w')
    /\ resolved r /\ quiet w w'.
Proof.
  pose proof (geocode_with_retry_outcome (CStr a) geocoders max_retries w) as H.
  unfold sat in H.
  destruct (geocode_with_retry md5_hexdigest (CStr a) geocoders max_retries w)
    as [[r | e |] w'] eqn:E; cbn in H; destruct H as [Hq H].
  - eauto.
  - destruct H as [_ H]. exfalso. exact (H a eq_refl).
  - contradiction.
Qed.

(** [geocode_cep_robust] always returns, with both coordinates or none. *)
Lemma geocode_cep_robust_outcome (cep : cell) (geocoders : list geocoder)
    (w : world) :
  sat (geocode_cep_robust md5_hexdigest cep geocoders) w
      (fun o w' => quiet w w' /\ exists r, o = Ok r /\ paired r).
Proof.
  unfold geocode_cep_robust. apply sat_try.
  destruct (cep_missing cep); [wp; split; [auto with quiet | returns] |].
  cbn zeta.
  destruct (negb _); [wp; split; [auto with quiet | returns] |].
  apply sat_bind. eapply sat_mono; [apply geocode_with_retry_outcome |].
  intros o w' (Hq & Ho). destruct o as [r | e |]; cbn beta iota.
  - destruct Ho; wp; (split; [assumption | returns]).
  - destruct Ho as [_ Ho]. exfalso. eapply Ho. reflexivity.
  - contradiction.
Qed.

End Retry_facts.

(** ** Claims about the retry controller and the postal-code lookup *)

Section Retry_claims.

Variable md5_hexdigest : string -> string.

(** C2.  Whatever the query, the cache and the behaviour of the providers,
    a result that [geocode_with_retry] returns with status "Sucesso" carries
    a latitude in [-22.0, -17.0] and a longitude in [-42.0, -38.0]. *)
Theorem success_is_within_bounds (address : cell) (geocoders : list geocoder)
    (max_retries : nat) (w w' : world) (lat lon : option float) (method : string) :
  geocode_with_retry md5_hexdigest address geocoders max_retries w
  = (Ok (lat, lon, method, "Sucesso"), w') ->
  exists la lo,
    lat = Some la /\ lon = Some lo
    /\ PrimFloat.leb (-22)%float la = true /\ PrimFloat.leb la (-17)%float = true
    /\ PrimFloat.leb (-42)%float lo = true /\ PrimFloat.leb lo (-38)%float = true.
Proof.
  intros E.
  pose proof (sat_run _ _ _ _ _
                (geocode_with_retry_outcome md5_hexdigest address geocoders
                   max_retries w) E) as [_ Hr].
  inversion Hr as [| | la lo name Hb |]; subst.
  exists la, lo. unfold in_bounds in Hb.
  apply andb_prop in Hb as [H1 H2].
  apply andb_prop in H1 as [? ?]. apply andb_prop in H2 as [? ?]. auto 10.
Qed.

(** C3, as amended.  For every non-empty query string whose cache key is in
    the cache, [geocode_with_retry] returns the cached latitude, longitude
    and provider name with status "Cache" and leaves the state as it was:
    no provider call, no sleep. *)
Theorem cached_query_is_served (a : string) (geocoders : list geocoder)
    (max_retries : nat) (w : world) (lat lon : float) (name st : string) :
  a <> "" ->
  GEOCODING_CACHE w !! get_cache_key md5_hexdigest a = Some (lat, lon, name, st) ->
  geocode_with_retry md5_hexdigest (CStr a) geocoders max_retries w
  = (Ok (Some lat, Some lon, name, "Cache"), w).
Proof. intros Ha He. exact (cache_hit md5_hexdigest a geocoders max_retries w _ Ha He). Qed.

(** C9.  Every result of [geocode_with_retry] and of [geocode_cep_robust]
    has both coordinates or neither; the second function, and the first one
    on a string, always return a result. *)
Theorem coordinates_come_in_pairs (geocoders : list geocoder) (w : world) :
  (forall address max_retries r w',
      geocode_with_retry md5_hexdigest address geocoders max_retries w = (Ok r, w') ->
      paired r)
  /\ (forall a max_retries, exists r w',
        geocode_with_retry md5_hexdigest (CStr a) geocoders max_retries w = (Ok r, w')
        /\ paired r)
  /\ (forall cep, exists r w',
        geocode_cep_robust md5_hexdigest cep geocoders w = (Ok r, w') /\ paired r).
Proof.
  assert (Hp : forall r, resolved r -> paired r).
  { intros r Hr. destruct Hr; exact I. }
  split; [| split].
  - intros address max_retries r w' E.
    pose proof (sat_run _ _ _ _ _
                  (geocode_with_retry_outcome md5_hexdigest address geocoders
                     max_retries w) E) as [_ Hr].
    auto.
  - intros a max_retries.
    destruct (geocode_with_retry_returns md5_hexdigest a geocoders max_retries w)
      as (r & w' & E & Hr & _).
    eauto.
  - intros cep.
    pose proof (geocode_cep_robust_outcome md5_hexdigest cep geocoders w) as H.
    unfold sat in H.
    destruct (geocode_cep_robust md5_hexdigest cep geocoders w) as [o w'].
    cbn in H. destruct H as (_ & r & -> & Hr). eauto.
Qed.

(** C10.  A cache hit is returned without looking at the box: a non-empty
    query whose key is cached with a coordinate outside the box gets that
    coordinate back with status "Cache".  Only what a provider has just
    answered is checked: every result with status "Sucesso" lies inside. *)
Theorem cache_hit_skips_validation (a : string) (geocoders : list geocoder)
    (max_retries : nat) (w : world) (lat lon : float) (name st : string) :
  a <> "" ->
  GEOCODING_CACHE w !! get_cache_key md5_hexdigest a = Some (lat, lon, name, st) ->
  in_bounds lat lon = false ->
  geocode_with_retry md5_hexdigest (CStr a) geocoders max_retries w
  = (Ok (Some lat, Some lon, name, "Cache"), w)
  /\ (forall address gs n w0 w1 la lo method,
        geocode_with_retry md5_hexdigest address gs n w0
        = (Ok (Some la, Some lo, method, "Sucesso"), w1) ->
        in_bounds la lo = true).
Proof.
  intros Ha He _. split.
  - exact (cache_hit md5_hexdigest a geocoders max_retries w _ Ha He).
  - intros address gs n w0 w1 la lo method E.
    pose proof (sat_run _ _ _ _ _
                  (geocode_with_retry_outcome md5_hexdigest address gs n w0) E)
      as [_ Hr].
    inversion Hr; subst; assumption.
Qed.


End Retry_claims.

(** The run of C2 on a concrete query: Vitória is found and is inside. *)
Lemma success_is_within_bounds_witness :
  exists la lo,
    Some vitoria.1 = Some la /\ Some vitoria.2 = Some lo
    /\ PrimFloat.leb (-22)%float la = true /\ PrimFloat.leb la (-17)%float = true
    /\ PrimFloat.leb (-42)%float lo = true /\ PrimFloat.leb lo (-38)%float = true.
Proof.
  apply (success_is_within_bounds plain_digest (CStr "Rua A") finds_vitoria 3
           plain_world
           (geocode_with_retry plain_digest (CStr "Rua A") finds_vitoria 3
              plain_world).2
           (Some vitoria.1) (Some vitoria.2) "Nominatim").
  vm_compute. reflexivity.
Defined.

(** C3 as it is stated fails on the empty query: its key is in the cache,
    and the function returns "Endereço vazio" / "Falhou" without a
    coordinate. *)
Lemma cached_empty_query_is_not_served :
  GEOCODING_CACHE odd_world !! get_cache_key plain_digest ""
  = Some (vitoria.1, vitoria.2, "Nominatim", "Sucesso")
  /\ geocode_with_retry plain_digest (CStr "") finds_vitoria 3 odd_world
     = (Ok (None, None, "Endereço vazio", "Falhou"), odd_world).
Proof. split; vm_compute; reflexivity. Qed.

Lemma cached_query_is_served_witness :
  geocode_with_retry plain_digest (CStr "RUA A") always_failing 3 odd_world
  = (Ok (Some sao_paulo.1, Some sao_paulo.2, "Photon", "Cache"), odd_world).
Proof.
  apply (cached_query_is_served plain_digest "RUA A" always_failing 3 odd_world
           sao_paulo.1 sao_paulo.2 "Photon" "Sucesso").
  - discriminate.
  - vm_compute. reflexivity.
Defined.

Lemma coordinates_come_in_pairs_witness :
  paired (Some vitoria.1, Some vitoria.2, "Nominatim", "Sucesso").
Proof.
  apply (proj1 (coordinates_come_in_pairs plain_digest finds_vitoria plain_world)
           (CStr "Rua A") 3%nat _
           (geocode_with_retry plain_digest (CStr "Rua A") finds_vitoria 3
              plain_world).2).
  vm_compute. reflexivity.
Defined.

Lemma cache_hit_skips_validation_witness :
  in_bounds sao_paulo.1 sao_paulo.2 = false
  /\ geocode_with_retry plain_digest (CStr "Rua A") finds_vitoria 3 odd_world
     = (Ok (Some sao_paulo.1, Some sao_paulo.2, "Photon", "Cache"), odd_world).
Proof.
  split; [vm_compute; reflexivity |].
  apply (cache_hit_skips_validation plain_digest "Rua A" finds_vitoria 3 odd_world
           sao_paulo.1 sao_paulo.2 "Photon" "Sucesso").
  - discriminate.
  - vm_compute. reflexivity.
  - vm_compute. reflexivity.
Defined.



(** ** When every provider fails *)

Section All_fail.

Variable md5_hexdigest : string -> string.

Lemma attempts_app (t1 t2 : list event) :
  attempts (t1 ++ t2) = attempts t1 ++ attempts t2.
Proof. apply omap_app. Qed.

Lemma adds_trans (w1 w2 w3 : world) (k1 k2 : nat) (l1 l2 : list (string * nat)) :
  adds w1 k1 l1 w2 -> adds w2 k2 l2 w3 -> adds w1 (k1 + k2) (l1 ++ l2) w3.
Proof.
  intros (H1 & H2 & H3) (K1 & K2 & K3). repeat split.
  - rewrite K1, H1. symmetry. apply app_assoc.
  - lia.
  - congruence.
Qed.

Lemma adds_eq (w w' : world) (k k' : nat) (l l' : list (string * nat)) :
  adds w k l w' -> k = k' -> l = l' -> adds w k' l' w'.
Proof. intros H <- <-. exact H. Qed.

Lemma backoff_adds (attempt max_retries : nat) (w : world)
    (Q : outcome unit -> world -> Prop) :
  (forall w', adds w 0 [] w' -> Q (Ok tt) w') ->
  sat (backoff attempt max_retries) w Q.
Proof.
  intros H. unfold backoff. wp; apply H; repeat split; cbn;
    rewrite ?attempts_app, ?app_nil_r; cbn; rewrite ?app_nil_r; auto.
Qed.

Lemma attempt_once_failing (name : string) (g : provider) (a key : string)
    (max_retries attempt : nat) (w : world) :
  always_retryable g ->
  sat (attempt_once name g a key max_retries attempt) w
      (fun o w' => o = Ok Continue /\ adds w 2 [(name, attempt)] w').
Proof.
  intros Hg. unfold attempt_once, custom_geocode.
  wp. apply sat_geocode.
  destruct (Hg (calls (with_event (EvAttempt name attempt) w)) a (Some 30%Z))
    as (e1 & -> & _).
  cbn beta iota. apply sat_geocode.
  match goal with
  | |- context [g ?k a None] => destruct (Hg k a None) as (e2 & -> & He2)
  end.
  cbn beta iota. rewrite He2. apply sat_bind, backoff_adds.
  intros w' Hw'. cbn beta iota. wp. split; [reflexivity |].
  change 2%nat with (2 + 0)%nat. change [(name, attempt)] with ([(name, attempt)] ++ []).
  eapply adds_trans; [| exact Hw'].
  repeat split; cbn; rewrite ?attempts_app; cbn; rewrite ?app_nil_r; auto; lia.
Qed.

Lemma attempts_loop_failing (name : string) (g : provider) (a key : string)
    (max_retries : nat) (l : list nat) (w : world) :
  always_retryable g ->
  sat (attempts_loop name g a key max_retries l) w
      (fun o w' =>
         o = Ok None
         /\ adds w (2 * length l) (map (fun k => (name, k)) l) w').
Proof.
  intros Hg. revert w. induction l as [| attempt rest IH]; intros w;
    cbn [attempts_loop].
  - wp. split; [reflexivity |]. repeat split; cbn; rewrite ?app_nil_r; auto; lia.
  - apply sat_bind. eapply sat_mono; [apply attempt_once_failing; exact Hg |].
    intros o w1 (-> & H1). cbn beta iota.
    eapply sat_mono; [apply IH |]. intros o w2 (-> & H2).
    split; [reflexivity |].
    eapply adds_eq; [exact (adds_trans _ _ _ _ _ _ _ H1 H2) | | reflexivity].
    cbn [length]. lia.
Qed.

Lemma geocoders_loop_failing (a key : string) (max_retries : nat)
    (geocoders : list geocoder) (w : world) :
  Forall (fun ng => always_retryable ng.2) geocoders ->
  sat (geocoders_loop a key max_retries geocoders) w
      (fun o w' =>
         o = Ok (None, None, "Múltiplos provedores", "Falhou")
         /\ adds w (2 * (length geocoders * max_retries))
                 (expected_attempts geocoders max_retries) w').
Proof.
  intros Hall. revert w.
  induction Hall as [| [name g] rest Hg Hrest IH]; intros w; cbn [geocoders_loop].
  - wp. split; [reflexivity |]. repeat split; cbn; rewrite ?app_nil_r; auto; lia.
  - apply sat_bind. eapply sat_mono; [apply attempts_loop_failing; exact Hg |].
    intros o w1 (-> & H1). cbn beta iota.
    eapply sat_mono; [apply IH |]. intros o w2 (-> & H2).
    split; [reflexivity |].
    rewrite length_seq in H1.
    eapply adds_eq; [exact (adds_trans _ _ _ _ _ _ _ H1 H2) | | reflexivity].
    cbn [length]. lia.
Qed.

Lemma length_expected_attempts (geocoders : list geocoder) (max_retries : nat) :
  length (expected_attempts geocoders max_retries)
  = (length geocoders * max_retries)%nat.
Proof.
  unfold expected_attempts. induction geocoders as [| ng rest IH]; cbn.
  - reflexivity.
  - rewrite length_app, length_map, length_seq, IH. reflexivity.
Qed.

(** C5.  For a non-empty query that is not cached, when every configured
    provider raises a retryable error on every call, [geocode_with_retry]
    makes exactly [max_retries] attempts on each provider, in the order of
    the configuration ([number of providers * max_retries] attempts in
    all), and returns no coordinate with method "Múltiplos provedores" and
    status "Falhou".  Every attempt costs two provider calls, because
    [custom_geocode] calls again without a timeout; the cache is unchanged. *)
Theorem all_providers_fail (a : string) (geocoders : list geocoder)
    (max_retries : nat) (w : world) :
  a <> "" ->
  GEOCODING_CACHE w !! get_cache_key md5_hexdigest a = None ->
  Forall (fun ng => always_retryable ng.2) geocoders ->
  exists w',
    geocode_with_retry md5_hexdigest (CStr a) geocoders max_retries w
    = (Ok (None, None, "Múltiplos provedores", "Falhou"), w')
    /\ attempts (trace w')
       = attempts (trace w) ++ expected_attempts geocoders max_retries
    /\ length (expected_attempts geocoders max_retries)
       = (length geocoders * max_retries)%nat
    /\ calls w' = (calls w + 2 * (length geocoders * max_retries))%nat
    /\ GEOCODING_CACHE w' = GEOCODING_CACHE w.
Proof.
  intros Ha Hmiss Hall.
  pose proof (geocoders_loop_failing a (get_cache_key md5_hexdigest a)
                max_retries geocoders w Hall) as H.
  unfold sat in H.
  unfold geocode_with_retry, falsy_or_na.
  destruct (decide (a = "")) as [Heq | _]; [contradiction |].
  rewrite bind_run. unfold read. cbn beta iota. rewrite Hmiss.
  destruct (geocoders_loop a (get_cache_key md5_hexdigest a) max_retries geocoders w)
    as [o w'].
  cbn in H. destruct H as (-> & H1 & H2 & H3).
  exists w'. split; [reflexivity |].
  split; [exact H1 |]. split; [apply length_expected_attempts |]. auto.
Qed.

End All_fail.

Lemma all_providers_fail_witness :
  exists w',
    geocode_with_retry plain_digest (CStr "Rua A") always_failing 3 plain_world
    = (Ok (None, None, "Múltiplos provedores", "Falhou"), w')
    /\ attempts (trace w')
       = attempts (trace plain_world) ++ expected_attempts always_failing 3
    /\ length (expected_attempts always_failing 3) = (length always_failing * 3)%nat
    /\ calls w' = (calls plain_world + 2 * (length always_failing * 3))%nat
    /\ GEOCODING_CACHE w' = GEOCODING_CACHE plain_world.
Proof.
  apply (all_providers_fail plain_digest "Rua A" always_failing 3 plain_world).
  - discriminate.
  - reflexivity.
  - repeat constructor; intros k q t; eexists; split; reflexivity.
Defined.

(** ** Batch controller *)

Lemma quiet_stats (w w' : world) (s : option stats) :
  quiet w w' -> quiet w (with_session (set_current_stats s (session_state w')) w').
Proof. exact (fun H => H). Qed.

Lemma quiet_index (w w' : world) (i : option nat) :
  quiet w w' -> quiet w (with_session (set_processed_index i (session_state w')) w').
Proof. exact (fun H => H). Qed.

#[local] Hint Resolve quiet_stats quiet_index : quiet.

Lemma quiet_stop_free (w w' : world) : quiet w w' -> stop_free w -> stop_free w'.
Proof.
  intros (H1 & _ & H3 & _) [Hs Hc]. split; [rewrite H1 | rewrite H3]; assumption.
Qed.

Lemma quiet_checkpointed (w0 w w' : world) (l : list (nat * nat)) :
  checkpointed w0 l w -> quiet w w' -> checkpointed w0 l w'.
Proof.
  intros [Hc Hr] (_ & H2 & _ & H4). split; [congruence |].
  unfold retained in *. rewrite H2. exact Hr.
Qed.

Lemma checkpointed_refl (w : world) : checkpointed w [] w.
Proof. split; [symmetry; apply app_nil_r | reflexivity]. Qed.

Lemma checkpointed_trans (w1 w2 w3 : world) (l1 l2 : list (nat * nat)) :
  checkpointed w1 l1 w2 -> checkpointed w2 l2 w3 -> checkpointed w1 (l1 ++ l2) w3.
Proof.
  intros [H1 R1] [H2 R2]. split.
  - rewrite H2, H1. symmetry. apply app_assoc.
  - rewrite R2, R1, last_app. destruct (last l2); reflexivity.
Qed.

Lemma checkpointed_nil_l (w1 w2 w3 : world) (l : list (nat * nat)) :
  checkpointed w1 [] w2 -> checkpointed w2 l w3 -> checkpointed w1 l w3.
Proof. intros H1 H2. exact (checkpointed_trans _ _ _ _ _ H1 H2). Qed.

Lemma checkpointed_nil_r (w1 w2 w3 : world) (l : list (nat * nat)) :
  checkpointed w1 l w2 -> checkpointed w2 [] w3 -> checkpointed w1 l w3.
Proof.
  intros H1 H2. rewrite <- (app_nil_r l). exact (checkpointed_trans _ _ _ _ _ H1 H2).
Qed.

Lemma checkpointed_event (w : world) (ev : event) :
  is_checkpoint ev = false -> checkpointed w [] (with_event ev w).
Proof.
  intros H. split; cbn; [rewrite checkpoints_snoc, app_nil_r; auto | reflexivity].
Qed.

Section Batch_facts.

Variable md5_hexdigest : string -> string.

Lemma resolve_by_cep_quiet (i : nat) (cep_value : cell) (geocoders : list geocoder)
    (w0 w : world) :
  quiet w0 w ->
  sat (resolve_by_cep md5_hexdigest i cep_value geocoders) w
      (fun _ w' => quiet w0 w').
Proof.
  intros H0. unfold resolve_by_cep, assign, update_row, update_locals.
  apply sat_bind. eapply sat_mono; [apply geocode_cep_robust_outcome |].
  intros o w1 (Hq & r & -> & _). cbn beta iota.
  assert (H1 : quiet w0 w1) by (eapply quiet_trans; eassumption).
  destruct r as [[[[lat |] lon] method] st]; wp; auto 10 with quiet.
Qed.

Lemma cep_fallback_quiet (i : nat) (r : row) (geocoders : list geocoder)
    (w0 w : world) :
  quiet w0 w ->
  sat (cep_fallback md5_hexdigest i r geocoders) w (fun _ w' => quiet w0 w').
Proof.
  intros H0. unfold cep_fallback, update_row, update_locals.
  wp; [auto 10 with quiet | apply resolve_by_cep_quiet; assumption].
Qed.

Lemma resolve_record_quiet (i : nat) (r : row) (geocoders : list geocoder)
    (w0 w : world) :
  quiet w0 w ->
  sat (resolve_record md5_hexdigest i r geocoders) w (fun _ w' => quiet w0 w').
Proof.
  intros H0. unfold resolve_record, geocode_address_robust, assign, update_row,
    update_locals.
  cbn zeta. wp; try assumption; try (apply cep_fallback_quiet; assumption).
  all: eapply sat_mono; [apply geocode_with_retry_outcome |].
  all: intros o w1 [Hq Ho]; assert (H1 : quiet w0 w1)
         by (eapply quiet_trans; eassumption).
  all: destruct o as [res | e |]; cbn beta iota; [| wp; auto 10 with quiet | assumption].
  all: destruct res as [[[[lat |] lon] method] st]; wp; auto 10 with quiet.
  all: eapply sat_mono; [apply cep_fallback_quiet; eauto 10 with quiet |].
  all: intros o w2 H2; destruct o; cbn beta iota; wp; auto 10 with quiet.
Qed.

End Batch_facts.

(** ** Control commands and checkpoints *)

Lemma deliver_checkpointed (w : world) : checkpointed w [] (deliver w).
Proof.
  unfold deliver.
  destruct (controller w) as [| [s |] rest];
    (split; cbn; [rewrite app_nil_r; reflexivity | reflexivity]).
Qed.

Lemma deliver_stop_free (w : world) : stop_free w -> stop_free (deliver w).
Proof.
  intros [Hs Hc]. unfold deliver, stop_free in *.
  destruct (controller w) as [| [s |] rest] eqn:E; cbn.
  - rewrite E. split; assumption.
  - split; [| set_solver]. intros [= ->]. set_solver.
  - split; [assumption | set_solver].
Qed.

Lemma poll_while_paused_calm (pending : list (option pstate)) (w : world) :
  checkpointed w [] (poll_while_paused pending w).2
  /\ (stop_free w -> stop_free (poll_while_paused pending w).2)
  /\ forall e, (poll_while_paused pending w).1 <> Raise e.
Proof.
  revert w. induction pending as [| c rest IH]; intros w; cbn [poll_while_paused].
  - destruct (processing_state (session_state w)) as [[] |]; cbn;
      (split; [apply checkpointed_refl | split; [auto | discriminate]]).
  - pose proof (deliver_checkpointed w) as Hd.
    pose proof (deliver_stop_free w) as Hs.
    destruct (processing_state (session_state (deliver w))) as [[] |] eqn:E; cbn;
      try (split; [exact Hd | split; [exact Hs | discriminate]]).
    destruct (IH (with_event (EvSleep 0.1) (deliver w))) as (H1 & H2 & H3).
    split; [| split; [| exact H3]].
    + eapply checkpointed_nil_l; [exact Hd |].
      eapply checkpointed_nil_l; [| exact H1].
      apply checkpointed_event. reflexivity.
    + intros Hw. apply H2. exact (Hs Hw).
Qed.

Lemma sat_observe_state (w : world) (Q : outcome (option pstate) -> world -> Prop) :
  Q (Ok (processing_state (session_state (deliver w)))) (deliver w) ->
  sat observe_state w Q.
Proof. exact (fun H => H). Qed.

Lemma sat_while_paused (w : world) (Q : outcome unit -> world -> Prop) :
  (forall o w',
      poll_while_paused (controller w) w = (o, w') -> Q o w') ->
  sat while_paused w Q.
Proof.
  intros H. unfold sat, while_paused.
  destruct (poll_while_paused (controller w) w) as [o w'] eqn:E. exact (H o w' eq_refl).
Qed.

Lemma control_check_calm (w : world) :
  sat control_check w
      (fun o w' =>
         checkpointed w [] w'
         /\ (stop_free w -> stop_free w' /\ o <> Ok Break)
         /\ forall e, o <> Raise e).
Proof.
  unfold control_check.
  apply sat_bind, sat_observe_state. cbn beta iota.
  pose proof (deliver_checkpointed w) as Hd.
  pose proof (deliver_stop_free w) as Hs.
  destruct (processing_state (session_state (deliver w))) as [[] |] eqn:E;
    cbn [default from_option id];
    try (wp; split; [exact Hd | split; [intros Hw; split; [auto | discriminate]
                                      | discriminate]]).
  - (* paused *)
    apply sat_bind, sat_while_paused. intros o w1 Ep.
    destruct (poll_while_paused_calm (controller (deliver w)) (deliver w))
      as (H1 & H2 & H3).
    rewrite Ep in H1, H2, H3. cbn [fst snd] in *.
    destruct o as [[] | e |]; cbn beta iota.
    + apply sat_bind, sat_observe_state. cbn beta iota.
      pose proof (deliver_checkpointed w1) as Hd1.
      pose proof (deliver_stop_free w1) as Hs1.
      assert (Hc : checkpointed w [] (deliver w1)).
      { eapply checkpointed_nil_l; [exact Hd |].
        eapply checkpointed_nil_l; [exact H1 | exact Hd1]. }
      destruct (decide (processing_state (session_state (deliver w1)) = Some STOPPED))
        as [Hst | Hst]; wp.
      * split; [exact Hc | split; [| discriminate]].
        intros Hw. exfalso. destruct (Hs1 (H2 (Hs Hw))) as [Hne _]. exact (Hne Hst).
      * split; [exact Hc | split; [| discriminate]].
        intros Hw. split; [auto | discriminate].
    + exfalso. exact (H3 e eq_refl).
    + split; [| split; [| discriminate]].
      * eapply checkpointed_nil_l; [exact Hd | exact H1].
      * intros Hw. split; [auto | discriminate].
  - (* stopped *)
    wp. split; [exact Hd | split; [| discriminate]].
    intros Hw. exfalso. destruct (Hs Hw) as [Hne _]. exact (Hne E).
Qed.

Lemma checkpoint_step_spec (total i : nat) (w : world) :
  sat (checkpoint_step total i) w
      (fun o w' =>
         o = Ok tt /\ checkpointed w (tick total i) w'
         /\ (stop_free w -> stop_free w')).
Proof.
  unfold checkpoint_step, tick, save_partial_progress, update_session.
  destruct (decide ((i + 1) `mod` 25 = 0)%nat); wp.
  - split; [reflexivity |]. split; [| auto].
    split; cbn; [rewrite checkpoints_app; reflexivity | reflexivity].
  - split; [reflexivity |]. split; [apply checkpointed_refl | auto].
Qed.

Lemma after_record_quiet (total i : nat) (w0 w : world) :
  quiet w0 w ->
  sat (after_record total i) w (fun o w' => quiet w0 w' /\ o <> Ok Break).
Proof.
  intros H0. unfold after_record, update_session.
  wp; (split; [auto 10 with quiet | discriminate]).
Qed.

Lemma quiet_checkpointed_nil (w w' : world) : quiet w w' -> checkpointed w [] w'.
Proof. intros H. exact (quiet_checkpointed w w w' [] (checkpointed_refl w) H). Qed.

Section Loop_facts.

Variable md5_hexdigest : string -> string.

Lemma cadence_S (total start k : nat) :
  cadence total start (S k) = tick total start ++ cadence total (S start) k.
Proof. reflexivity. Qed.

(** The body of the loop after the row is read: the checkpoint of the
    position of the record, if there is one, is the only one taken. *)
Lemma loop_body_checkpoints (geocoders : list geocoder) (total i : nat)
    (r : row) (w0 w : world) :
  checkpointed w0 [] w ->
  (stop_free w0 -> stop_free w) ->
  sat (checkpoint_step total i;;
       resolve_record md5_hexdigest i r geocoders;;
       after_record total i) w
      (fun o w' =>
         (stop_free w0 -> stop_free w' /\ o <> Ok Break)
         /\ o <> Ok Break /\ checkpointed w0 (tick total i) w').
Proof.
  intros Hc Hs. apply sat_bind.
  eapply sat_mono; [apply checkpoint_step_spec |].
  intros o2 w2 (-> & Hk & Hs2). cbn beta iota.
  assert (Hck : forall w', quiet w2 w' -> checkpointed w0 (tick total i) w').
  { intros w' Hq. eapply checkpointed_nil_l; [exact Hc |].
    eapply quiet_checkpointed; eassumption. }
  assert (Hfree : forall w', quiet w2 w' -> stop_free w0 -> stop_free w').
  { intros w' Hq Hw. eapply quiet_stop_free; [exact Hq |]. auto. }
  apply sat_bind.
  eapply sat_mono; [apply (resolve_record_quiet _ _ _ _ w2 w2); apply quiet_refl |].
  intros o3 w3 H3. destruct o3 as [[] | e |]; cbn beta iota.
  - eapply sat_mono; [apply (after_record_quiet _ _ w2 w3); exact H3 |].
    intros o4 w4 [H4 Hne]. split; [| split; [exact Hne | auto]].
    intros Hw. split; [eauto | exact Hne].
  - split; [| split; [discriminate | auto]].
    intros Hw. split; [eauto | discriminate].
  - split; [| split; [discriminate | auto]].
    intros Hw. split; [eauto | discriminate].
Qed.

(** One pass of the loop: when it goes on to the record it takes the
    checkpoint of the position of the record, if there is one, before it
    resolves the record; when it does not, it takes none. *)
Lemma iteration_reaches (geocoders : list geocoder) (total i : nat) (w : world) :
  sat (iteration md5_hexdigest geocoders total i) w
      (fun o w' =>
         (stop_free w -> stop_free w' /\ o <> Ok Break)
         /\ if reaches_record i w
            then o <> Ok Break /\ checkpointed w (tick total i) w'
            else (forall f, o = Ok f -> f = Break) /\ checkpointed w [] w').
Proof.
  pose proof (control_check_calm w) as Hcc.
  unfold sat in *. unfold iteration, reaches_record. rewrite bind_run.
  destruct (control_check w) as [o w1]. cbn [fst snd] in Hcc.
  destruct Hcc as (Hc & Hs & Hr).
  set (body := (df ← read frame;
                r ← (match rows df !! i with
                     | Some r => mret r
                     | None => raise IndexError
                     end);
                checkpoint_step total i;;
                resolve_record md5_hexdigest i r geocoders;;
                after_record total i)).
  assert (Ebody : body w1
                  = match rows (frame w1) !! i with
                    | Some r =>
                        (checkpoint_step total i;;
                         resolve_record md5_hexdigest i r geocoders;;
                         after_record total i) w1
                    | None => (Raise IndexError, w1)
                    end).
  { unfold body. rewrite bind_run. unfold read. cbn beta iota.
    rewrite bind_run. destruct (rows (frame w1) !! i); reflexivity. }
  assert (Hgo :
    (stop_free w -> stop_free (body w1).2 /\ (body w1).1 <> Ok Break)
    /\ if bool_decide (is_Some (rows (frame w1) !! i))
       then (body w1).1 <> Ok Break /\ checkpointed w (tick total i) (body w1).2
       else (forall f, (body w1).1 = Ok f -> f = Break)
            /\ checkpointed w [] (body w1).2).
  { rewrite Ebody.
    destruct (rows (frame w1) !! i) as [r |] eqn:Hrow.
    - rewrite bool_decide_eq_true_2 by eauto.
      pose proof (loop_body_checkpoints geocoders total i r w w1 Hc
                    (fun Hw => proj1 (Hs Hw))) as Hb.
      unfold sat in Hb. destruct Hb as (H1 & H2 & H3). auto.
    - rewrite bool_decide_eq_false_2 by (intros [? ?]; discriminate).
      cbn [fst snd]. split; [| split; [discriminate | exact Hc]].
      intros Hw. split; [apply Hs; exact Hw | discriminate]. }
  destruct o as [[| | []] | e |]; cbn beta iota.
  - exact Hgo.
  - cbn [fst snd]. split; [| split; [intros f [= <-]; reflexivity | exact Hc]].
    intros Hw. exfalso. destruct (Hs Hw) as [_ Hne]. exact (Hne eq_refl).
  - exact Hgo.
  - exfalso. exact (Hr e eq_refl).
  - cbn [fst snd]. split; [| split; [discriminate | exact Hc]].
    intros Hw. split; [apply Hs; exact Hw | discriminate].
Qed.

(** The loop takes the checkpoints of the records it goes on to, and no
    other; it reaches the end of the range exactly when it is not left by
    [break]. *)
Lemma records_loop_reaches (geocoders : list geocoder) (total n : nat) :
  forall start w,
    sat (records_loop md5_hexdigest geocoders total (seq start n)) w
        (fun o w' =>
           let k := records_reached md5_hexdigest geocoders total (seq start n) w in
           (k <= n)%nat
           /\ checkpointed w (cadence total start k) w'
           /\ (forall f, o = Ok f -> f <> Break -> k = n)
           /\ (stop_free w -> stop_free w' /\ o <> Ok Break)).
Proof.
  induction n as [| n IH]; intros start w; cbn [seq records_loop records_reached].
  - wp. cbn zeta. split; [lia |]. split; [apply checkpointed_refl |].
    split; [reflexivity |]. intros Hw. split; [exact Hw | discriminate].
  - pose proof (iteration_reaches geocoders total start w) as Hit.
    unfold sat in *. rewrite bind_run.
    destruct (iteration md5_hexdigest geocoders total start w) as [o w1].
    cbn [fst snd] in Hit. destruct Hit as [Hs Hcase].
    specialize (IH (S start) w1). cbn zeta in IH.
    destruct (reaches_record start w).
    + destruct Hcase as [Hne Hc].
      assert (Hone : checkpointed w (cadence total start 1) w1).
      { rewrite cadence_S. cbn. rewrite app_nil_r. exact Hc. }
      destruct o as [[| | []] | e |]; cbn beta iota zeta; cbn [fst snd].
      * destruct IH as (Hk & Hc2 & Hend & Hs2).
        split; [lia |]. split.
        { rewrite cadence_S. eapply checkpointed_trans; eassumption. }
        split.
        { intros f Hf Hnb. f_equal. eapply Hend; eassumption. }
        intros Hw. destruct (Hs Hw) as [Hw1 _]. exact (Hs2 Hw1).
      * exfalso. exact (Hne eq_refl).
      * destruct IH as (Hk & Hc2 & Hend & Hs2).
        split; [lia |]. split.
        { rewrite cadence_S. eapply checkpointed_trans; eassumption. }
        split.
        { intros f Hf Hnb. f_equal. eapply Hend; eassumption. }
        intros Hw. destruct (Hs Hw) as [Hw1 _]. exact (Hs2 Hw1).
      * split; [lia |]. split; [exact Hone |]. split; [discriminate |].
        intros Hw. split; [apply Hs; exact Hw | discriminate].
      * split; [lia |]. split; [exact Hone |]. split; [discriminate |].
        intros Hw. split; [apply Hs; exact Hw | discriminate].
    + destruct Hcase as [Hb Hc].
      destruct o as [[| | []] | e |]; cbn beta iota zeta; cbn [fst snd];
        try (discriminate (Hb _ eq_refl)).
      * split; [lia |]. split; [exact Hc |].
        split; [intros f [= <-] Hnb; exfalso; exact (Hnb eq_refl) |].
        exact Hs.
      * split; [lia |]. split; [exact Hc |]. split; [discriminate |].
        intros Hw. split; [apply Hs; exact Hw | discriminate].
      * split; [lia |]. split; [exact Hc |]. split; [discriminate |].
        intros Hw. split; [apply Hs; exact Hw | discriminate].
Qed.

End Loop_facts.

(** ** The whole run *)

(** Before the loop nothing is checkpointed and no click is consumed; the
    loop starts in state [RUNNING] at the index kept in the session. *)
Lemma prepare_spec (w : world) :
  sat prepare w
      (fun o w' =>
         checkpointed w [] w'
         /\ controller w' = controller w
         /\ match o with
            | Ok p =>
                p.1 = default 0%nat (processed_index (session_state w))
                /\ p.2 = length (rows (frame w))
                /\ processing_state (session_state w') = Some RUNNING
            | Raise _ => True
            | Diverge => False
            end).
Proof.
  destruct w as [cache file [ps pidx pr cs] ctl df loc n t].
  unfold prepare, update_session, load_cache.
  destruct ps as [ps |], pidx as [[| i] |], file as [| | m].
  all: repeat (wp_step; cbn); try congruence.
  all: rewrite ?length_map.
  all: split; [split; cbn; [rewrite app_nil_r; reflexivity | reflexivity] |].
  all: split; [reflexivity | auto].
Qed.

Lemma finish_spec (total : nat) (w : world) :
  sat (finish total) w
      (fun o w' => checkpointed w [] w' /\ exists df, o = Ok df).
Proof.
  unfold finish, update_session, save_cache. wp.
  split; [| eauto].
  split; cbn; [rewrite !checkpoints_snoc, app_nil_r; reflexivity | reflexivity].
Qed.

(** ** Claims about the batch run *)



(** The records reached by three runs over the same table: all sixty when
    nobody interrupts, two when the run is paused and then stopped before
    its third record, none when the stop comes first. *)
Lemma records_reached_by_sample_runs :
  run_reached plain_digest finds_vitoria
    (start_world ∅ (uniform_table 60) []) = 60%nat
  /\ run_reached plain_digest finds_vitoria
       (start_world ∅ (uniform_table 60)
          [None; None; Some PAUSED; None; Some STOPPED]) = 2%nat
  /\ run_reached plain_digest finds_vitoria
       (start_world ∅ (uniform_table 60) [Some STOPPED]) = 0%nat.
Proof. repeat split; vm_compute; reflexivity. Qed.


(** C1 fails on the code.  A run stopped at the top of an iteration and a
    run stopped while paused both end with the state [COMPLETED] and with
    [processed_index] at the size of the table, although the second and the
    third record were never looked at. *)
Theorem stopped_run_is_reported_completed :
  let stopped := geocode_batch_with_control plain_digest finds_vitoria
                   (start_world ∅ (uniform_table 3) [None; Some STOPPED]) in
  let stopped_in_pause :=
    geocode_batch_with_control plain_digest finds_vitoria
      (start_world ∅ (uniform_table 3) [None; Some PAUSED; None; Some STOPPED]) in
  (processing_state (session_state stopped.2) = Some COMPLETED
   /\ processed_index (session_state stopped.2) = Some 3%nat
   /\ geocoding_status <$> rows (frame stopped.2) = [Some "Sucesso"; None; None])
  /\ (processing_state (session_state stopped_in_pause.2) = Some COMPLETED
      /\ processed_index (session_state stopped_in_pause.2) = Some 3%nat
      /\ geocoding_status <$> rows (frame stopped_in_pause.2)
         = [Some "Sucesso"; None; None]).
Proof.
  cbn zeta.
  split; (split; [vm_compute; reflexivity |]);
    (split; [vm_compute; reflexivity | vm_compute; reflexivity]).
Qed.

(** C4 fails on the code at the first record.  Its address is a bytes
    object, so [get_cache_key] raises inside the [try]; the handler records
    "Erro" and counts the error, and then the rate limit reads [status],
    which no earlier iteration has bound: the run ends with
    [UnboundLocalError] and the second record is never processed. *)
Theorem error_at_first_record_aborts_run :
  let run := geocode_batch_with_control plain_digest finds_vitoria
               (start_world ∅ (table ["endereco_completo"]
                                 [[CBytes "Rua A"]; [CStr "Rua B"]]) []) in
  run.1 = Raise UnboundLocalError
  /\ geocoding_status <$> rows (frame run.2) = [Some "Erro"; None]
  /\ error_count (batch_locals run.2) = 1%Z
  /\ processing_state (session_state run.2) = Some RUNNING.
Proof.
  cbn zeta. split; [vm_compute; reflexivity |].
  split; [vm_compute; reflexivity |].
  split; [vm_compute; reflexivity | vm_compute; reflexivity].
Qed.

(** C8 fails on the code.  A record without address in a table without a
    postal-code column stops the run with [TypeError], raised by the log
    line that slices the address; the record gets no classification. *)
Theorem record_without_address_aborts_run :
  let run := geocode_batch_with_control plain_digest finds_vitoria
               (start_world ∅ (table ["endereco_completo"; "V12"]
                                 [[CNull; CStr "3205309"]]) []) in
  cep_columns (frame run.2) = []
  /\ run.1 = Raise TypeError
  /\ (fun r => (geocoding_method r, geocoding_status r)) <$> rows (frame run.2)
     = [(None, None)]
  /\ calls run.2 = 0%nat.
Proof.
  cbn zeta. split; [vm_compute; reflexivity |].
  split; [vm_compute; reflexivity |].
  split; [vm_compute; reflexivity | vm_compute; reflexivity].
Qed.

(** A record whose resolution raises is contained when an earlier record
    has already bound [status]: with nothing clicked, the iteration writes
    "Erro" into the record, counts one more error, calls no provider, and
    the loop goes on. *)
Theorem later_error_is_contained (md5_hexdigest : string -> string)
    (geocoders : list geocoder) (total i : nat) (w : world) (r : row)
    (b s : string) :
  controller w = [] ->
  processing_state (session_state w) = Some RUNNING ->
  rows (frame w) !! i = Some r ->
  lookup_column "endereco_completo" (columns (frame w)) (cells r) = Some (CBytes b) ->
  b <> "" ->
  status (batch_locals w) = Some s ->
  exists w',
    iteration md5_hexdigest geocoders total i w = (Ok Continue, w')
    /\ rows (frame w') !! i = Some (put_failure "Erro" "Erro" r)
    /\ error_count (batch_locals w') = (error_count (batch_locals w) + 1)%Z
    /\ calls w' = calls w.
Proof.
  intros Hctl Hrun Hrow Haddr Hb Hst.
  enough (H : sat (iteration md5_hexdigest geocoders total i) w
                (fun o w' =>
                   o = Ok Continue
                   /\ rows (frame w') !! i = Some (put_failure "Erro" "Erro" r)
                   /\ error_count (batch_locals w')
                      = (error_count (batch_locals w) + 1)%Z
                   /\ calls w' = calls w)).
  { unfold sat in H.
    destruct (iteration md5_hexdigest geocoders total i w) as [o w'].
    cbn in H. destruct H as (-> & H). eauto. }
  unfold iteration, control_check.
  apply sat_bind, sat_bind, sat_observe_state.
  assert (Hd : deliver w = w) by (unfold deliver; rewrite Hctl; reflexivity).
  rewrite Hd, Hrun. cbn [default from_option id].
  assert (Hrest : forall w1,
            frame w1 = frame w -> batch_locals w1 = batch_locals w ->
            calls w1 = calls w ->
            sat (resolve_record md5_hexdigest i r geocoders;;
                 after_record total i) w1
                (fun o w' =>
                   o = Ok Continue
                   /\ rows (frame w') !! i = Some (put_failure "Erro" "Erro" r)
                   /\ error_count (batch_locals w')
                      = (error_count (batch_locals w) + 1)%Z
                   /\ calls w' = calls w)).
  { intros w1 Hf Hl Hc.
    unfold resolve_record, geocode_address_robust, geocode_with_retry,
      after_record, update_row, update_locals, update_session.
    assert (Hfa : falsy_or_na (CBytes b) = false).
    { cbn. destruct (decide (b = "")); [contradiction | reflexivity]. }
    cbn zeta. do 3 wp_step. rewrite Hf, Haddr.
    change (subscriptable (CBytes b)) with true.
    change (pd_notna (CBytes b)) with true. cbn beta iota.
    do 5 wp_step. rewrite Hfa. wp.
    all: cbn [batch_locals frame calls with_locals with_frame with_event
              with_session incr_error error_count status rows] in *.
    all: rewrite ?Hl, ?Hf, ?Hc, ?list_lookup_alter, ?Hrow in *; cbn in *.
    all: try congruence.
    all: destruct (decide (i = i)); [auto | contradiction]. }
  wp; [| congruence].
  assert (r0 = r) as -> by congruence.
  assert (Hstep : sat (checkpoint_step total i) w
                     (fun o w1 => o = Ok tt /\ frame w1 = frame w
                                  /\ batch_locals w1 = batch_locals w
                                  /\ calls w1 = calls w)).
  { unfold checkpoint_step, save_partial_progress, update_session.
    destruct (decide ((i + 1) `mod` 25 = 0)%nat); wp; auto. }
  eapply sat_mono; [exact Hstep |].
  intros o w1 (-> & Hf & Hl & Hc). cbn beta iota. exact (Hrest w1 Hf Hl Hc).
Qed.

Lemma later_error_is_contained_witness :
  exists w',
    iteration plain_digest finds_vitoria 2 1
      (with_locals (bind_status "Sucesso" fresh_locals)
         (with_session (set_processing_state (Some RUNNING) no_session)
            (start_world ∅ (add_result_columns
                              (table ["endereco_completo"]
                                 [[CStr "Rua B"]; [CBytes "Rua A"]])) [])))
    = (Ok Continue, w')
    /\ geocoding_status <$> rows (frame w') !! 1%nat = Some (Some "Erro").
Proof.
  destruct (later_error_is_contained plain_digest finds_vitoria 2 1
              (with_locals (bind_status "Sucesso" fresh_locals)
                 (with_session (set_processing_state (Some RUNNING) no_session)
                    (start_world ∅ (add_result_columns
                                      (table ["endereco_completo"]
                                         [[CStr "Rua B"]; [CBytes "Rua A"]])) [])))
              (input_row [CBytes "Rua A"]) "Rua A" "Sucesso")
    as (w' & E & Hr & _); try reflexivity; try discriminate.
  exists w'. split; [exact E |]. rewrite Hr. reflexivity.
Defined.


(** * Further properties *)

(** ** The cache is written on success and only then *)

Lemma cache_kept_refl (w : world) : cache_kept w w.
Proof. split; reflexivity. Qed.

Lemma cache_kept_trans (w1 w2 w3 : world) :
  cache_kept w1 w2 -> cache_kept w2 w3 -> cache_kept w1 w3.
Proof. intros [H1 H2] [K1 K2]. split; congruence. Qed.

Lemma cache_kept_event (w w' : world) (ev : event) :
  cache_kept w w' -> cache_kept w (with_event ev w').
Proof. exact (fun H => H). Qed.

Lemma cache_kept_call (w w' : world) (ev : event) :
  cache_kept w w' -> cache_kept w (with_call ev w').
Proof. exact (fun H => H). Qed.

Lemma cache_kept_put (key : string) (e : cache_entry) (w1 w2 w3 : world) :
  cache_kept w1 w2 -> cache_put key e w2 w3 -> cache_put key e w1 w3.
Proof. intros [H1 H2] [K1 K2]. split; congruence. Qed.

Create HintDb cache.
#[local] Hint Resolve cache_kept_refl cache_kept_event cache_kept_call : cache.

Section Cache_effect.

Variable md5_hexdigest : string -> string.

Lemma backoff_cache_kept (attempt max_retries : nat) (w0 w : world)
    (Q : outcome unit -> world -> Prop) :
  cache_kept w0 w ->
  (forall w', cache_kept w0 w' -> Q (Ok tt) w') ->
  sat (backoff attempt max_retries) w Q.
Proof.
  intros H0 H. unfold backoff. wp; apply H; auto with cache.
Qed.

Lemma attempt_once_cache (name : string) (g : provider) (a key : string)
    (max_retries attempt : nat) (w : world) :
  sat (attempt_once name g a key max_retries attempt) w
      (fun o w' =>
         match o with
         | Ok (Return r) =>
             exists lat lon, r = (Some lat, Some lon, name, "Sucesso")
               /\ cache_put key (lat, lon, name, "Sucesso") w w'
         | _ => cache_kept w w'
         end).
Proof.
  unfold attempt_once, custom_geocode, save_cache.
  wp. apply sat_geocode.
  destruct (g _ a (Some 30%Z)) as [lat lon | | e1]; cbn beta iota.
  - wp; [| auto with cache]. exists lat, lon. split; [reflexivity |].
    split; reflexivity.
  - apply sat_bind, (backoff_cache_kept _ _ w); [auto with cache |].
    intros w' Hw'. wp. exact Hw'.
  - apply sat_geocode.
    destruct (g _ a None) as [lat lon | | e2]; cbn beta iota.
    + wp; [| auto with cache]. exists lat, lon. split; [reflexivity |].
      split; reflexivity.
    + apply sat_bind, (backoff_cache_kept _ _ w); [auto with cache |].
      intros w' Hw'. wp. exact Hw'.
    + wp; [| auto with cache].
      apply (backoff_cache_kept _ _ w); [auto with cache |].
      intros w' Hw'. wp. exact Hw'.
Qed.

Lemma attempts_loop_cache (name : string) (g : provider) (a key : string)
    (max_retries : nat) (l : list nat) (w : world) :
  sat (attempts_loop name g a key max_retries l) w
      (fun o w' =>
         match o with
         | Ok (Some r) =>
             exists lat lon, r = (Some lat, Some lon, name, "Sucesso")
               /\ cache_put key (lat, lon, name, "Sucesso") w w'
         | _ => cache_kept w w'
         end).
Proof.
  revert w. induction l as [| attempt rest IH]; intros w; cbn [attempts_loop].
  - wp. apply cache_kept_refl.
  - apply sat_bind. eapply sat_mono; [apply attempt_once_cache |].
    intros o w1 H1. destruct o as [[| | r] | e |]; cbn beta iota; try exact H1.
    eapply sat_mono; [apply IH |]. intros o2 w2 H2.
    destruct o2 as [[r |] | e |].
    + destruct H2 as (lat & lon & -> & H2). exists lat, lon.
      split; [reflexivity | eapply cache_kept_put; eassumption].
    + eapply cache_kept_trans; eassumption.
    + eapply cache_kept_trans; eassumption.
    + eapply cache_kept_trans; eassumption.
Qed.

Lemma geocoders_loop_cache (a key : string) (max_retries : nat)
    (geocoders : list geocoder) (w : world) :
  sat (geocoders_loop a key max_retries geocoders) w
      (fun o w' =>
         match o with
         | Ok (lat, lon, name, st) =>
             if decide (st = "Sucesso")
             then exists la lo, lat = Some la /\ lon = Some lo
                    /\ cache_put key (la, lo, name, "Sucesso") w w'
             else cache_kept w w'
         | _ => cache_kept w w'
         end).
Proof.
  revert w. induction geocoders as [| [name g] rest IH]; intros w;
    cbn [geocoders_loop].
  - wp. apply cache_kept_refl.
  - apply sat_bind. eapply sat_mono; [apply attempts_loop_cache |].
    intros o w1 H1. destruct o as [[r |] | e |]; cbn beta iota; try exact H1.
    + wp. destruct H1 as (lat & lon & -> & H1).
      destruct (decide ("Sucesso" = "Sucesso")); [eauto 10 | contradiction].
    + eapply sat_mono; [apply IH |]. intros o2 w2 H2.
      destruct o2 as [[[[lat lon] nm] st] | e |].
      * destruct (decide (st = "Sucesso")).
        -- destruct H2 as (la & lo & -> & -> & H2). exists la, lo.
           split; [reflexivity |]. split; [reflexivity |].
           eapply cache_kept_put; eassumption.
        -- eapply cache_kept_trans; eassumption.
      * eapply cache_kept_trans; eassumption.
      * eapply cache_kept_trans; eassumption.
Qed.

Lemma geocode_with_retry_cache (address : cell) (geocoders : list geocoder)
    (max_retries : nat) (w : world) :
  sat (geocode_with_retry md5_hexdigest address geocoders max_retries) w
      (fun o w' =>
         match o with
         | Ok (lat, lon, name, st) =>
             if decide (st = "Sucesso")
             then exists a la lo,
                    address = CStr a /\ lat = Some la /\ lon = Some lo
                    /\ cache_put (get_cache_key md5_hexdigest a)
                         (la, lo, name, "Sucesso") w w'
             else cache_kept w w'
         | _ => cache_kept w w'
         end).
Proof.
  unfold geocode_with_retry.
  destruct (falsy_or_na address) eqn:Hguard.
  - wp. destruct (decide _); [discriminate | apply cache_kept_refl].
  - destruct address as [| a | z | b]; wp; try apply cache_kept_refl.
    eapply sat_mono; [apply geocoders_loop_cache |].
    intros o w' H. destruct o as [[[[lat lon] nm] st] | e |]; try exact H.
    destruct (decide (st = "Sucesso")); [| exact H].
    destruct H as (la & lo & -> & -> & H). exists a, la, lo. auto.
Qed.

(** Every success is written through: the coordinate is stored in the
    cache under the key of the query, with the name of the provider, and
    the whole cache is saved to its file before the function returns. *)
Theorem success_is_written_through (a : string) (geocoders : list geocoder)
    (max_retries : nat) (w w' : world) (lat lon : option float) (name : string) :
  geocode_with_retry md5_hexdigest (CStr a) geocoders max_retries w
  = (Ok (lat, lon, name, "Sucesso"), w') ->
  exists la lo,
    lat = Some la /\ lon = Some lo
    /\ GEOCODING_CACHE w'
       = <[get_cache_key md5_hexdigest a := (la, lo, name, "Sucesso")]>
           (GEOCODING_CACHE w)
    /\ CACHE_FILE w' = Pickled (GEOCODING_CACHE w').
Proof.
  intros E.
  pose proof (sat_run _ _ _ _ _
                (geocode_with_retry_cache (CStr a) geocoders max_retries w) E) as H.
  cbn beta iota in H.
  destruct (decide ("Sucesso" = "Sucesso")); [| contradiction].
  destruct H as (a' & la & lo & [= <-] & -> & -> & H1 & H2).
  exists la, lo. auto.
Qed.

(** A call that does not end in a success (a cache hit, a failure, an
    exception) leaves the cache and its file exactly as they were: in
    particular a coordinate outside the box is never stored. *)
Theorem no_success_no_cache_write (address : cell) (geocoders : list geocoder)
    (max_retries : nat) (w w' : world) (o : outcome geo_result) :
  geocode_with_retry md5_hexdigest address geocoders max_retries w = (o, w') ->
  (forall r, o = Ok r -> r.2 <> "Sucesso") ->
  GEOCODING_CACHE w' = GEOCODING_CACHE w /\ CACHE_FILE w' = CACHE_FILE w.
Proof.
  intros E Hno.
  pose proof (sat_run _ _ _ _ _
                (geocode_with_retry_cache address geocoders max_retries w) E) as H.
  destruct o as [[[[lat lon] nm] st] | e |]; try exact H.
  destruct (decide (st = "Sucesso")) as [-> | _]; [| exact H].
  exfalso. exact (Hno _ eq_refl eq_refl).
Qed.

(** What was resolved once is served from the cache afterwards, whatever
    the case of the letters: after a success for [a], a call for any
    non-empty [b] with the same lower-case form returns the same coordinate
    and provider with status "Cache", calls no provider, and leaves the
    state as it is. *)
Theorem resolved_query_is_cached (a b : string) (geocoders geocoders' : list geocoder)
    (max_retries max_retries' : nat) (w w' : world) (lat lon : option float)
    (name : string) :
  geocode_with_retry md5_hexdigest (CStr a) geocoders max_retries w
  = (Ok (lat, lon, name, "Sucesso"), w') ->
  b <> "" ->
  lower b = lower a ->
  geocode_with_retry md5_hexdigest (CStr b) geocoders' max_retries' w'
  = (Ok (lat, lon, name, "Cache"), w').
Proof.
  intros E Hb Hlow.
  destruct (success_is_written_through _ _ _ _ _ _ _ _ E)
    as (la & lo & -> & -> & Hc & _).
  apply (cache_hit md5_hexdigest b geocoders' max_retries' w'
           (la, lo, name, "Sucesso") Hb).
  unfold get_cache_key in *. rewrite Hlow, Hc. apply lookup_insert_eq.
Qed.

End Cache_effect.

Lemma success_is_written_through_witness :
  exists la lo,
    Some vitoria.1 = Some la /\ Some vitoria.2 = Some lo
    /\ GEOCODING_CACHE
         (geocode_with_retry plain_digest (CStr "Rua A") finds_vitoria 3
            plain_world).2
       = <[get_cache_key plain_digest "Rua A" := (la, lo, "Nominatim", "Sucesso")]>
           (GEOCODING_CACHE plain_world)
    /\ CACHE_FILE
         (geocode_with_retry plain_digest (CStr "Rua A") finds_vitoria 3
            plain_world).2
       = Pickled (GEOCODING_CACHE
                    (geocode_with_retry plain_digest (CStr "Rua A") finds_vitoria 3
                       plain_world).2).
Proof.
  apply (success_is_written_through plain_digest "Rua A" finds_vitoria 3
           plain_world _ (Some vitoria.1) (Some vitoria.2) "Nominatim").
  vm_compute. reflexivity.
Defined.

Lemma no_success_no_cache_write_witness :
  GEOCODING_CACHE
    (geocode_with_retry plain_digest (CStr "Rua A") never_in_bounds 3 odd_world).2
  = GEOCODING_CACHE odd_world
  /\ CACHE_FILE
       (geocode_with_retry plain_digest (CStr "Rua A") never_in_bounds 3
          odd_world).2
     = CACHE_FILE odd_world.
Proof.
  apply (no_success_no_cache_write plain_digest (CStr "Rua A") never_in_bounds 3
           odd_world _
           (geocode_with_retry plain_digest (CStr "Rua A") never_in_bounds 3
              odd_world).1).
  - vm_compute. reflexivity.
  - intros r Hr. vm_compute in Hr. injection Hr as <-. discriminate.
Defined.

Lemma resolved_query_is_cached_witness :
  geocode_with_retry plain_digest (CStr "RUA a") always_failing 1
    (geocode_with_retry plain_digest (CStr "Rua A") finds_vitoria 3 plain_world).2
  = (Ok (Some vitoria.1, Some vitoria.2, "Nominatim", "Cache"),
     (geocode_with_retry plain_digest (CStr "Rua A") finds_vitoria 3 plain_world).2).
Proof.
  apply (resolved_query_is_cached plain_digest "Rua A" "RUA a" finds_vitoria
           always_failing 3 1 plain_world).
  - vm_compute. reflexivity.
  - discriminate.
  - reflexivity.
Defined.

(** ** Invariants that add up over the attempts *)

Section Graded.

Variable R : nat -> world -> world -> Prop.
Hypothesis R_refl : forall w, R 0 w w.
Hypothesis R_add : forall m m' w1 w2 w3, R m w1 w2 -> R m' w2 w3 -> R (m + m') w1 w3.
Hypothesis R_mono : forall m m' w w', (m <= m')%nat -> R m w w' -> R m' w w'.

Variables (a key : string) (geocoders : list geocoder) (max_retries : nat).

Hypothesis R_attempt : forall name g k w,
  (name, g) ∈ geocoders -> (k < max_retries)%nat ->
  sat (attempt_once name g a key max_retries k) w (fun _ w' => R 1 w w').

Lemma attempts_loop_graded (name : string) (g : provider) (l : list nat) (w : world) :
  (name, g) ∈ geocoders -> Forall (fun k => (k < max_retries)%nat) l ->
  sat (attempts_loop name g a key max_retries l) w
      (fun _ w' => R (length l) w w').
Proof.
  intros Hin Hl. revert w. induction Hl as [| k rest Hk Hrest IH]; intros w;
    cbn [attempts_loop length].
  - wp. apply R_refl.
  - apply sat_bind. eapply sat_mono; [apply R_attempt; eassumption |].
    intros o w1 H1. cbn beta.
    assert (Hend : R (S (length rest)) w w1) by (eapply R_mono; [| exact H1]; lia).
    destruct o as [[| | r] | e |]; cbn beta iota; try exact Hend.
    eapply sat_mono; [apply IH |]. intros o2 w2 H2.
    exact (R_add 1 (length rest) _ _ _ H1 H2).
Qed.

Lemma geocoders_loop_graded (gs : list geocoder) (w : world) :
  gs ⊆ geocoders ->
  sat (geocoders_loop a key max_retries gs) w
      (fun _ w' => R (length gs * max_retries) w w').
Proof.
  revert w. induction gs as [| [name g] rest IH]; intros w Hsub;
    cbn [geocoders_loop length].
  - wp. apply R_refl.
  - apply sat_bind.
    eapply sat_mono; [apply (attempts_loop_graded name g (seq 0 max_retries)) |].
    + apply Hsub. left.
    + apply Forall_forall. intros k Hk. apply elem_of_seq in Hk. lia.
    + intros o w1 H1. rewrite length_seq in H1.
      assert (Hend : R (S (length rest) * max_retries) w w1)
        by (eapply R_mono; [| exact H1]; lia).
      destruct o as [[r |] | e |]; cbn beta iota; try exact Hend.
      eapply sat_mono; [apply IH; set_solver |]. intros o2 w2 H2.
      exact (R_add _ _ _ _ _ H1 H2).
Qed.

End Graded.

Section Retry_bounds.

Variable md5_hexdigest : string -> string.

Lemma within_refl (w : world) : within 0 w w.
Proof. split; lia. Qed.

Lemma within_add (m m' : nat) (w1 w2 w3 : world) :
  within m w1 w2 -> within m' w2 w3 -> within (m + m') w1 w3.
Proof. intros [H1 H2] [K1 K2]. split; lia. Qed.

Lemma within_mono (m m' : nat) (w w' : world) :
  (m <= m')%nat -> within m w w' -> within m' w w'.
Proof. intros Hm [H1 H2]. split; lia. Qed.

Lemma emits_refl (P : event -> Prop) (w : world) : emits P w w.
Proof. exists []. split; [symmetry; apply app_nil_r | constructor]. Qed.

Lemma emits_trans (P : event -> Prop) (w1 w2 w3 : world) :
  emits P w1 w2 -> emits P w2 w3 -> emits P w1 w3.
Proof.
  intros (l1 & H1 & F1) (l2 & H2 & F2). exists (l1 ++ l2). split.
  - rewrite H2, H1. symmetry. apply app_assoc.
  - apply Forall_app. auto.
Qed.

Lemma emits_event (P : event -> Prop) (w w' : world) (ev : event) :
  P ev -> emits P w w' -> emits P w (with_event ev w').
Proof.
  intros Hev (l & H & F). exists (l ++ [ev]). split.
  - cbn. rewrite H. symmetry. apply app_assoc.
  - apply Forall_app. auto.
Qed.

Lemma emits_call (P : event -> Prop) (w w' : world) (ev : event) :
  P ev -> emits P w w' -> emits P w (with_call ev w').
Proof.
  intros Hev (l & H & F). exists (l ++ [ev]). split.
  - cbn. rewrite H. symmetry. apply app_assoc.
  - apply Forall_app. auto.
Qed.

(** One attempt: exactly one attempt is logged, at most two provider calls
    are made, and every event is one of the expected ones. *)
Lemma attempt_once_events (name : string) (g : provider) (a key : string)
    (geocoders : list geocoder) (max_retries attempt : nat) (w : world) :
  (name, g) ∈ geocoders -> (attempt < max_retries)%nat ->
  sat (attempt_once name g a key max_retries attempt) w
      (fun _ w' => within 1 w w'
                   /\ emits (retry_event a geocoders max_retries) w w').
Proof.
  intros Hin Hk.
  assert (Hname : name ∈ geocoders.*1).
  { apply list_elem_of_fmap. exists (name, g). auto. }
  assert (Hat : retry_event a geocoders max_retries (EvAttempt name attempt))
    by (split; assumption).
  assert (Hg1 : retry_event a geocoders max_retries (EvGeocode a (Some 30%Z)))
    by (split; auto).
  assert (Hg2 : retry_event a geocoders max_retries (EvGeocode a None))
    by (split; auto).
  assert (Hsave : retry_event a geocoders max_retries EvSaveCache) by exact I.
  assert (Hsleep : (attempt <? max_retries - 1)%nat = true ->
            retry_event a geocoders max_retries
              (EvSleep (inject_Z (2 ^ Z.of_nat attempt)))).
  { intros Hlt. apply Nat.ltb_lt in Hlt. exists attempt. split; [lia | reflexivity]. }
  pose proof (emits_refl (retry_event a geocoders max_retries) w) as H0.
  unfold attempt_once, custom_geocode, save_cache, backoff.
  wp. apply sat_geocode.
  destruct (g _ a (Some 30%Z)) as [lat lon | | e1]; cbn beta iota.
  - wp; (split; [split; cbn; rewrite ?attempts_app; cbn;
                  rewrite ?length_app; cbn; lia |]);
      repeat first [apply emits_event | apply emits_call | exact H0 | assumption].
  - wp; (split; [split; cbn; rewrite ?attempts_app; cbn;
                  rewrite ?length_app; cbn; lia |]);
      repeat first [apply emits_event | apply emits_call | exact H0
                   | apply Hsleep | assumption | reflexivity].
  - apply sat_geocode.
    destruct (g _ a None) as [lat lon | | e2]; cbn beta iota.
    + wp; (split; [split; cbn; rewrite ?attempts_app; cbn;
                    rewrite ?length_app; cbn; lia |]);
        repeat first [apply emits_event | apply emits_call | exact H0 | assumption].
    + wp; (split; [split; cbn; rewrite ?attempts_app; cbn;
                    rewrite ?length_app; cbn; lia |]);
        repeat first [apply emits_event | apply emits_call | exact H0
                     | apply Hsleep | assumption | reflexivity].
    + wp; (split; [split; cbn; rewrite ?attempts_app; cbn;
                    rewrite ?length_app; cbn; lia |]);
        repeat first [apply emits_event | apply emits_call | exact H0
                     | apply Hsleep | assumption | reflexivity].
Qed.

Lemma geocode_with_retry_events (address : cell) (geocoders : list geocoder)
    (max_retries : nat) (w : world) :
  sat (geocode_with_retry md5_hexdigest address geocoders max_retries) w
      (fun _ w' =>
         within (length geocoders * max_retries) w w'
         /\ forall a, address = CStr a ->
                      emits (retry_event a geocoders max_retries) w w').
Proof.
  assert (Hnone : within (length geocoders * max_retries) w w
                  /\ forall a, address = CStr a ->
                       emits (retry_event a geocoders max_retries) w w).
  { split; [eapply within_mono; [| apply within_refl]; lia |].
    intros a _. apply emits_refl. }
  unfold geocode_with_retry.
  destruct (falsy_or_na address); [wp; exact Hnone |].
  destruct address as [| a | z | b]; wp; try exact Hnone.
  eapply sat_mono.
  - apply (geocoders_loop_graded
             (fun m w1 w2 => within m w1 w2
                             /\ emits (retry_event a geocoders max_retries) w1 w2)
             ltac:(intros; split; [apply within_refl | apply emits_refl])
             ltac:(intros ? ? ? ? ? [? ?] [? ?]; split;
                   [eapply within_add | eapply emits_trans]; eassumption)
             ltac:(intros ? ? ? ? ? [? ?]; split;
                   [eapply within_mono |]; eassumption)
             a (get_cache_key md5_hexdigest a) geocoders max_retries).
    + intros name g k w1 Hin Hk. apply attempt_once_events; assumption.
    + reflexivity.
  - intros o w' [H1 H2]. split; [exact H1 |]. intros a' [= <-]. exact H2.
Qed.

(** Retries are bounded: one call of [geocode_with_retry] makes at most
    [max_retries] attempts per configured geocoder and at most two provider
    calls per attempt, whatever the providers answer. *)
Theorem provider_calls_are_bounded (address : cell) (geocoders : list geocoder)
    (max_retries : nat) (w : world) :
  let w' := (geocode_with_retry md5_hexdigest address geocoders max_retries w).2 in
  (calls w' <= calls w + 2 * (length geocoders * max_retries))%nat
  /\ (length (attempts (trace w'))
      <= length (attempts (trace w)) + length geocoders * max_retries)%nat.
Proof.
  cbn zeta.
  exact (proj1 (geocode_with_retry_events address geocoders max_retries w)).
Qed.

(** What a call for the query [a] does to the outside: it asks providers
    for [a] itself and nothing else, each time with the timeout of 30
    seconds or, in the second call of an attempt, with none; it sleeps only
    [2 ** k] seconds with [k < max_retries - 1] (1, 2, 4, ...: never after
    the last attempt); it logs attempts only for configured geocoders; and
    it takes no checkpoint. *)
Theorem retry_effects_are_confined (a : string) (geocoders : list geocoder)
    (max_retries : nat) (w : world) :
  exists evs,
    trace (geocode_with_retry md5_hexdigest (CStr a) geocoders max_retries w).2
    = trace w ++ evs
    /\ Forall (retry_event a geocoders max_retries) evs.
Proof.
  exact (proj2 (geocode_with_retry_events (CStr a) geocoders max_retries w)
           a eq_refl).
Qed.

End Retry_bounds.

(** ** Three kinds of provider behaviour *)

Lemma tally_refl (w : world) : tally w [] 0 [] w.
Proof. repeat split; rewrite ?app_nil_r; auto. Qed.

Lemma tally_trans (w1 w2 w3 : world) (A1 A2 : list (string * nat)) (G1 G2 : nat)
    (S1 S2 : list Q) :
  tally w1 A1 G1 S1 w2 -> tally w2 A2 G2 S2 w3 ->
  tally w1 (A1 ++ A2) (G1 + G2) (S1 ++ S2) w3.
Proof.
  intros (H1 & H2 & H3) (K1 & K2 & K3). repeat split.
  - rewrite K1, H1. symmetry. apply app_assoc.
  - lia.
  - rewrite K3, H3. symmetry. apply app_assoc.
Qed.

Lemma tally_eq (w w' : world) (A A' : list (string * nat)) (G G' : nat) (S S' : list Q) :
  tally w A G S w' -> A = A' -> G = G' -> S = S' -> tally w A' G' S' w'.
Proof. intros H <- <- <-. exact H. Qed.

(** Closes a [tally] between a state and the same state with events added. *)
Ltac tally_leaf :=
  repeat split; cbn; unfold attempts, sleeps; rewrite ?omap_app; cbn;
  rewrite ?app_nil_r, <- ?app_assoc; cbn; try lia; try reflexivity.

Section Behaviours.

Variable md5_hexdigest : string -> string.

Lemma attempt_once_outside (name : string) (g : provider) (a key : string)
    (max_retries attempt : nat) (w : world) :
  always_outside g ->
  sat (attempt_once name g a key max_retries attempt) w
      (fun o w' => o = Ok Continue /\ tally w [(name, attempt)] 1 [] w').
Proof.
  intros Hg. unfold attempt_once, custom_geocode.
  wp. apply sat_geocode.
  destruct (Hg (calls (with_event (EvAttempt name attempt) w)) a (Some 30%Z))
    as (lat & lon & -> & Hout).
  cbn beta iota. rewrite Hout. wp. split; [reflexivity | tally_leaf].
Qed.

Lemma attempts_loop_outside (name : string) (g : provider) (a key : string)
    (max_retries : nat) (l : list nat) (w : world) :
  always_outside g ->
  sat (attempts_loop name g a key max_retries l) w
      (fun o w' =>
         o = Ok None /\ tally w (map (fun k => (name, k)) l) (length l) [] w').
Proof.
  intros Hg. revert w. induction l as [| attempt rest IH]; intros w;
    cbn [attempts_loop].
  - wp. split; [reflexivity | apply tally_refl].
  - apply sat_bind. eapply sat_mono; [apply attempt_once_outside; exact Hg |].
    intros o w1 (-> & H1). cbn beta iota.
    eapply sat_mono; [apply IH |]. intros o w2 (-> & H2).
    split; [reflexivity |].
    exact (tally_trans _ _ _ _ _ _ _ _ _ H1 H2).
Qed.

Lemma geocoders_loop_outside (a key : string) (max_retries : nat)
    (geocoders : list geocoder) (w : world) :
  Forall (fun ng => always_outside ng.2) geocoders ->
  sat (geocoders_loop a key max_retries geocoders) w
      (fun o w' =>
         o = Ok (None, None, "Múltiplos provedores", "Falhou")
         /\ tally w (expected_attempts geocoders max_retries)
                  (length geocoders * max_retries) [] w').
Proof.
  intros Hall. revert w.
  induction Hall as [| [name g] rest Hg Hrest IH]; intros w; cbn [geocoders_loop].
  - wp. split; [reflexivity | apply tally_refl].
  - apply sat_bind. eapply sat_mono; [apply attempts_loop_outside; exact Hg |].
    intros o w1 (-> & H1). cbn beta iota.
    eapply sat_mono; [apply IH |]. intros o w2 (-> & H2).
    split; [reflexivity |]. rewrite length_seq in H1.
    exact (tally_trans _ _ _ _ _ _ _ _ _ H1 H2).
Qed.

(** A coordinate outside the box is discarded and the next attempt follows
    at once: when every provider always answers outside the box, a
    non-empty query that is not cached gets [max_retries] attempts on each
    provider, one provider call per attempt and no sleep at all, and the
    result is the failure "Múltiplos provedores" / "Falhou". *)
Theorem outside_answers_are_discarded (a : string) (geocoders : list geocoder)
    (max_retries : nat) (w : world) :
  a <> "" ->
  GEOCODING_CACHE w !! get_cache_key md5_hexdigest a = None ->
  Forall (fun ng => always_outside ng.2) geocoders ->
  exists w',
    geocode_with_retry md5_hexdigest (CStr a) geocoders max_retries w
    = (Ok (None, None, "Múltiplos provedores", "Falhou"), w')
    /\ attempts (trace w')
       = attempts (trace w) ++ expected_attempts geocoders max_retries
    /\ calls w' = (calls w + length geocoders * max_retries)%nat
    /\ sleeps (trace w') = sleeps (trace w).
Proof.
  intros Ha Hmiss Hall.
  pose proof (geocoders_loop_outside a (get_cache_key md5_hexdigest a)
                max_retries geocoders w Hall) as H.
  unfold sat in H.
  unfold geocode_with_retry, falsy_or_na.
  destruct (decide (a = "")) as [Heq | _]; [contradiction |].
  rewrite bind_run. unfold read. cbn beta iota. rewrite Hmiss.
  destruct (geocoders_loop a (get_cache_key md5_hexdigest a) max_retries geocoders w)
    as [o w'].
  cbn in H. destruct H as (-> & H1 & H2 & H3).
  exists w'. rewrite app_nil_r in H3. auto.
Qed.

Lemma attempt_once_unexpected (name : string) (g : provider) (a key : string)
    (max_retries attempt : nat) (w : world) :
  always_unexpected g ->
  sat (attempt_once name g a key max_retries attempt) w
      (fun o w' => o = Ok Break /\ tally w [(name, attempt)] 2 [] w').
Proof.
  intros Hg. unfold attempt_once, custom_geocode.
  wp. apply sat_geocode.
  destruct (Hg (calls (with_event (EvAttempt name attempt) w)) a (Some 30%Z))
    as (e1 & -> & _).
  cbn beta iota. apply sat_geocode.
  match goal with
  | |- context [g ?k a None] => destruct (Hg k a None) as (e2 & -> & He2)
  end.
  cbn beta iota. rewrite He2. wp. split; [reflexivity | tally_leaf].
Qed.

Lemma geocoders_loop_unexpected (a key : string) (max_retries : nat)
    (geocoders : list geocoder) (w : world) :
  Forall (fun ng => always_unexpected ng.2) geocoders ->
  sat (geocoders_loop a key (S max_retries) geocoders) w
      (fun o w' =>
         o = Ok (None, None, "Múltiplos provedores", "Falhou")
         /\ tally w (map (fun ng => (ng.1, 0%nat)) geocoders)
                  (2 * length geocoders) [] w').
Proof.
  intros Hall. revert w.
  induction Hall as [| [name g] rest Hg Hrest IH]; intros w; cbn [geocoders_loop].
  - wp. split; [reflexivity | apply tally_refl].
  - cbn [seq attempts_loop]. apply sat_bind, sat_bind.
    eapply sat_mono; [apply attempt_once_unexpected; exact Hg |].
    intros o w1 (-> & H1). cbn beta iota. wp.
    eapply sat_mono; [apply IH |]. intros o w2 (-> & H2).
    split; [reflexivity |].
    eapply tally_eq; [exact (tally_trans _ _ _ _ _ _ _ _ _ H1 H2) | | | ];
      [reflexivity | cbn [length]; lia | reflexivity].
Qed.


End Behaviours.

Lemma outside_answers_are_discarded_witness :
  exists w',
    geocode_with_retry plain_digest (CStr "Rua A")
      [("Nominatim", always (Located sao_paulo.1 sao_paulo.2))] 3 plain_world
    = (Ok (None, None, "Múltiplos provedores", "Falhou"), w')
    /\ attempts (trace w')
       = attempts (trace plain_world)
         ++ expected_attempts
              [("Nominatim", always (Located sao_paulo.1 sao_paulo.2))] 3
    /\ calls w' = (calls plain_world + 1 * 3)%nat
    /\ sleeps (trace w') = sleeps (trace plain_world).
Proof.
  apply (outside_answers_are_discarded plain_digest "Rua A"
           [("Nominatim", always (Located sao_paulo.1 sao_paulo.2))] 3 plain_world).
  - discriminate.
  - reflexivity.
  - repeat constructor. intros k q t. eexists _, _. split; reflexivity.
Defined.


Section Recovery.

Variable md5_hexdigest : string -> string.

Lemma attempts_loop_recovers (name : string) (g : provider) (a key : string)
    (max_retries : nat) (lat lon : float) (k : nat) :
  in_bounds lat lon = true ->
  forall (i m : nat) (w : world),
    (i + m)%nat = max_retries -> (k < m)%nat ->
    (forall j q t, (j < 2 * k)%nat ->
       exists e, g (calls w + j)%nat q t = Fails e /\ retryable e = true) ->
    g (calls w + 2 * k)%nat a (Some 30%Z) = Located lat lon ->
    sat (attempts_loop name g a key max_retries (seq i m)) w
        (fun o w' =>
           o = Ok (Some (Some lat, Some lon, name, "Sucesso"))
           /\ tally w (map (fun n => (name, n)) (seq i (S k))) (2 * k + 1)
                    (map backoff_delay (seq i k)) w').
Proof.
  intros Hin. induction k as [| k IH]; intros i m w Him Hkm Hfail Hfound.
  - destruct m as [| m]; [lia |]. cbn [seq attempts_loop].
    apply sat_bind. unfold attempt_once, custom_geocode.
    wp. apply sat_geocode. cbn [calls with_event].
    replace (calls w + 2 * 0)%nat with (calls w) in Hfound by lia.
    rewrite Hfound. cbn beta iota. rewrite Hin. unfold save_cache. wp.
    split; [reflexivity | tally_leaf].
  - destruct m as [| m]; [lia |]. cbn [seq attempts_loop].
    apply sat_bind. unfold attempt_once, custom_geocode.
    wp. apply sat_geocode. cbn [calls with_event].
    destruct (Hfail 0%nat a (Some 30%Z) ltac:(lia)) as (e1 & H1 & _).
    replace (calls w + 0)%nat with (calls w) in H1 by lia.
    rewrite H1. cbn beta iota. apply sat_geocode. cbn [calls with_call with_event].
    destruct (Hfail 1%nat a None ltac:(lia)) as (e2 & H2 & He2).
    replace (S (calls w)) with (calls w + 1)%nat by lia.
    rewrite H2. cbn beta iota. rewrite He2.
    unfold backoff.
    replace (i <? max_retries - 1)%nat with true
      by (symmetry; apply Nat.ltb_lt; lia).
    wp.
    match goal with
    | |- sat _ ?w1 _ =>
        eapply sat_mono;
        [apply (IH (S i) m w1); [lia | lia | |] |]
    end.
    + intros j q t Hj. cbn [calls with_call with_event].
      replace (S (S (calls w)) + j)%nat with (calls w + (2 + j))%nat by lia.
      apply Hfail. lia.
    + cbn [calls with_call with_event].
      replace (S (S (calls w)) + 2 * k)%nat with (calls w + 2 * S k)%nat by lia.
      exact Hfound.
    + intros o w2 (-> & HT). split; [reflexivity |].
      eapply tally_eq.
      * eapply tally_trans; [| exact HT].
        instantiate (1 := [backoff_delay i]). instantiate (1 := 2%nat).
        instantiate (1 := [(name, i)]). tally_leaf.
      * reflexivity.
      * lia.
      * reflexivity.
Qed.

(** Recovery after transient errors: when the first provider raises a
    retryable error on each of its next [2 * k] calls (the two calls of [k]
    attempts), with [k < max_retries], and then finds a coordinate inside
    the box, a non-empty query that is not cached succeeds with that
    provider after [k + 1] attempts and [2 * k + 1] provider calls, having
    slept 1, 2, 4, ..., [2 ** (k - 1)] seconds in between; no later
    provider is consulted. *)
Theorem transient_errors_are_retried (a name : string) (g : provider)
    (others : list geocoder) (max_retries k : nat) (lat lon : float) (w : world) :
  a <> "" ->
  GEOCODING_CACHE w !! get_cache_key md5_hexdigest a = None ->
  (k < max_retries)%nat ->
  (forall j q t, (j < 2 * k)%nat ->
     exists e, g (calls w + j)%nat q t = Fails e /\ retryable e = true) ->
  g (calls w + 2 * k)%nat a (Some 30%Z) = Located lat lon ->
  in_bounds lat lon = true ->
  exists w',
    geocode_with_retry md5_hexdigest (CStr a) ((name, g) :: others) max_retries w
    = (Ok (Some lat, Some lon, name, "Sucesso"), w')
    /\ attempts (trace w')
       = attempts (trace w) ++ map (fun n => (name, n)) (seq 0 (S k))
    /\ calls w' = (calls w + (2 * k + 1))%nat
    /\ sleeps (trace w') = sleeps (trace w) ++ map backoff_delay (seq 0 k).
Proof.
  intros Ha Hmiss Hk Hfail Hfound Hin.
  pose proof (attempts_loop_recovers name g a (get_cache_key md5_hexdigest a)
                max_retries lat lon k Hin 0 max_retries w eq_refl Hk Hfail Hfound)
    as H.
  unfold sat in H.
  unfold geocode_with_retry, falsy_or_na.
  destruct (decide (a = "")) as [Heq | _]; [contradiction |].
  rewrite bind_run. unfold read. cbn beta iota. rewrite Hmiss.
  cbn [geocoders_loop]. rewrite bind_run.
  destruct (attempts_loop name g a (get_cache_key md5_hexdigest a) max_retries
              (seq 0 max_retries) w) as [o w'].
  cbn in H. destruct H as (-> & H1 & H2 & H3).
  exists w'. auto.
Qed.

End Recovery.

Lemma transient_errors_are_retried_witness :
  exists w',
    geocode_with_retry plain_digest (CStr "Rua A")
      [("Nominatim", recovers_after 4 vitoria); ("ArcGIS", always NoMatch)]
      3 plain_world
    = (Ok (Some vitoria.1, Some vitoria.2, "Nominatim", "Sucesso"), w')
    /\ attempts (trace w')
       = attempts (trace plain_world)
         ++ map (fun n => ("Nominatim", n)) (seq 0 3)
    /\ calls w' = (calls plain_world + (2 * 2 + 1))%nat
    /\ sleeps (trace w')
       = sleeps (trace plain_world) ++ map backoff_delay (seq 0 2).
Proof.
  apply (transient_errors_are_retried plain_digest "Rua A" "Nominatim"
           (recovers_after 4 vitoria) [("ArcGIS", always NoMatch)] 3 2
           vitoria.1 vitoria.2 plain_world).
  - discriminate.
  - reflexivity.
  - lia.
  - intros j q t Hj. exists GeocoderTimedOut. split; [| reflexivity].
    unfold recovers_after.
    replace (calls plain_world + j <? 4)%nat with true; [reflexivity |].
    symmetry. apply Nat.ltb_lt. cbn. lia.
  - reflexivity.
  - vm_compute. reflexivity.
Defined.

(** ** The postal-code lookup and the cache file *)

Lemma engine_frame_refl (w : world) : engine_frame w w.
Proof. repeat split. Qed.

Lemma engine_frame_trans (w1 w2 w3 : world) :
  engine_frame w1 w2 -> engine_frame w2 w3 -> engine_frame w1 w3.
Proof.
  intros (A1 & A2 & A3 & A4) (B1 & B2 & B3 & B4).
  repeat split; congruence.
Qed.

Lemma engine_frame_event (w w' : world) (ev : event) :
  engine_frame w w' -> engine_frame w (with_event ev w').
Proof. intros H. exact H. Qed.

Lemma engine_frame_call (w w' : world) (ev : event) :
  engine_frame w w' -> engine_frame w (with_call ev w').
Proof. intros H. exact H. Qed.

Lemma engine_frame_cache (w w' : world) (c : gmap string cache_entry) :
  engine_frame w w' -> engine_frame w (with_cache c w').
Proof. intros H. exact H. Qed.

Lemma engine_frame_file (w w' : world) (f : cache_file) :
  engine_frame w w' -> engine_frame w (with_file f w').
Proof. intros H. exact H. Qed.

Section Cep_lookup.

Variable md5_hexdigest : string -> string.

Lemma attempt_once_frame (name : string) (g : provider) (a key : string)
    (max_retries attempt : nat) (w : world) :
  sat (attempt_once name g a key max_retries attempt) w
      (fun _ w' => engine_frame w w').
Proof.
  unfold attempt_once, custom_geocode, backoff, save_cache.
  wp. apply sat_geocode.
  destruct (g _ a (Some 30%Z)) as [lat lon | | e1]; cbn beta iota.
  - wp; repeat split.
  - wp; repeat split.
  - apply sat_geocode.
    destruct (g _ a None) as [lat lon | | e2]; cbn beta iota;
      wp; repeat split.
Qed.

Lemma geocode_with_retry_frame (address : cell) (geocoders : list geocoder)
    (max_retries : nat) (w : world) :
  sat (geocode_with_retry md5_hexdigest address geocoders max_retries) w
      (fun _ w' => engine_frame w w').
Proof.
  unfold geocode_with_retry.
  destruct (falsy_or_na address).
  - wp. apply engine_frame_refl.
  - destruct address as [| a | z | b]; wp; try apply engine_frame_refl.
    eapply sat_mono.
    + apply (geocoders_loop_graded (fun _ => engine_frame)
               ltac:(intros; apply engine_frame_refl)
               ltac:(intros ? ? ? ? ?; apply engine_frame_trans)
               ltac:(intros ? ? ? ? _ H; exact H)
               a (get_cache_key md5_hexdigest a) geocoders max_retries).
      * intros name g k w1 _ _. apply attempt_once_frame.
      * reflexivity.
    + intros o w' H. exact H.
Qed.

Lemma sat_both {A : Type} (m : M A) (w : world) (Q1 Q2 : outcome A -> world -> Prop) :
  sat m w Q1 -> sat m w Q2 -> sat m w (fun o w' => Q1 o w' /\ Q2 o w').
Proof. unfold sat. auto. Qed.

Lemma geocode_cep_robust_classified (cep : cell) (geocoders : list geocoder)
    (w : world) :
  sat (geocode_cep_robust md5_hexdigest cep geocoders) w
      (fun o w' => engine_frame w w' /\ exists r, o = Ok r /\ cep_resolved r).
Proof.
  unfold geocode_cep_robust. apply sat_try.
  destruct (cep_missing cep);
    [wp; split; [apply engine_frame_refl | eexists; split; [reflexivity | constructor]] |].
  cbn zeta.
  destruct (negb _);
    [wp; split; [apply engine_frame_refl | eexists; split; [reflexivity | constructor]] |].
  apply sat_bind.
  eapply sat_mono;
    [apply sat_both; [apply geocode_with_retry_frame
                     | apply geocode_with_retry_outcome] |].
  intros o w' (Hf & _ & Ho). destruct o as [r | e |]; cbn beta iota.
  - destruct Ho; wp;
      (split; [assumption | eexists; split; [reflexivity | constructor; assumption]]).
  - destruct Ho as [_ Ho]. exfalso. eapply Ho. reflexivity.
  - contradiction.
Qed.

(** The postal-code lookup always returns, and its result is one of five
    kinds: "Sem CEP", "CEP inválido" and "Falhou", each with the method
    "CEP" and no coordinate, or a coordinate with the method "CEP-" followed
    by the name of a provider and the status "Cache" or, for a coordinate
    inside the box, "Sucesso".  The status "Erro" of the handler is never
    returned; the table, the counters, the session and the pending clicks
    are left alone. *)
Theorem cep_lookup_is_classified (cep : cell) (geocoders : list geocoder)
    (w : world) :
  exists r w',
    geocode_cep_robust md5_hexdigest cep geocoders w = (Ok r, w')
    /\ cep_resolved r
    /\ r.2 <> "Erro"
    /\ engine_frame w w'.
Proof.
  pose proof (geocode_cep_robust_classified cep geocoders w) as H.
  unfold sat in H.
  destruct (geocode_cep_robust md5_hexdigest cep geocoders w) as [o w'].
  cbn in H. destruct H as (Hf & r & -> & Hr).
  exists r, w'. split; [reflexivity |]. split; [exact Hr |]. split; [| exact Hf].
  destruct Hr; cbn; discriminate.
Qed.


(** What a success stored survives the end of the process: in any later
    state that has the cache file the success left, whatever it holds in
    memory, [load_cache] followed by a lookup of an address with the same
    lower-case form returns the stored coordinate and provider with status
    "Cache" and calls no provider. *)
Theorem resolved_query_survives_restart (a b : string)
    (geocoders geocoders' : list geocoder) (max_retries max_retries' : nat)
    (w w' later : world) (lat lon : option float) (name : string) :
  geocode_with_retry md5_hexdigest (CStr a) geocoders max_retries w
  = (Ok (lat, lon, name, "Sucesso"), w') ->
  b <> "" ->
  lower b = lower a ->
  CACHE_FILE later = CACHE_FILE w' ->
  (load_cache;; geocode_with_retry md5_hexdigest (CStr b) geocoders' max_retries')
    later
  = (Ok (lat, lon, name, "Cache"), with_cache (GEOCODING_CACHE w') later).
Proof.
  intros E Hb Hlow Hfile.
  pose proof (sat_run _ _ _ _ _
                (geocode_with_retry_cache md5_hexdigest (CStr a) geocoders
                   max_retries w) E) as H.
  cbn beta iota in H.
  destruct (decide ("Sucesso" = "Sucesso")); [| contradiction].
  destruct H as (a' & la & lo & [= <-] & -> & -> & Hc & Hf).
  rewrite bind_run. unfold load_cache, modify. cbn beta iota.
  rewrite Hfile, Hf.
  apply (cache_hit md5_hexdigest b geocoders' max_retries'
           (with_cache (GEOCODING_CACHE w') later) (la, lo, name, "Sucesso") Hb).
  cbn [GEOCODING_CACHE with_cache].
  unfold get_cache_key in *. rewrite Hlow, Hc. apply lookup_insert_eq.
Qed.

End Cep_lookup.


Lemma resolved_query_survives_restart_witness :
  (load_cache;; geocode_with_retry plain_digest (CStr "RUA A") always_failing 1)
    (with_cache ∅
       (geocode_with_retry plain_digest (CStr "Rua A") finds_vitoria 3 plain_world).2)
  = (Ok (Some vitoria.1, Some vitoria.2, "Nominatim", "Cache"),
     with_cache
       (GEOCODING_CACHE
          (geocode_with_retry plain_digest (CStr "Rua A") finds_vitoria 3
             plain_world).2)
       (with_cache ∅
          (geocode_with_retry plain_digest (CStr "Rua A") finds_vitoria 3
             plain_world).2)).
Proof.
  apply (resolved_query_survives_restart plain_digest "Rua A" "RUA A"
           finds_vitoria always_failing 3 1 plain_world).
  - vm_compute. reflexivity.
  - discriminate.
  - vm_compute. reflexivity.
  - reflexivity.
Defined.

(** ** Removal of duplicate columns *)

Section Duplicate_columns.

Context {A : Type}.
Implicit Types (df : labelled A) (seen : list string).

Lemma loc_not_duplicated seen df :
  loc_not (duplicated_after seen df.*1) df = first_of_each_label seen df.
Proof.
  revert seen. induction df as [| c rest IH]; intros seen; [reflexivity |].
  cbn. destruct (bool_decide (c.1 ∈ seen)); rewrite IH; reflexivity.
Qed.

Lemma first_of_each_label_fresh seen df c :
  c ∈ first_of_each_label seen df -> c.1 ∉ seen.
Proof.
  revert seen. induction df as [| d rest IH]; intros seen; cbn.
  - intros H. inversion H.
  - destruct (bool_decide (d.1 ∈ seen)) eqn:E.
    + intros H. apply IH in H. set_solver.
    + apply bool_decide_eq_false in E. intros H.
      apply elem_of_cons in H as [-> | H]; [exact E |].
      apply IH in H. set_solver.
Qed.

Lemma first_of_each_label_NoDup seen df :
  NoDup (first_of_each_label seen df).*1.
Proof.
  revert seen. induction df as [| d rest IH]; intros seen; cbn.
  - constructor.
  - destruct (bool_decide (d.1 ∈ seen)); [apply IH |].
    cbn. constructor; [| apply IH].
    intros H. apply list_elem_of_fmap in H as (c & Hc & Hin).
    apply first_of_each_label_fresh in Hin. set_solver.
Qed.

Lemma first_of_each_key_fresh seen df c :
  c ∈ first_of_each_key seen df -> col_key c.1 ∉ seen.
Proof.
  revert seen. induction df as [| d rest IH]; intros seen; cbn.
  - intros H. inversion H.
  - destruct (bool_decide (col_key d.1 ∈ seen)) eqn:E.
    + apply IH.
    + apply bool_decide_eq_false in E. intros H.
      apply elem_of_cons in H as [-> | H]; [exact E |].
      apply IH in H. set_solver.
Qed.

Lemma first_of_each_key_NoDup seen df :
  NoDup (col_key <$> (first_of_each_key seen df).*1).
Proof.
  revert seen. induction df as [| d rest IH]; intros seen; cbn.
  - constructor.
  - destruct (bool_decide (col_key d.1 ∈ seen)); [apply IH |].
    cbn. constructor; [| apply IH].
    intros H. apply list_elem_of_fmap in H as (l & Hl & Hin).
    apply list_elem_of_fmap in Hin as (c & -> & Hin).
    apply first_of_each_key_fresh in Hin. rewrite <- Hl in Hin. set_solver.
Qed.

Lemma first_of_each_key_sublist seen df :
  sublist (first_of_each_key seen df) df.
Proof.
  revert seen. induction df as [| d rest IH]; intros seen; cbn.
  - constructor.
  - destruct (bool_decide (col_key d.1 ∈ seen)).
    + apply sublist_cons, IH.
    + apply sublist_skip, IH.
Qed.

(** Labels that are equal have equal keys, so the first pass removes
    nothing the second would keep. *)
Lemma first_of_each_key_label seenK seenL df :
  (forall l, l ∈ seenL -> col_key l ∈ seenK) ->
  first_of_each_key seenK (first_of_each_label seenL df)
  = first_of_each_key seenK df.
Proof.
  revert seenK seenL. induction df as [| d rest IH]; intros seenK seenL Hs;
    [reflexivity |].
  cbn. destruct (bool_decide (d.1 ∈ seenL)) eqn:EL.
  - apply bool_decide_eq_true in EL. pose proof (Hs _ EL) as EK.
    rewrite (bool_decide_eq_true_2 _ EK). apply IH.
    intros l Hl. apply elem_of_cons in Hl as [-> | Hl]; auto.
  - cbn. destruct (bool_decide (col_key d.1 ∈ seenK)) eqn:EK.
    + apply bool_decide_eq_true in EK. apply IH.
      intros l Hl. apply elem_of_cons in Hl as [-> | Hl]; auto.
    + f_equal. apply IH.
      intros l Hl. apply elem_of_cons in Hl as [-> | Hl]; [left |].
      right. auto.
Qed.

Lemma drop_column_absent (col : string) df :
  col ∉ df.*1 -> drop_column col df = df.
Proof.
  unfold drop_column. induction df as [| d rest IH]; intros H; [reflexivity |].
  rewrite filter_cons. cbn in H. apply not_elem_of_cons in H as [H1 H2].
  destruct (decide (d.1 <> col)) as [_ | Hn].
  - f_equal. apply IH, H2.
  - exfalso. apply Hn. congruence.
Qed.

Lemma drop_column_app (col : string) df1 df2 :
  drop_column col (df1 ++ df2) = drop_column col df1 ++ drop_column col df2.
Proof. apply filter_app. Qed.

(** The second pass, started in the middle: [pre] holds the columns kept
    so far, [suf] those still to be visited. *)
Lemma second_pass_spec (pre suf : labelled A) (cols_lower : gmap string string)
    (seen : list string) :
  NoDup (pre ++ suf).*1 ->
  (forall k, is_Some (cols_lower !! k) <-> k ∈ seen) ->
  second_pass suf.*1 cols_lower (pre ++ suf)
  = pre ++ first_of_each_key seen suf.
Proof.
  revert pre cols_lower seen.
  induction suf as [| c rest IH]; intros pre cols_lower seen Hnd Hdom.
  - reflexivity.
  - cbn [fmap list_fmap second_pass first_of_each_key].
    rewrite fmap_app in Hnd. cbn in Hnd.
    apply NoDup_app in Hnd as (Hpre & Hdis & Hsuf).
    apply NoDup_cons in Hsuf as [Hc Hrest].
    destruct (cols_lower !! col_key c.1) as [v |] eqn:E.
    + assert (Hin : col_key c.1 ∈ seen) by (apply Hdom; eauto).
      rewrite (bool_decide_eq_true_2 _ Hin).
      rewrite drop_column_app. rewrite (drop_column_absent c.1 pre).
      2:{ intros H. apply (Hdis _ H). left. }
      unfold drop_column at 1. rewrite filter_cons.
      destruct (decide (c.1 <> c.1)) as [Hn | _]; [congruence |].
      fold (drop_column c.1 rest). rewrite (drop_column_absent c.1 rest Hc).
      apply IH; [| exact Hdom].
      rewrite fmap_app. apply NoDup_app. split; [exact Hpre |].
      split; [| exact Hrest].
      intros x Hx Hx'. apply (Hdis x Hx). right. exact Hx'.
    + assert (Hout : col_key c.1 ∉ seen).
      { intros H. apply Hdom in H. rewrite E in H. destruct H. discriminate. }
      rewrite (bool_decide_eq_false_2 _ Hout).
      replace (pre ++ c :: rest) with ((pre ++ [c]) ++ rest)
        by (rewrite <- app_assoc; reflexivity).
      rewrite (IH (pre ++ [c]) _ (col_key c.1 :: seen)).
      * rewrite <- app_assoc. reflexivity.
      * rewrite <- app_assoc. cbn. rewrite fmap_app. cbn.
        apply NoDup_app. split; [exact Hpre |].
        split; [exact Hdis | constructor; assumption].
      * intros k. rewrite elem_of_cons.
        destruct (decide (k = col_key c.1)) as [-> | Hne].
        -- rewrite lookup_insert_eq. split; eauto.
        -- rewrite lookup_insert_ne by congruence. rewrite Hdom.
           split; [auto | intros [? | ?]; [contradiction | assumption]].
Qed.

Lemma any_duplicated_NoDup seen (cols : list string) :
  NoDup cols -> (forall c, c ∈ cols -> c ∉ seen) ->
  any (duplicated_after seen cols) = false.
Proof.
  revert seen. induction cols as [| c rest IH]; intros seen Hnd Hdis;
    [reflexivity |].
  apply NoDup_cons in Hnd as [Hc Hrest]. cbn.
  rewrite bool_decide_eq_false_2 by (apply Hdis; left). cbn.
  apply IH; [exact Hrest |].
  intros x Hx Hin. apply elem_of_cons in Hin as [-> | Hin]; [contradiction |].
  apply (Hdis x); [right; exact Hx | exact Hin].
Qed.

Lemma loc_not_no_duplicate seen df :
  any (duplicated_after seen df.*1) = false ->
  loc_not (duplicated_after seen df.*1) df = df.
Proof.
  revert seen. induction df as [| c rest IH]; intros seen; [reflexivity |].
  cbn. destruct (bool_decide (c.1 ∈ seen)); cbn; [discriminate |].
  intros H. f_equal. apply IH, H.
Qed.

Lemma NoDup_keys_labels (cols : list string) :
  NoDup (col_key <$> cols) -> NoDup cols.
Proof. apply NoDup_fmap_1. Qed.

(** The three passes together keep, of the columns with the same key, the
    first one, and the function does not give up. *)
Lemma remove_duplicate_columns_robust_eq df :
  remove_duplicate_columns_robust (Some df) = Some (first_of_each_key [] df).
Proof.
  unfold remove_duplicate_columns_robust.
  assert (H1 : (if any (duplicated df.*1) then loc_not (duplicated df.*1) df else df)
               = first_of_each_label [] df).
  { unfold duplicated. destruct (any _) eqn:E.
    - apply loc_not_duplicated.
    - rewrite <- loc_not_duplicated. symmetry. apply loc_not_no_duplicate, E. }
  cbn zeta. rewrite H1.
  pose proof (second_pass_spec [] (first_of_each_label [] df) ∅ []) as H2.
  cbn [app] in H2. rewrite H2.
  2:{ apply first_of_each_label_NoDup. }
  2:{ intros k. rewrite lookup_empty. split; [intros [? ?]; discriminate |].
      intros H. inversion H. }
  rewrite first_of_each_key_label by (intros l Hl; inversion Hl).
  assert (Hnd : any (duplicated (first_of_each_key [] df).*1) = false).
  { apply any_duplicated_NoDup.
    - apply NoDup_keys_labels, first_of_each_key_NoDup.
    - intros c _ H. inversion H. }
  cbn [third_pass]. rewrite Hnd. rewrite Hnd. reflexivity.
Qed.

Lemma first_of_each_key_covers seen df c :
  c ∈ df -> col_key c.1 ∉ seen ->
  exists pre post,
    df = pre ++ post
    /\ (exists c', head post = Some c' /\ col_key c'.1 = col_key c.1
                   /\ c' ∈ first_of_each_key seen df)
    /\ col_key c.1 ∉ (col_key <$> pre.*1).
Proof.
  revert seen. induction df as [| d rest IH]; intros seen Hin Hout.
  - inversion Hin.
  - destruct (decide (col_key d.1 = col_key c.1)) as [Heq | Hne].
    + exists [], (d :: rest). split; [reflexivity |]. split.
      * exists d. split; [reflexivity |]. split; [exact Heq |].
        cbn. rewrite bool_decide_eq_false_2 by (rewrite Heq; exact Hout). left.
      * cbn. intros H. inversion H.
    + apply elem_of_cons in Hin as [-> | Hin]; [contradiction |].
      cbn [first_of_each_key].
      destruct (bool_decide (col_key d.1 ∈ seen)) eqn:E.
      * destruct (IH seen Hin Hout) as (pre & post & -> & (c' & H1 & H2 & H3) & H4).
        exists (d :: pre), post. split; [reflexivity |]. split.
        -- exists c'. auto.
        -- cbn. rewrite not_elem_of_cons. split; [congruence | exact H4].
      * destruct (IH (col_key d.1 :: seen) Hin) as (pre & post & -> & (c' & H1 & H2 & H3) & H4).
        { rewrite not_elem_of_cons. split; [congruence | exact Hout]. }
        exists (d :: pre), post. split; [reflexivity |]. split.
        -- exists c'. split; [exact H1 |]. split; [exact H2 |]. right. exact H3.
        -- cbn. rewrite not_elem_of_cons. split; [congruence | exact H4].
Qed.

(** The clean-up never gives up on a table: it returns a table, whose
    columns are columns of the input with their content, in the order of the
    input, and no two of them have the same name up to case and surrounding
    white space (in particular no two have the same name). *)
Theorem duplicate_columns_are_removed df :
  exists out,
    remove_duplicate_columns_robust (Some df) = Some out
    /\ sublist out df
    /\ NoDup (col_key <$> out.*1)
    /\ NoDup out.*1.
Proof.
  exists (first_of_each_key [] df). split; [apply remove_duplicate_columns_robust_eq |].
  split; [apply first_of_each_key_sublist |].
  split; [apply first_of_each_key_NoDup |].
  apply NoDup_keys_labels, first_of_each_key_NoDup.
Qed.

(** No name is lost and the first column wins: in a table whose labels are
    ASCII text, for every column of the input, the output holds the first
    column of the input that has the same name up to case and surrounding
    white space. *)
Theorem first_column_of_a_name_is_kept df (c : string * A) :
  Forall (fun d => ascii_only d.1 = true) df ->
  c ∈ df ->
  exists out pre c' post,
    remove_duplicate_columns_robust (Some df) = Some out
    /\ df = pre ++ c' :: post
    /\ col_key c'.1 = col_key c.1
    /\ (col_key c.1 ∉ col_key <$> pre.*1)
    /\ c' ∈ out.
Proof.
  intros _ Hin.
  destruct (first_of_each_key_covers [] df c Hin) as (pre & post & -> & (c' & H1 & H2 & H3) & H4).
  { intros H. inversion H. }
  destruct post as [| c'' post]; [discriminate |]. injection H1 as ->.
  exists (first_of_each_key [] (pre ++ c' :: post)), pre, c', post.
  split; [apply remove_duplicate_columns_robust_eq |]. auto.
Qed.

Lemma first_of_each_key_fixed seen df :
  NoDup (col_key <$> df.*1) -> (forall c, c ∈ df -> col_key c.1 ∉ seen) ->
  first_of_each_key seen df = df.
Proof.
  revert seen. induction df as [| d rest IH]; intros seen Hnd Hdis; [reflexivity |].
  cbn in Hnd. apply NoDup_cons in Hnd as [Hd Hrest]. cbn.
  rewrite bool_decide_eq_false_2 by (apply Hdis; left). f_equal.
  apply IH; [exact Hrest |].
  intros c Hc H. apply elem_of_cons in H as [H | H].
  - apply Hd. rewrite <- H. apply list_elem_of_fmap. exists c.1. split; [reflexivity |].
    apply list_elem_of_fmap. exists c. auto.
  - apply (Hdis c); [right; exact Hc | exact H].
Qed.

(** Cleaning a cleaned table changes nothing. *)
Theorem duplicate_removal_is_idempotent df :
  remove_duplicate_columns_robust (remove_duplicate_columns_robust (Some df))
  = remove_duplicate_columns_robust (Some df).
Proof.
  rewrite !remove_duplicate_columns_robust_eq. f_equal.
  apply first_of_each_key_fixed.
  - apply first_of_each_key_NoDup.
  - intros c _ H. inversion H.
Qed.

End Duplicate_columns.

Lemma first_column_of_a_name_is_kept_witness :
  exists out pre c' post,
    remove_duplicate_columns_robust
      (Some [("Latitude", 1%nat); ("cep", 2%nat); (" latitude", 3%nat)])
    = Some out
    /\ [("Latitude", 1%nat); ("cep", 2%nat); (" latitude", 3%nat)]
       = pre ++ c' :: post
    /\ col_key c'.1 = col_key (" latitude", 3%nat).1
    /\ (col_key (" latitude", 3%nat).1 ∉ col_key <$> pre.*1)
    /\ c' ∈ out.
Proof.
  apply (first_column_of_a_name_is_kept
           [("Latitude", 1%nat); ("cep", 2%nat); (" latitude", 3%nat)]
           (" latitude", 3%nat)).
  - repeat constructor.
  - right. right. left.
Defined.

(** ** The log buffer *)

Lemma add_logs_snoc (cs : list log_call) (c : log_call) (self : LogCapture) :
  add_logs (cs ++ [c]) self = add_log c.1.1.1 c.1.1.2 c.1.2 c.2 (add_logs cs self).
Proof. unfold add_logs. rewrite fold_left_app. reflexivity. Qed.

Lemma add_logs_max_logs (cs : list log_call) (self : LogCapture) :
  max_logs (add_logs cs self) = max_logs self.
Proof.
  induction cs as [| c cs IH] using rev_ind; [reflexivity |].
  rewrite add_logs_snoc. exact IH.
Qed.

Lemma tail_drop {A : Type} (n : nat) (l : list A) :
  tail (drop n l) = drop (S n) l.
Proof.
  revert l. induction n as [| n IH]; intros [| x l]; cbn; auto.
Qed.

Lemma add_logs_window (cs : list log_call) (self : LogCapture) :
  (length (logs self) <= max_logs self)%nat ->
  logs (add_logs cs self)
  = last_n (max_logs self) (logs self ++ (entry_of <$> cs)).
Proof.
  intros Hfit. unfold last_n.
  induction cs as [| c cs IH] using rev_ind.
  - cbn. rewrite app_nil_r.
    replace (length (logs self) - max_logs self)%nat with 0%nat by lia.
    reflexivity.
  - rewrite add_logs_snoc. unfold add_log. cbn [logs].
    rewrite add_logs_max_logs, IH. clear IH.
    rewrite fmap_app, app_assoc. cbn [fmap list_fmap].
    set (L := logs self ++ (entry_of <$> cs)).
    fold (entry_of c).
    rewrite !length_app, length_drop. cbn [length].
    destruct (Nat.ltb_spec (max_logs self) (length L - (length L - max_logs self) + 1))
      as [Hlt | Hge].
    + assert (Hlen : (max_logs self <= length L)%nat) by lia.
      replace (length L + 1 - max_logs self)%nat
        with (S (length L - max_logs self)) by lia.
      rewrite <- tail_drop. rewrite drop_app_le by lia. reflexivity.
    + assert (Hlen : (length L < max_logs self)%nat) by lia.
      replace (length L - max_logs self)%nat with 0%nat by lia.
      replace (length L + 1 - max_logs self)%nat with 0%nat by lia.
      reflexivity.
Qed.

(** The buffer is a sliding window: after any series of calls of [add_log]
    on a buffer that was not over its limit, it holds the last [max_logs]
    of the entries it had and the entries added, in the order they were
    added, and so never more than [max_logs] entries. *)
Theorem log_keeps_the_latest_entries (cs : list log_call) (self : LogCapture) :
  (length (logs self) <= max_logs self)%nat ->
  get_logs (add_logs cs self)
  = last_n (max_logs self) (logs self ++ (entry_of <$> cs))
  /\ (length (get_logs (add_logs cs self)) <= max_logs self)%nat.
Proof.
  intros Hfit. unfold get_logs. rewrite (add_logs_window cs self Hfit).
  split; [reflexivity |]. unfold last_n. rewrite length_drop. lia.
Qed.

(** What the page shows is the last fifteen entries added to a new buffer,
    whatever their number. *)
Theorem display_shows_the_last_fifteen (cs : list log_call) :
  displayed (add_logs cs new_LogCapture) = last_n 15 (entry_of <$> cs).
Proof.
  unfold displayed, get_logs.
  rewrite add_logs_window by (cbn; lia).
  cbn [logs max_logs new_LogCapture app]. unfold last_n.
  rewrite drop_drop, length_drop. f_equal. lia.
Qed.

Lemma log_keeps_the_latest_entries_witness :
  get_logs (add_logs [("10:00:00", "INFO", "a", None);
                      ("10:00:01", "ERROR", "b", Some "c")]
              {| logs := []; max_logs := 1 |})
  = last_n 1 ([] ++ (entry_of <$> [("10:00:00", "INFO", "a", None);
                                   ("10:00:01", "ERROR", "b", Some "c")]))
  /\ (length (get_logs (add_logs [("10:00:00", "INFO", "a", None);
                                  ("10:00:01", "ERROR", "b", Some "c")]
                          {| logs := []; max_logs := 1 |})) <= 1)%nat.
Proof.
  apply (log_keeps_the_latest_entries
           [("10:00:00", "INFO", "a", None); ("10:00:01", "ERROR", "b", Some "c")]
           {| logs := []; max_logs := 1 |}).
  cbn. lia.
Defined.

(** ** The control buttons *)

Lemma control_pass_started (pn : option button * string) (s : session)
    (log : LogCapture) (st : pstate) :
  processing_state s = Some st -> st <> IDLE ->
  let s' := (control_pass pn (s, log)).1 in
  (exists st', processing_state s' = Some st' /\ st' <> IDLE
               /\ (st = STOPPED \/ st = COMPLETED -> st' = st))
  /\ processed_index s' = processed_index s
  /\ partial_results s' = partial_results s
  /\ current_stats s' = current_stats s
  /\ (st = STOPPED \/ st = COMPLETED -> control_pass pn (s, log) = (s, log)).
Proof.
  intros Hst Hne. destruct s as [ps pidx pr cs]. cbn in Hst. subst ps.
  unfold control_pass, handle_clicks, create_control_buttons. cbn.
  destruct st; try contradiction; cbn.
  - destruct (bool_decide (pn.1 = Some PauseButton)); cbn.
    + repeat split; try (intros [? | ?]; discriminate).
      exists PAUSED. repeat split; try discriminate. intros [? | ?]; discriminate.
    + destruct (bool_decide (pn.1 = Some StopButton)); cbn;
        repeat split; try (intros [? | ?]; discriminate).
      * exists STOPPED. repeat split; try discriminate. intros [? | ?]; discriminate.
      * exists RUNNING. repeat split; try discriminate.
  - destruct (bool_decide (pn.1 = Some PauseButton)); cbn.
    + repeat split; try (intros [? | ?]; discriminate).
      exists RUNNING. repeat split; try discriminate. intros [? | ?]; discriminate.
    + destruct (bool_decide (pn.1 = Some StopButton)); cbn;
        repeat split; try (intros [? | ?]; discriminate).
      * exists STOPPED. repeat split; try discriminate. intros [? | ?]; discriminate.
      * exists PAUSED. repeat split; try discriminate.
  - repeat split. exists STOPPED. repeat split; discriminate.
  - repeat split. exists COMPLETED. repeat split; discriminate.
Qed.

(** Processing is started once: in a session whose state is no longer
    "idle", no series of clicks brings the state back to "idle", resets the
    cursor to 0 or touches the snapshot and the statistics; and once the
    state is "stopped" or "completed", no click changes the session or the
    log at all. *)
Theorem started_session_cannot_restart (pns : list (option button * string))
    (s : session) (log : LogCapture) (st : pstate) :
  processing_state s = Some st -> st <> IDLE ->
  let s' := (control_passes pns (s, log)).1 in
  (exists st', processing_state s' = Some st' /\ st' <> IDLE)
  /\ processed_index s' = processed_index s
  /\ partial_results s' = partial_results s
  /\ current_stats s' = current_stats s
  /\ (st = STOPPED \/ st = COMPLETED -> control_passes pns (s, log) = (s, log)).
Proof.
  revert s log st. induction pns as [| pn pns IH]; intros s log st Hst Hne.
  - cbn. repeat split. eauto.
  - cbn [control_passes fold_left].
    destruct (control_pass pn (s, log)) as [s1 log1] eqn:E.
    pose proof (control_pass_started pn s log st Hst Hne) as H.
    rewrite E in H. cbn [fst] in H.
    destruct H as ((st1 & Hst1 & Hne1 & Hkeep) & H2 & H3 & H4 & H5).
    specialize (IH s1 log1 st1 Hst1 Hne1). cbn zeta in IH.
    fold (control_passes pns (s1, log1)).
    destruct IH as (K1 & K2 & K3 & K4 & K5).
    cbn zeta. split; [exact K1 |].
    split; [congruence |]. split; [congruence |]. split; [congruence |].
    intros Hfin. specialize (H5 Hfin). injection H5 as -> ->.
    apply K5. rewrite Hst in Hst1. injection Hst1 as <-. exact Hfin.
Qed.

Lemma started_session_cannot_restart_witness :
  let s := {| processing_state := Some STOPPED; processed_index := Some 25%nat;
              partial_results := None; current_stats := None |} in
  let s' := (control_passes [(Some StartButton, "10:00:00");
                             (Some PauseButton, "10:00:01")]
               (s, new_LogCapture)).1 in
  (exists st', processing_state s' = Some st' /\ st' <> IDLE)
  /\ processed_index s' = processed_index s
  /\ partial_results s' = partial_results s
  /\ current_stats s' = current_stats s
  /\ (STOPPED = STOPPED \/ STOPPED = COMPLETED ->
      control_passes [(Some StartButton, "10:00:00"); (Some PauseButton, "10:00:01")]
        (s, new_LogCapture)
      = (s, new_LogCapture)).
Proof.
  apply (started_session_cannot_restart
           [(Some StartButton, "10:00:00"); (Some PauseButton, "10:00:01")]
           {| processing_state := Some STOPPED; processed_index := Some 25%nat;
              partial_results := None; current_stats := None |}
           new_LogCapture STOPPED).
  - reflexivity.
  - discriminate.
Defined.

(** ** The complete run *)

Section Complete_run.

Variable md5_hexdigest : string -> string.

Lemma alter_insert {A : Type} (f : A -> A) (i : nat) (l : list A) (x : A) :
  l !! i = Some x -> alter f i l = <[i := f x]> l.
Proof.
  revert i. induction l as [| y l IH]; intros [| i] H; cbn in *; try discriminate.
  - injection H as ->. reflexivity.
  - f_equal. apply IH, H.
Qed.

(** Closes the goal left at the end of a path through the resolution of a
    record: the state reached is the initial one with one record written
    and one counter moved. *)
Ltac record_leaf Hrow Hlat Hlon F1 F2 F3 F4 :=
  first
    [ congruence
    | split; [reflexivity |];
      split; [cbn; congruence |];
      split; [cbn; congruence |];
      split; [cbn; congruence |];
      cbn; rewrite ?F1, ?F2;
      eexists; split; [apply alter_insert; exact Hrow |];
      split; [reflexivity |];
      split; [unfold settled; cbn; rewrite ?Hlat, ?Hlon; auto |];
      split; [reflexivity |];
      unfold counted, status_is, one_if; cbn;
      repeat (destruct (decide _)); try congruence; lia ].

Lemma resolve_by_cep_resolved (i : nat) (r : row) (cep_value : cell)
    (geocoders : list geocoder) (w : world) :
  rows (frame w) !! i = Some r -> blank r ->
  sat (resolve_by_cep md5_hexdigest i cep_value geocoders) w
      (fun o w' => o = Ok tt /\ record_resolved i r w w').
Proof.
  intros Hrow (Hlat & Hlon & _). unfold resolve_by_cep.
  apply sat_bind.
  eapply sat_mono; [apply geocode_cep_robust_classified |].
  intros o w1 ((F1 & F2 & F3 & F4) & res & -> & Hres). cbn beta iota.
  unfold assign, update_locals, update_row.
  destruct Hres; wp.
  all: record_leaf Hrow Hlat Hlon F1 F2 F3 F4.
Qed.

Lemma cep_fallback_resolved (i : nat) (r : row) (geocoders : list geocoder)
    (w : world) :
  rows (frame w) !! i = Some r -> blank r ->
  status (batch_locals w) = Some "Falhou" ->
  sat (cep_fallback md5_hexdigest i r geocoders) w
      (fun o w' => o = Ok tt /\ record_resolved i r w w').
Proof.
  intros Hrow Hblank Hst. pose proof Hblank as (Hlat & Hlon & _).
  unfold cep_fallback.
  apply sat_bind, sat_read. cbn beta iota.
  destruct (cep_columns (frame w)) as [| c cs].
  - unfold update_row, update_locals. wp.
    pose proof (eq_refl (frame w)) as F1.
    pose proof (eq_refl (batch_locals w)) as F2.
    split; [reflexivity |].
    split; [reflexivity |]. split; [reflexivity |]. split; [reflexivity |].
    cbn. eexists. split; [apply alter_insert; exact Hrow |].
    split; [reflexivity |].
    split; [unfold settled; cbn; rewrite ?Hlat, ?Hlon; auto |].
    split; [exact Hst |].
    unfold counted, status_is, one_if; cbn.
    repeat (destruct (decide _)); try congruence; lia.
  - apply resolve_by_cep_resolved; [exact Hrow | exact Hblank].
Qed.

Lemma record_resolved_rebased (i : nat) (r : row) (w0 w w' : world) (st : string) :
  engine_frame w0 w ->
  record_resolved i r (with_locals (bind_status st (batch_locals w)) w) w' ->
  record_resolved i r w0 w'.
Proof.
  intros (F1 & F2 & F3 & F4) (H1 & H2 & H3 & r' & K1 & K2 & K3 & K4 & K5).
  cbn in *. rewrite F1 in *. rewrite F2 in *.
  split; [congruence |]. split; [congruence |]. split; [congruence |].
  exists r'. auto.
Qed.

Lemma resolve_record_resolved (i : nat) (r : row) (geocoders : list geocoder)
    (w : world) :
  rows (frame w) !! i = Some r -> blank r ->
  has_text_address (columns (frame w)) r ->
  sat (resolve_record md5_hexdigest i r geocoders) w
      (fun o w' => o = Ok tt /\ record_resolved i r w w').
Proof.
  intros Hrow Hblank [a Ha]. pose proof Hblank as (Hlat & Hlon & _).
  unfold resolve_record.
  apply sat_bind, sat_read. cbn beta iota zeta. rewrite Ha. cbn.
  apply sat_bind, sat_ret, sat_bind, sat_ret. cbn beta iota.
  apply sat_try, sat_bind. unfold geocode_address_robust.
  eapply sat_mono;
    [apply sat_both; [apply geocode_with_retry_frame
                     | apply geocode_with_retry_outcome] |].
  intros o w1 (F & _ & Ho). destruct o as [res | e |]; cbn beta iota.
  - pose proof F as (F1 & F2 & F3 & F4).
    unfold assign, update_locals, update_row.
    destruct Ho.
    + apply sat_bind, sat_modify. cbn beta iota.
      eapply sat_mono; [apply cep_fallback_resolved |].
      * cbn. rewrite F1. exact Hrow.
      * exact Hblank.
      * reflexivity.
      * intros o w2 [-> H]. split; [reflexivity |].
        eapply record_resolved_rebased; eassumption.
    + wp; record_leaf Hrow Hlat Hlon F1 F2 F3 F4.
    + wp; record_leaf Hrow Hlat Hlon F1 F2 F3 F4.
    + apply sat_bind, sat_modify. cbn beta iota.
      eapply sat_mono; [apply cep_fallback_resolved |].
      * cbn. rewrite F1. exact Hrow.
      * exact Hblank.
      * reflexivity.
      * intros o w2 [-> H]. split; [reflexivity |].
        eapply record_resolved_rebased; eassumption.
  - destruct Ho as [_ Ho]. exfalso. exact (Ho a eq_refl).
  - contradiction.
Qed.

Lemma count_rows_snoc (p : row -> bool) (l : list row) (x : row) :
  count_rows p (l ++ [x]) = (count_rows p l + one_if (p x))%Z.
Proof.
  unfold count_rows, one_if. rewrite filter_app, length_app.
  rewrite filter_singleton; [| exact l].
  destruct (decide (p x = true)) as [-> | Hn]; cbn [length].
  - lia.
  - destruct (p x); [congruence | lia].
Qed.

Lemma tallies_snoc (l l' : locals) (done : list row) (r' : row) :
  tallies l done -> counted r' l l' -> tallies l' (done ++ [r']).
Proof.
  intros (T1 & T2 & T3) (C1 & C2 & C3). unfold tallies.
  rewrite !count_rows_snoc, length_app. cbn [length]. lia.
Qed.

(** The loop body after the control check. *)
Lemma loop_body_inv (geocoders : list geocoder) (ctl : list (option pstate))
    (cols : list string) (input : list (list cell)) (total i : nat) (w : world) :
  (forall cs, input !! i = Some cs -> exists a,
      lookup_column "endereco_completo" cols cs = Some (CStr a)) ->
  (i < length input)%nat ->
  run_inv ctl cols input i w ->
  sat (df ← read frame;
       r ← (match rows df !! i with
            | Some r => mret r
            | None => raise IndexError
            end);
       checkpoint_step total i;;
       resolve_record md5_hexdigest i r geocoders;;
       after_record total i) w
      (fun o w' => o = Ok Continue /\ run_inv ctl cols input (S i) w').
Proof.
  intros Htext Hi (I1 & I2 & I3 & I4 & I5 & I6 & I7 & I8).
  assert (Hlen : length (rows (frame w)) = length input)
    by (rewrite <- I4; symmetry; apply length_fmap).
  destruct (lookup_lt_is_Some_2 (rows (frame w)) i ltac:(lia)) as [r Hrow].
  assert (Hblank : blank r).
  { rewrite (drop_S _ _ _ Hrow) in I6. apply Forall_cons in I6 as [H _]. exact H. }
  assert (Haddr : has_text_address cols r).
  { apply (Htext (cells r)).
    rewrite <- I4, list_lookup_fmap, Hrow. reflexivity. }
  apply sat_bind, sat_read. cbn beta iota. rewrite Hrow.
  apply sat_bind, sat_ret. cbn beta iota.
  apply sat_bind.
  apply (sat_mono _ _ (fun o w1 =>
           o = Ok tt /\ frame w1 = frame w /\ batch_locals w1 = batch_locals w
           /\ controller w1 = controller w
           /\ processing_state (session_state w1) = Some RUNNING)).
  { unfold checkpoint_step, save_partial_progress, update_session.
    destruct (decide _); wp; repeat split; assumption. }
  intros o w1 (-> & G1 & G2 & G3 & G4). cbn beta iota.
  apply sat_bind.
  eapply sat_mono.
  { apply (resolve_record_resolved i r geocoders w1).
    - rewrite G1. exact Hrow.
    - exact Hblank.
    - rewrite G1, I3. exact Haddr. }
  intros o w2 (-> & R1 & R2 & R3 & r' & R4 & R5 & R6 & R7 & R8). cbn beta iota.
  rewrite G1 in R3, R4. rewrite G2 in R8.
  assert (Hst : exists st, status (batch_locals w2) = Some st).
  { rewrite R7. unfold settled in R6.
    destruct (latitude r'), (longitude r'), (geocoding_method r'),
      (geocoding_status r'); try contradiction; eauto. }
  destruct Hst as [st Hst].
  unfold after_record, update_session.
  apply sat_bind, sat_read. cbn beta iota.
  apply sat_bind, sat_modify. cbn beta iota.
  apply sat_bind, sat_sleep. cbn beta iota.
  rewrite Hst.
  assert (Hinv : forall w3,
             session_state w3
             = set_current_stats
                 (Some (stats_of (batch_locals w2) (i + 1) total))
                 (session_state w2) ->
             controller w3 = controller w2 -> frame w3 = frame w2 ->
             batch_locals w3 = batch_locals w2 ->
             run_inv ctl cols input (S i) w3).
  { intros w3 E1 E2 E3 E4. unfold run_inv.
    rewrite E1, E2, E3, E4. cbn [processing_state set_current_stats].
    rewrite R1, R2, R3, R4, G4, G3.
    split; [reflexivity |]. split; [exact I2 |]. split; [exact I3 |].
    assert (Hi' : (i < length (rows (frame w)))%nat) by lia.
    split.
    { rewrite list_fmap_insert, R5. rewrite list_insert_id; [exact I4 |].
      rewrite list_lookup_fmap, Hrow. reflexivity. }
    rewrite (take_S_r _ _ r') by (apply list_lookup_insert_eq; exact Hi').
    rewrite take_insert_ge by lia.
    rewrite drop_insert_lt by lia.
    split; [apply Forall_app; split; [exact I5 | constructor; [exact R6 | constructor]] |].
    split.
    { rewrite (drop_S _ _ _ Hrow) in I6. apply Forall_cons in I6 as [_ H]. exact H. }
    split; [eapply tallies_snoc; eassumption |].
    right. rewrite Hst. discriminate. }
  destruct (decide (st = "Cache")); wp; (split; [reflexivity |]);
    apply Hinv; reflexivity.
Qed.

(** The control check when nothing was clicked since the last one. *)
Lemma control_check_passes (ctl : list (option pstate)) (cols : list string)
    (input : list (list cell)) (i : nat) (w : world) :
  run_inv ctl cols input i w ->
  head ctl = None \/ head ctl = Some None ->
  sat control_check w
      (fun o w' => o = Ok Continue /\ run_inv (tail ctl) cols input i w').
Proof.
  intros (I1 & I2 & I3 & I4 & I5 & I6 & I7 & I8) Hhead.
  unfold control_check. apply sat_bind, sat_observe_state.
  unfold deliver. rewrite I2.
  destruct ctl as [| [s |] ctl']; cbn in Hhead.
  - rewrite I1. cbn. apply sat_ret. split; [reflexivity |].
    unfold run_inv. auto 10.
  - destruct Hhead; discriminate.
  - cbn. rewrite I1. cbn. apply sat_ret. split; [reflexivity |].
    unfold run_inv. cbn. auto 10.
Qed.

(** One pass through the loop body when nothing was clicked. *)
Lemma iteration_inv (geocoders : list geocoder) (ctl : list (option pstate))
    (cols : list string) (input : list (list cell)) (total i : nat) (w : world) :
  (forall cs, input !! i = Some cs -> exists a,
      lookup_column "endereco_completo" cols cs = Some (CStr a)) ->
  (i < length input)%nat ->
  head ctl = None \/ head ctl = Some None ->
  run_inv ctl cols input i w ->
  sat (iteration md5_hexdigest geocoders total i) w
      (fun o w' => o = Ok Continue /\ run_inv (tail ctl) cols input (S i) w').
Proof.
  intros Htext Hi Hhead Hinv. unfold iteration. apply sat_bind.
  eapply sat_mono; [apply (control_check_passes ctl cols input i w Hinv Hhead) |].
  intros o w0 [-> H0]. cbn beta iota.
  apply loop_body_inv; assumption.
Qed.

Lemma records_loop_inv (geocoders : list geocoder) (cols : list string)
    (input : list (list cell)) (total k : nat) :
  forall (ctl : list (option pstate)) (i : nat) (w : world),
    Forall (fun cs => exists a,
              lookup_column "endereco_completo" cols cs = Some (CStr a))
           (take (i + k) input) ->
    (i + k <= length input)%nat ->
    Forall (fun c => c = None) (take k ctl) ->
    run_inv ctl cols input i w ->
    sat (records_loop md5_hexdigest geocoders total (seq i k)) w
        (fun o w' => o = Ok Continue /\ run_inv (drop k ctl) cols input (i + k) w').
Proof.
  induction k as [| k IH]; intros ctl i w Htext Hk Hctl Hinv;
    cbn [seq records_loop].
  - wp. split; [reflexivity |]. rewrite Nat.add_0_r, drop_0. exact Hinv.
  - apply sat_bind.
    eapply sat_mono; [apply (iteration_inv geocoders ctl cols input total i w);
                      [| lia | | exact Hinv] |].
    + intros cs Hcs.
      apply (proj1 (Forall_lookup _ _) Htext i cs).
      rewrite lookup_take_lt by lia. exact Hcs.
    + destruct ctl as [| c ctl']; [left; reflexivity |].
      cbn in Hctl. apply Forall_cons in Hctl as [-> _]. right. reflexivity.
    + intros o w1 [-> H1]. cbn beta iota.
      replace (i + S k)%nat with (S i + k)%nat in * by lia.
      replace (drop (S k) ctl) with (drop k (tail ctl))
        by (destruct ctl; cbn; rewrite ?drop_nil; reflexivity).
      apply IH; [exact Htext | lia | | exact H1].
      destruct ctl as [| c ctl']; [cbn; rewrite take_nil; constructor |].
      cbn in Hctl. apply Forall_cons in Hctl as [_ H]. exact H.
Qed.

Lemma prepare_fresh (w : world) :
  processed_index (session_state w) = None
  \/ processed_index (session_state w) = Some 0%nat ->
  sat prepare w
      (fun o w' =>
         o = Ok (0%nat, length (rows (frame w)))
         /\ processing_state (session_state w') = Some RUNNING
         /\ controller w' = controller w
         /\ frame w' = add_result_columns (frame w)
         /\ batch_locals w' = fresh_locals).
Proof.
  destruct w as [cache file [ps pidx pr cs] ctl df loc n t].
  cbn. intros [-> | ->].
  all: unfold prepare, update_session, load_cache.
  all: destruct ps as [ps |], file as [| | m].
  all: repeat (wp_step; cbn); try congruence.
  all: rewrite ?length_map; repeat split.
Qed.

Lemma finish_effect (total : nat) (w : world) :
  sat (finish total) w
      (fun o w' =>
         o = Ok (frame w) /\ frame w' = frame w
         /\ session_state w'
            = set_current_stats
                (Some (stats_of (batch_locals w) total total))
                (set_processed_index (Some total)
                   (set_processing_state (Some COMPLETED) (session_state w)))).
Proof.
  unfold finish, update_session, save_cache. wp. repeat split.
Qed.

(** An undisturbed run over a table of string addresses, from the state
    [w] to the table it returns. *)
Lemma undisturbed_run (geocoders : list geocoder) (w : world) :
  processed_index (session_state w) = None
  \/ processed_index (session_state w) = Some 0%nat ->
  controller w = [] ->
  Forall (has_text_address (columns (frame w))) (rows (frame w)) ->
  sat (geocode_batch_with_control md5_hexdigest geocoders) w
      (fun o w' =>
         o = Ok (frame w')
         /\ columns (frame w') = columns (frame w)
         /\ cells <$> rows (frame w') = cells <$> rows (frame w)
         /\ Forall settled (rows (frame w'))
         /\ exists l,
              tallies l (rows (frame w'))
              /\ session_state w'
                 = set_current_stats
                     (Some (stats_of l (length (rows (frame w)))
                              (length (rows (frame w)))))
                     (set_processed_index (Some (length (rows (frame w))))
                        (set_processing_state (Some COMPLETED)
                           (session_state w')))).
Proof.
  intros Hfresh Hctl Htext.
  set (cols := columns (frame w)).
  set (input := cells <$> rows (frame w)).
  assert (Hinput : Forall (fun cs => exists a,
                     lookup_column "endereco_completo" cols cs = Some (CStr a))
                     input).
  { unfold input. apply Forall_fmap. exact Htext. }
  assert (Hn : length input = length (rows (frame w)))
    by apply length_fmap.
  unfold geocode_batch_with_control.
  apply sat_bind.
  eapply sat_mono; [apply prepare_fresh; exact Hfresh |].
  intros o w1 (-> & P1 & P2 & P3 & P4). cbn beta iota. cbn [fst snd].
  rewrite Nat.sub_0_r.
  assert (Hinv0 : run_inv [] cols input 0 w1).
  { unfold run_inv. rewrite P1, P2, P3, P4, Hctl. cbn [take drop].
    split; [reflexivity |]. split; [reflexivity |]. split; [reflexivity |].
    split.
    { unfold input. cbn. rewrite <- list_fmap_compose. reflexivity. }
    split; [constructor |].
    split.
    { cbn. apply Forall_fmap, Forall_forall. intros r _. repeat split. }
    split; [repeat split |]. left. reflexivity. }
  apply sat_bind.
  eapply sat_mono.
  { apply (records_loop_inv geocoders cols input (length (rows (frame w)))
             (length (rows (frame w))) [] 0 w1); [| lia | | exact Hinv0].
    - rewrite take_ge by lia. exact Hinput.
    - rewrite take_nil. constructor. }
  cbn [Nat.add]. rewrite <- Hn. rewrite drop_nil.
  intros o w2 (-> & I1 & I2 & I3 & I4 & I5 & I6 & I7 & I8). cbn beta iota.
  eapply sat_mono; [apply finish_effect |].
  intros o w3 (-> & F1 & F2).
  assert (Hall : take (length input) (rows (frame w2)) = rows (frame w2)).
  { apply take_ge. rewrite <- I4, length_fmap. lia. }
  rewrite Hall in I5, I7. rewrite F1.
  split; [reflexivity |]. split; [exact I3 |]. split; [exact I4 |].
  split; [exact I5 |].
  exists (batch_locals w2). split; [exact I7 |].
  rewrite F2. destruct (session_state w2). reflexivity.
Qed.


(** The statistics of such a run agree with the table it returns: the
    session ends with [total_processed] and [total_records] at the size of
    the table, [cache_count] at the number of records with status "Cache",
    [success_count + cep_count] at the number of records with status
    "Sucesso", and the four counters together at the number of records. *)
Theorem final_statistics_agree_with_table (geocoders : list geocoder)
    (w : world) :
  processed_index (session_state w) = None
  \/ processed_index (session_state w) = Some 0%nat ->
  controller w = [] ->
  Forall (has_text_address (columns (frame w))) (rows (frame w)) ->
  exists df w' st,
    geocode_batch_with_control md5_hexdigest geocoders w = (Ok df, w')
    /\ current_stats (session_state w') = Some st
    /\ st_total_processed st = length (rows df)
    /\ st_total_records st = length (rows df)
    /\ st_cache_count st = count_rows (status_is "Cache") (rows df)
    /\ (st_success_count st + st_cep_count st)%Z
       = count_rows (status_is "Sucesso") (rows df)
    /\ (st_success_count st + st_cep_count st + st_cache_count st
        + st_error_count st)%Z
       = Z.of_nat (length (rows df)).
Proof.
  intros Hfresh Hctl Htext.
  pose proof (undisturbed_run geocoders w Hfresh Hctl Htext) as H.
  unfold sat in H.
  destruct (geocode_batch_with_control md5_hexdigest geocoders w) as [o w'].
  cbn [fst snd] in H.
  destruct H as (-> & H1 & H2 & H3 & l & (T1 & T2 & T3) & H5).
  assert (Hlen : length (rows (frame w')) = length (rows (frame w))).
  { rewrite <- (length_fmap cells (rows (frame w'))), H2. apply length_fmap. }
  eexists (frame w'), w', _. split; [reflexivity |].
  rewrite H5. cbn. rewrite Hlen.
  split; [reflexivity |]. cbn. repeat split; try assumption.
  rewrite <- Hlen. exact T3.
Qed.

End Complete_run.


Lemma final_statistics_agree_with_table_witness :
  exists df w' st,
    geocode_batch_with_control plain_digest finds_vitoria
      (start_world ∅ (uniform_table 3) [])
    = (Ok df, w')
    /\ current_stats (session_state w') = Some st
    /\ st_total_processed st = length (rows df)
    /\ st_total_records st = length (rows df)
    /\ st_cache_count st = count_rows (status_is "Cache") (rows df)
    /\ (st_success_count st + st_cep_count st)%Z
       = count_rows (status_is "Sucesso") (rows df)
    /\ (st_success_count st + st_cep_count st + st_cache_count st
        + st_error_count st)%Z
       = Z.of_nat (length (rows df)).
Proof.
  apply (final_statistics_agree_with_table plain_digest finds_vitoria
           (start_world ∅ (uniform_table 3) [])).
  - left. reflexivity.
  - reflexivity.
  - repeat constructor; exists "Rua A"; reflexivity.
Defined.

(** ** Runs that do not complete *)

Section Aborted_run.

Variable md5_hexdigest : string -> string.

Lemma iteration_aborts (geocoders : list geocoder) (cols : list string)
    (input : list (list cell)) (total k : nat) (w : world) (cs : list cell)
    (e : exn) :
  run_inv [] cols input k w ->
  input !! k = Some cs ->
  address_error cols cs = Some e ->
  sat (iteration md5_hexdigest geocoders total k) w
      (fun o w' => o = Raise e /\ run_inv [] cols input k w' /\ calls w' = calls w).
Proof.
  intros (I1 & I2 & I3 & I4 & I5 & I6 & I7 & I8) Hcs He.
  assert (Hrow : exists r, rows (frame w) !! k = Some r /\ cells r = cs).
  { rewrite <- I4, list_lookup_fmap in Hcs.
    destruct (rows (frame w) !! k) as [r |]; [| discriminate].
    injection Hcs as Hcs. eauto. }
  destruct Hrow as (r & Hrow & <-).
  unfold iteration, control_check.
  apply sat_bind, sat_bind, sat_observe_state.
  unfold deliver. rewrite I2, I1. cbn beta iota. cbn [default from_option].
  apply sat_ret. cbn beta iota.
  apply sat_bind, sat_read. cbn beta iota. rewrite Hrow.
  apply sat_bind, sat_ret. cbn beta iota.
  apply sat_bind.
  apply (sat_mono _ _ (fun o w1 =>
           o = Ok tt /\ run_inv [] cols input k w1 /\ calls w1 = calls w
           /\ frame w1 = frame w)).
  { unfold checkpoint_step, save_partial_progress, update_session.
    destruct (decide _); wp; unfold run_inv; cbn; auto 10. }
  intros o w1 (-> & Hinv & Hcalls & Hframe). cbn beta iota.
  unfold resolve_record. apply sat_bind, sat_bind, sat_read. cbn beta iota zeta.
  rewrite Hframe, I3. unfold address_error in He.
  destruct (lookup_column "endereco_completo" cols (cells r)) as [c |].
  - destruct (subscriptable c); [discriminate |]. injection He as <-.
    apply sat_bind, sat_raise. auto.
  - injection He as <-.
    apply sat_bind, sat_ret. cbn beta iota. apply sat_bind, sat_raise. auto.
Qed.

Lemma records_loop_aborts (geocoders : list geocoder) (cols : list string)
    (input : list (list cell)) (total k : nat) (cs : list cell) (e : exn)
    (j m : nat) :
  forall (i : nat) (w : world),
    (i + j = k)%nat ->
    Forall (fun cs => exists a,
              lookup_column "endereco_completo" cols cs = Some (CStr a))
           (take k input) ->
    input !! k = Some cs ->
    address_error cols cs = Some e ->
    run_inv [] cols input i w ->
    sat (records_loop md5_hexdigest geocoders total (seq i (j + S m))) w
        (fun o w' => o = Raise e /\ run_inv [] cols input k w').
Proof.
  induction j as [| j IH]; intros i w Hij Htext Hcs He Hinv.
  - cbn [Nat.add seq records_loop]. replace i with k in * by lia.
    apply sat_bind.
    eapply sat_mono;
      [apply (iteration_aborts geocoders cols input total k w cs e Hinv Hcs He) |].
    intros o w' (-> & H & _). auto.
  - cbn [Nat.add seq records_loop]. apply sat_bind.
    pose proof (lookup_lt_Some _ _ _ Hcs) as Hk.
    eapply sat_mono;
      [apply (iteration_inv md5_hexdigest geocoders [] cols input total i w);
       [| lia | left; reflexivity | exact Hinv] |].
    + intros c Hc. apply (proj1 (Forall_lookup _ _) Htext i c).
      rewrite lookup_take_lt by lia. exact Hc.
    + intros o w1 [-> H1]. cbn beta iota.
      apply IH; try assumption. lia.
Qed.

(** The run up to the record of position [k], the first whose address
    cannot be used. *)
Lemma run_aborts_at (geocoders : list geocoder) (w : world) (k : nat) (r : row)
    (e : exn) :
  processed_index (session_state w) = None
  \/ processed_index (session_state w) = Some 0%nat ->
  controller w = [] ->
  rows (frame w) !! k = Some r ->
  address_error (columns (frame w)) (cells r) = Some e ->
  Forall (has_text_address (columns (frame w))) (take k (rows (frame w))) ->
  sat (geocode_batch_with_control md5_hexdigest geocoders) w
      (fun o w' =>
         o = Raise e
         /\ run_inv [] (columns (frame w)) (cells <$> rows (frame w)) k w').
Proof.
  intros Hfresh Hctl Hrow He Htext.
  set (cols := columns (frame w)) in *.
  set (input := cells <$> rows (frame w)).
  assert (Hinput : Forall (fun cs => exists a,
                     lookup_column "endereco_completo" cols cs = Some (CStr a))
                     (take k input)).
  { unfold input. rewrite <- fmap_take. apply Forall_fmap. exact Htext. }
  assert (Hn : length input = length (rows (frame w))) by apply length_fmap.
  assert (Hcs : input !! k = Some (cells r)).
  { unfold input. rewrite list_lookup_fmap, Hrow. reflexivity. }
  pose proof (lookup_lt_Some _ _ _ Hrow) as Hk.
  unfold geocode_batch_with_control.
  apply sat_bind.
  eapply sat_mono; [apply prepare_fresh; exact Hfresh |].
  intros o w1 (-> & P1 & P2 & P3 & P4). cbn beta iota. cbn [fst snd].
  rewrite Nat.sub_0_r.
  assert (Hinv0 : run_inv [] cols input 0 w1).
  { unfold run_inv. rewrite P1, P2, P3, P4, Hctl. cbn [take drop].
    split; [reflexivity |]. split; [reflexivity |]. split; [reflexivity |].
    split.
    { unfold input. cbn. rewrite <- list_fmap_compose. reflexivity. }
    split; [constructor |].
    split.
    { cbn. apply Forall_fmap, Forall_forall. intros r0 _. repeat split. }
    split; [repeat split |]. left. reflexivity. }
  apply sat_bind.
  replace (length (rows (frame w)))
    with (k + S (length (rows (frame w)) - S k))%nat at 2 by lia.
  eapply sat_mono.
  { apply (records_loop_aborts geocoders cols input (length (rows (frame w)))
             k (cells r) e k (length (rows (frame w)) - S k) 0 w1);
      [lia | exact Hinput | exact Hcs | exact He | exact Hinv0]. }
  intros o w2 (-> & H). auto.
Qed.


(** A run that is resumed on a table without result columns fails before
    it does anything: with a cursor past the first record and no result
    columns, [geocode_batch_with_control] raises [KeyError] when it recounts
    the records done, calls no provider, takes no checkpoint, and leaves the
    table and the state of the session as they were. *)
Theorem resumed_run_needs_result_columns (geocoders : list geocoder) (w : world)
    (k : nat) (st : pstate) :
  processed_index (session_state w) = Some (S k) ->
  processing_state (session_state w) = Some st ->
  has_result_columns (frame w) = false ->
  exists w',
    geocode_batch_with_control md5_hexdigest geocoders w = (Raise KeyError, w')
    /\ session_state w' = session_state w
    /\ frame w' = frame w
    /\ calls w' = calls w
    /\ trace w' = trace w.
Proof.
  destruct w as [cache file [ps pidx pr cs] ctl [cols has rs] loc n t].
  cbn. intros -> -> ->.
  unfold geocode_batch_with_control, prepare, update_session, load_cache.
  destruct file as [| | m]; eexists; (split; [reflexivity |]); cbn; auto.
Qed.

End Aborted_run.


Lemma resumed_run_needs_result_columns_witness :
  exists w',
    geocode_batch_with_control plain_digest finds_vitoria
      {| GEOCODING_CACHE := ∅; CACHE_FILE := NoFile;
         session_state := {| processing_state := Some RUNNING;
                             processed_index := Some 25%nat;
                             partial_results := None; current_stats := None |};
         controller := []; frame := uniform_table 30;
         batch_locals := fresh_locals; calls := 0; trace := [] |}
    = (Raise KeyError, w')
    /\ session_state w'
       = {| processing_state := Some RUNNING; processed_index := Some 25%nat;
            partial_results := None; current_stats := None |}
    /\ frame w' = uniform_table 30
    /\ calls w' = 0%nat
    /\ trace w' = [].
Proof.
  apply (resumed_run_needs_result_columns plain_digest finds_vitoria
           {| GEOCODING_CACHE := ∅; CACHE_FILE := NoFile;
              session_state := {| processing_state := Some RUNNING;
                                  processed_index := Some 25%nat;
                                  partial_results := None; current_stats := None |};
              controller := []; frame := uniform_table 30;
              batch_locals := fresh_locals; calls := 0; trace := [] |}
           24 RUNNING).
  - reflexivity.
  - reflexivity.
  - reflexivity.
Defined.

(** ** The snapshot and the record it is taken at *)

Section Snapshot.

Variable md5_hexdigest : string -> string.

(** The snapshot counts a record that it does not hold.  When the loop,
    undisturbed, comes to a record of string address whose position [i + 1]
    is a multiple of 25, the pass through the body completes and leaves a
    snapshot and a cursor that both say [i + 1] records are processed; but
    the table of the snapshot was copied before the record was resolved, so
    its record [i] is still the unprocessed one, while the table of the run
    has it settled. *)
Theorem snapshot_misses_the_record_it_counts (geocoders : list geocoder)
    (total i : nat) (w : world) (r : row) :
  controller w = [] ->
  processing_state (session_state w) = Some RUNNING ->
  rows (frame w) !! i = Some r ->
  blank r ->
  has_text_address (columns (frame w)) r ->
  ((i + 1) `mod` 25 = 0)%nat ->
  exists w' cp r',
    iteration md5_hexdigest geocoders total i w = (Ok Continue, w')
    /\ partial_results (session_state w') = Some cp
    /\ cp_processed_count cp = (i + 1)%nat
    /\ processed_index (session_state w') = Some (i + 1)%nat
    /\ rows (cp_df cp) !! i = Some r
    /\ rows (frame w') !! i = Some r'
    /\ settled r'.
Proof.
  intros Hctl Hrun Hrow Hblank Haddr Hmod.
  assert (H : sat (iteration md5_hexdigest geocoders total i) w
                (fun o w' =>
                   o = Ok Continue
                   /\ partial_results (session_state w')
                      = Some {| cp_df := frame w; cp_processed_count := i + 1;
                                cp_total_count := total |}
                   /\ processed_index (session_state w') = Some (i + 1)%nat
                   /\ exists r', rows (frame w') !! i = Some r' /\ settled r')).
  { unfold iteration, control_check.
    apply sat_bind, sat_bind, sat_observe_state.
    unfold deliver. rewrite Hctl, Hrun. cbn beta iota. cbn [default from_option].
    apply sat_ret. cbn beta iota.
    apply sat_bind, sat_read. cbn beta iota. rewrite Hrow.
    apply sat_bind, sat_ret. cbn beta iota.
    apply sat_bind.
    unfold checkpoint_step, save_partial_progress, update_session.
    destruct (decide _) as [_ | Hn]; [| contradiction].
    wp.
    match goal with
    | |- sat _ ?w1 _ =>
        eapply sat_mono;
        [apply (resolve_record_resolved md5_hexdigest i r geocoders w1);
         [exact Hrow | exact Hblank | exact Haddr] |]
    end.
    intros o w2 (-> & R1 & R2 & R3 & r' & R4 & R5 & R6 & R7 & R8). cbn beta iota.
    cbn in R1, R4.
    assert (Hst : exists st, status (batch_locals w2) = Some st).
    { rewrite R7. unfold settled in R6.
      destruct (latitude r'), (longitude r'), (geocoding_method r'),
        (geocoding_status r'); try contradiction; eauto. }
    destruct Hst as [st Hst].
    unfold after_record, update_session.
    apply sat_bind, sat_read. cbn beta iota.
    apply sat_bind, sat_modify. cbn beta iota.
    apply sat_bind, sat_sleep. cbn beta iota.
    rewrite Hst.
    destruct (decide (st = "Cache")); wp; cbn; rewrite R1, R4; cbn.
    all: split; [reflexivity |]; split; [reflexivity |]; split; [reflexivity |].
    all: exists r'; split; [| exact R6].
    all: apply list_lookup_insert_eq; eapply lookup_lt_Some; exact Hrow. }
  unfold sat in H.
  destruct (iteration md5_hexdigest geocoders total i w) as [o w'].
  cbn [fst snd] in H. destruct H as (-> & H1 & H2 & r' & H3 & H4).
  eexists w', _, r'. split; [reflexivity |]. split; [exact H1 |].
  cbn. auto.
Qed.

End Snapshot.

Lemma snapshot_misses_the_record_it_counts_witness :
  exists w' cp r',
    iteration plain_digest finds_vitoria 30 24
      {| GEOCODING_CACHE := ∅; CACHE_FILE := NoFile;
         session_state := {| processing_state := Some RUNNING;
                             processed_index := Some 0%nat;
                             partial_results := None; current_stats := None |};
         controller := []; frame := uniform_table 30;
         batch_locals := fresh_locals; calls := 0; trace := [] |}
    = (Ok Continue, w')
    /\ partial_results (session_state w') = Some cp
    /\ cp_processed_count cp = (24 + 1)%nat
    /\ processed_index (session_state w') = Some (24 + 1)%nat
    /\ rows (cp_df cp) !! 24%nat = Some (input_row [CStr "Rua A"])
    /\ rows (frame w') !! 24%nat = Some r'
    /\ settled r'.
Proof.
  apply (snapshot_misses_the_record_it_counts plain_digest finds_vitoria 30 24
           {| GEOCODING_CACHE := ∅; CACHE_FILE := NoFile;
              session_state := {| processing_state := Some RUNNING;
                                  processed_index := Some 0%nat;
                                  partial_results := None; current_stats := None |};
              controller := []; frame := uniform_table 30;
              batch_locals := fresh_locals; calls := 0; trace := [] |}
           (input_row [CStr "Rua A"])).
  - reflexivity.
  - reflexivity.
  - reflexivity.
  - repeat split.
  - exists "Rua A". reflexivity.
  - reflexivity.
Defined.

(** ** Strings *)

Lemma lstrip_empty (s : string) : lstrip s = "" <-> all_space s = true.
Proof.
  induction s as [| c r IH]; cbn; [tauto |].
  destruct (isspace c); cbn; [exact IH |]. split; discriminate.
Qed.

Lemma all_space_lstrip (s : string) : all_space (lstrip s) = all_space s.
Proof.
  induction s as [| c r IH]; cbn; [reflexivity |].
  destruct (isspace c) eqn:E; cbn; [exact IH |]. rewrite E. reflexivity.
Qed.

Lemma all_space_rev_app (s1 s2 : string) :
  all_space (String.rev_app s1 s2) = all_space s1 && all_space s2.
Proof.
  revert s2. induction s1 as [| c r IH]; intros s2; cbn; [reflexivity |].
  rewrite IH. cbn. destruct (isspace c), (all_space r); reflexivity.
Qed.

Lemma rev_app_empty (s1 s2 : string) :
  String.rev_app s1 s2 = "" -> s1 = "" /\ s2 = "".
Proof.
  revert s2. induction s1 as [| c r IH]; intros s2; cbn; [auto |].
  intros H. apply IH in H as [_ H]. discriminate.
Qed.

Lemma strip_empty (s : string) : strip s = "" <-> all_space s = true.
Proof.
  unfold strip, String.rev. split.
  - intros H. apply rev_app_empty in H as [H _].
    apply lstrip_empty in H. rewrite all_space_rev_app in H.
    apply andb_true_iff in H as [H _]. rewrite all_space_lstrip in H. exact H.
  - intros H.
    assert (E : lstrip s = "") by (apply lstrip_empty; exact H).
    rewrite E. reflexivity.
Qed.

Lemma all_space_app (s1 s2 : string) :
  all_space (s1 +:+ s2) = all_space s1 && all_space s2.
Proof.
  induction s1 as [| c r IH]; [reflexivity |].
  change (isspace c && all_space (r +:+ s2)
          = isspace c && all_space r && all_space s2).
  rewrite IH. apply andb_assoc.
Qed.

(** ** Address construction *)

Lemma suffixed_is_not_blank (s : string) :
  strip (s +:+ ", Espírito Santo, Brasil") <> "".
Proof.
  intros H. apply strip_empty in H. rewrite all_space_app in H.
  replace (all_space ", Espírito Santo, Brasil") with false in H
    by (vm_compute; reflexivity).
  rewrite andb_false_r in H. discriminate.
Qed.

Lemma notna_and_strip_true (x : scalar) :
  notna_and_strip x = Some true -> exists s, x = SStr s /\ strip s <> "".
Proof.
  destruct x as [| | s | z]; cbn; try discriminate.
  destruct (decide (strip s = "")); [discriminate | eauto].
Qed.

(** [construct_address] returns [None] or a string that is not blank; it
    never returns a number, [NaN], an empty string or white space only,
    whatever the row holds. *)
Theorem constructed_address_is_never_blank (cols : list string)
    (vals : list scalar) :
  construct_address cols vals = SNone
  \/ exists a, construct_address cols vals = SStr a /\ strip a <> "".
Proof.
  unfold construct_address, construct_address_body.
  assert (Hbuilt :
    forall o : option (list string),
      let res := parts ← o;
                 match parts with
                 | [] => Some SNone
                 | _ => Some (SStr (join ", " parts +:+ ", Espírito Santo, Brasil"))
                 end in
      default SNone res = SNone
      \/ exists a, default SNone res = SStr a /\ strip a <> "").
  { intros [[| p l] |]; cbn; auto.
    right. eexists. split; [reflexivity |]. apply suffixed_is_not_blank. }
  destruct (bool_decide ("endereco_completo" ∈ cols)).
  - destruct (notna_and_strip (row_get cols vals "endereco_completo"))
      as [[|] |] eqn:E; cbn.
    + apply notna_and_strip_true in E as (s & -> & Hs). right. eauto.
    + destruct (append_part cols vals "V14" []) as [p1 |]; cbn; [| auto].
      destruct (append_part cols vals "V15" p1) as [p2 |]; cbn; [| auto].
      apply Hbuilt.
    + auto.
  - cbn.
    destruct (append_part cols vals "V14" []) as [p1 |]; cbn; [| auto].
    destruct (append_part cols vals "V15" p1) as [p2 |]; cbn; [| auto].
    apply Hbuilt.
Qed.

(** A number where text is expected discards the whole address: when the
    table has no address column and the cell of the street type, the street
    name or the district of a row holds an integer, [construct_address]
    returns [None] for the row, whatever its other cells hold. *)
Theorem numeric_part_discards_the_address (cols : list string)
    (vals : list scalar) (label : string) (z : Z) :
  "endereco_completo" ∉ cols ->
  label ∈ ["V14"; "V15"; "V18"] ->
  row_get cols vals label = SInt z ->
  construct_address cols vals = SNone.
Proof.
  intros Hno Hlabel Hz.
  unfold construct_address, construct_address_body.
  rewrite bool_decide_eq_false_2 by exact Hno. cbn.
  assert (Hraise : forall parts, append_part cols vals label parts = None).
  { intros parts. unfold append_part. rewrite Hz. reflexivity. }
  destruct (append_part cols vals "V14" []) as [p1 |] eqn:E1; cbn; [| reflexivity].
  destruct (append_part cols vals "V15" p1) as [p2 |] eqn:E2; cbn; [| reflexivity].
  destruct (append_part cols vals "V18" (append_number cols vals p2))
    as [p3 |] eqn:E3; cbn; [| reflexivity].
  exfalso.
  apply elem_of_cons in Hlabel as [-> | Hlabel]; [rewrite Hraise in E1; discriminate |].
  apply elem_of_cons in Hlabel as [-> | Hlabel]; [rewrite Hraise in E2; discriminate |].
  apply elem_of_cons in Hlabel as [-> | Hlabel]; [rewrite Hraise in E3; discriminate |].
  inversion Hlabel.
Qed.

Lemma numeric_part_discards_the_address_witness :
  construct_address ["V14"; "V15"; "V16"; "V18"]
    [SStr "RUA"; SInt 7; SStr "100"; SStr "CENTRO"]
  = SNone.
Proof.
  apply (numeric_part_discards_the_address ["V14"; "V15"; "V16"; "V18"]
           [SStr "RUA"; SInt 7; SStr "100"; SStr "CENTRO"] "V15" 7).
  - intros H. repeat (apply elem_of_cons in H as [H | H]; [discriminate |]).
    inversion H.
  - right. left.
  - reflexivity.
Defined.

(** ** From the uploaded table to the batch run *)

Lemma lookup_column_appended (label : string) (cols : list string)
    (cs : list cell) (x : cell) :
  label ∉ cols -> length cs = length cols ->
  lookup_column label (cols ++ [label]) (cs ++ [x]) = Some x.
Proof.
  revert cs. induction cols as [| c cols IH]; intros cs Hno Hlen.
  - destruct cs; [| discriminate]. cbn.
    destruct (decide (label = label)); [reflexivity | contradiction].
  - destruct cs as [| y cs]; [discriminate |]. cbn.
    apply not_elem_of_cons in Hno as [Hne Hno].
    destruct (decide (c = label)) as [-> | _]; [contradiction |].
    apply IH; [exact Hno |]. cbn in Hlen. lia.
Qed.

Section Pipeline.

Variable md5_hexdigest : string -> string.

(** A row without address parts stops the geocoding of the whole upload.
    Take a table with as many values in each row as it has columns and no
    address column; let [process_uploaded_files] add the column of the
    constructed addresses, and run [geocode_batch_with_control] on the
    result from the first record with no click to come.  If
    [construct_address] returns [None] for the row of position [k] and an
    address for every row before, the run raises [TypeError] at that record:
    the records before are settled, the others are not processed, and the
    session is left in the state "running". *)
Theorem row_without_address_parts_stops_the_upload (geocoders : list geocoder)
    (w : world) (cols : list string) (table_rows : list (list scalar)) (k : nat)
    (vals : list scalar) :
  "endereco_completo" ∉ cols ->
  Forall (fun v => length v = length cols) table_rows ->
  frame w = to_dataframe (assign_addresses cols table_rows) ->
  processed_index (session_state w) = None
  \/ processed_index (session_state w) = Some 0%nat ->
  controller w = [] ->
  table_rows !! k = Some vals ->
  construct_address cols vals = SNone ->
  Forall (fun v => construct_address cols v <> SNone) (take k table_rows) ->
  exists w',
    geocode_batch_with_control md5_hexdigest geocoders w = (Raise TypeError, w')
    /\ processing_state (session_state w') = Some RUNNING
    /\ Forall settled (take k (rows (frame w')))
    /\ Forall blank (drop k (rows (frame w'))).
Proof.
  intros Hno Hlen Hframe Hfresh Hctl Hk Hnone Hbefore.
  assert (Hdf : frame w
                = table (cols ++ ["endereco_completo"])
                    (map (map to_cell)
                       (map (fun v => v ++ [construct_address cols v]) table_rows))).
  { rewrite Hframe. unfold to_dataframe, assign_addresses.
    rewrite bool_decide_eq_false_2 by exact Hno. reflexivity. }
  assert (Hcell : forall v, length v = length cols ->
            lookup_column "endereco_completo" (columns (frame w))
              (cells (input_row (map to_cell (v ++ [construct_address cols v]))))
            = Some (to_cell (construct_address cols v))).
  { intros v Hv. rewrite Hdf. cbn [columns table cells input_row].
    rewrite map_app. cbn [map].
    apply lookup_column_appended; [exact Hno |]. rewrite length_map. exact Hv. }
  assert (Hrows : rows (frame w)
                  = map (fun v => input_row
                                    (map to_cell (v ++ [construct_address cols v])))
                      table_rows).
  { rewrite Hdf. cbn [rows table]. rewrite !map_map. reflexivity. }
  pose proof (run_aborts_at md5_hexdigest geocoders w k
                (input_row (map to_cell (vals ++ [construct_address cols vals])))
                TypeError Hfresh Hctl) as H.
  unfold sat in H.
  destruct (geocode_batch_with_control md5_hexdigest geocoders w) as [o w'].
  cbn [fst snd] in H.
  destruct H as (-> & I1 & I2 & I3 & I4 & I5 & I6 & I7 & I8).
  - rewrite Hrows. change map with (@fmap list _) at 1.
    rewrite list_lookup_fmap, Hk. reflexivity.
  - unfold address_error. rewrite Hcell.
    + rewrite Hnone. reflexivity.
    + apply (proj1 (Forall_lookup _ _) Hlen k vals Hk).
  - rewrite Hrows. change map with (@fmap list _) at 1.
    rewrite <- fmap_take. apply Forall_fmap, Forall_forall.
    intros v Hv. unfold has_text_address, compose.
    assert (Hv' : v ∈ table_rows).
    { apply list_elem_of_lookup in Hv as [i Hi].
      destruct (decide (i < k)%nat) as [Hlt | Hge].
      - rewrite lookup_take_lt in Hi by exact Hlt.
        eapply list_elem_of_lookup_2. exact Hi.
      - rewrite lookup_take_ge in Hi by lia. discriminate. }
    rewrite Hcell by (apply (proj1 (Forall_forall _ _) Hlen v Hv')).
    destruct (constructed_address_is_never_blank cols v) as [E | (a & E & _)].
    + exfalso. exact (proj1 (Forall_forall _ _) Hbefore v Hv E).
    + rewrite E. exists a. reflexivity.
  - exists w'. auto.
Qed.

End Pipeline.

Lemma row_without_address_parts_stops_the_upload_witness :
  exists w',
    geocode_batch_with_control plain_digest finds_vitoria
      (start_world ∅
         (to_dataframe
            (assign_addresses ["V14"; "V15"; "V16"; "V18"]
               [[SStr "RUA"; SStr "A"; SStr "10"; SStr "CENTRO"];
                [SStr ""; SNaN; SStr "s/n"; SStr " "]])) [])
    = (Raise TypeError, w')
    /\ processing_state (session_state w') = Some RUNNING
    /\ Forall settled (take 1 (rows (frame w')))
    /\ Forall blank (drop 1 (rows (frame w'))).
Proof.
  apply (row_without_address_parts_stops_the_upload plain_digest finds_vitoria
           (start_world ∅
              (to_dataframe
                 (assign_addresses ["V14"; "V15"; "V16"; "V18"]
                    [[SStr "RUA"; SStr "A"; SStr "10"; SStr "CENTRO"];
                     [SStr ""; SNaN; SStr "s/n"; SStr " "]])) [])
           ["V14"; "V15"; "V16"; "V18"]
           [[SStr "RUA"; SStr "A"; SStr "10"; SStr "CENTRO"];
            [SStr ""; SNaN; SStr "s/n"; SStr " "]]
           1 [SStr ""; SNaN; SStr "s/n"; SStr " "]).
  - intros H. repeat (apply elem_of_cons in H as [H | H]; [discriminate |]).
    inversion H.
  - repeat constructor.
  - reflexivity.
  - left. reflexivity.
  - reflexivity.
  - reflexivity.
  - vm_compute. reflexivity.
  - repeat constructor. vm_compute. discriminate.
Defined.

(** ** The cost of a record *)

Section Record_cost.

Variable md5_hexdigest : string -> string.

Lemma within_zero (m : nat) (w w' : world) :
  calls w' = calls w -> trace w' = trace w -> within m w w'.
Proof. intros H1 H2. unfold within. rewrite H1, H2. lia. Qed.

Lemma within_step (m : nat) (w w1 w' : world) :
  within m w w1 -> calls w' = calls w1 -> trace w' = trace w1 -> within m w w'.
Proof. intros [H1 H2] E1 E2. unfold within. rewrite E1, E2. lia. Qed.

Lemma geocode_cep_robust_within (cep : cell) (geocoders : list geocoder)
    (w : world) :
  sat (geocode_cep_robust md5_hexdigest cep geocoders) w
      (fun _ w' => within (length geocoders * 3) w w').
Proof.
  unfold geocode_cep_robust. apply sat_try.
  destruct (cep_missing cep); [wp; apply within_zero; reflexivity |].
  cbn zeta.
  destruct (negb _); [wp; apply within_zero; reflexivity |].
  apply sat_bind.
  eapply sat_mono; [apply (geocode_with_retry_events md5_hexdigest) |].
  intros o w' [H _].
  destruct o as [[[[[lat |] lon] nm] st] | e |]; cbn beta iota; wp; exact H.
Qed.

Lemma resolve_by_cep_within (i : nat) (cep_value : cell)
    (geocoders : list geocoder) (w : world) :
  sat (resolve_by_cep md5_hexdigest i cep_value geocoders) w
      (fun _ w' => within (length geocoders * 3) w w').
Proof.
  unfold resolve_by_cep, assign, update_locals, update_row.
  apply sat_bind.
  eapply sat_mono; [apply geocode_cep_robust_within |].
  intros o w1 H.
  destruct o as [[[[[lat |] lon] nm] st] | e |]; cbn beta iota; wp;
    first [exact H | eapply within_step; [exact H | reflexivity | reflexivity]].
Qed.

Lemma cep_fallback_within (i : nat) (r : row) (geocoders : list geocoder)
    (w : world) :
  sat (cep_fallback md5_hexdigest i r geocoders) w
      (fun _ w' => within (length geocoders * 3) w w').
Proof.
  unfold cep_fallback. apply sat_bind, sat_read. cbn beta iota.
  destruct (cep_columns (frame w)) as [| c cs].
  - unfold update_row, update_locals. wp. apply within_zero; reflexivity.
  - apply resolve_by_cep_within.
Qed.

Lemma resolve_record_within (i : nat) (r : row) (geocoders : list geocoder)
    (w : world) :
  sat (resolve_record md5_hexdigest i r geocoders) w
      (fun _ w' => within (length geocoders * 3 + length geocoders * 3) w w').
Proof.
  assert (Hfallback : forall w1,
            within (length geocoders * 3) w w1 ->
            sat (cep_fallback md5_hexdigest i r geocoders) w1
                (fun _ w' =>
                   within (length geocoders * 3 + length geocoders * 3) w w')).
  { intros w1 H1. eapply sat_mono; [apply cep_fallback_within |].
    intros o w2 H2. exact (within_add _ _ _ _ _ H1 H2). }
  assert (Hweak : forall w1,
            within (length geocoders * 3) w w1 ->
            within (length geocoders * 3 + length geocoders * 3) w w1).
  { intros w1 H1. eapply within_mono; [| exact H1]. lia. }
  unfold resolve_record.
  apply sat_bind, sat_read. cbn beta iota zeta.
  apply sat_bind.
  apply (sat_mono _ _ (fun o w1 =>
           w1 = w /\ match o with Diverge => False | _ => True end)).
  { destruct (lookup_column _ _ _) as [e |]; [destruct (subscriptable e) |];
      wp; auto. }
  intros o w1 [-> Ho].
  destruct o as [[] | e |]; [| apply Hweak, within_zero; reflexivity | contradiction].
  apply sat_bind.
  apply (sat_mono _ _ (fun o w1 =>
           w1 = w /\ match o with Diverge => False | _ => True end)).
  { destruct (lookup_column _ _ _) as [e |]; wp; auto. }
  intros o w1 [-> Ho'].
  destruct o as [address | e |];
    [| apply Hweak, within_zero; reflexivity | contradiction].
  cbn beta iota.
  destruct (pd_notna address).
  - apply sat_try, sat_bind. unfold geocode_address_robust.
    eapply sat_mono; [apply (geocode_with_retry_events md5_hexdigest) |].
    intros o w1 [H1 _].
    unfold assign, update_locals, update_row.
    destruct o as [[[[[lat |] lon] nm] st] | e |]; cbn beta iota.
    + wp; apply Hweak; (eapply within_step; [exact H1 | reflexivity | reflexivity]).
    + apply sat_bind, sat_modify. cbn beta iota.
      eapply sat_mono.
      { apply Hfallback. eapply within_step; [exact H1 | reflexivity | reflexivity]. }
      intros o w2 H2. destruct o as [[] | e |]; wp;
        first [exact H2 | eapply within_step; [exact H2 | reflexivity | reflexivity]].
    + wp. apply Hweak. eapply within_step; [exact H1 | reflexivity | reflexivity].
    + apply Hweak, H1.
  - apply Hfallback, within_zero; reflexivity.
Qed.

(** What a record can cost.  With the geocoders of [get_geocoders],
    whichever of the three are available, resolving one record, by its
    address and then by its postal code, makes at most 18 attempts and at
    most 36 provider calls, whatever the record holds, whatever the
    providers answer and however the resolution ends. *)
Theorem record_costs_at_most_36_calls (nominatim photon arcgis : option provider)
    (i : nat) (r : row) (w : world) :
  let w' := (resolve_record md5_hexdigest i r
               (get_geocoders nominatim photon arcgis) w).2 in
  (calls w' <= calls w + 36)%nat
  /\ (length (attempts (trace w')) <= length (attempts (trace w)) + 18)%nat.
Proof.
  cbn zeta.
  pose proof (resolve_record_within i r (get_geocoders nominatim photon arcgis) w)
    as [H1 H2].
  assert (Hlen : (length (get_geocoders nominatim photon arcgis) <= 3)%nat).
  { destruct nominatim, photon, arcgis; cbn; lia. }
  split; lia.
Qed.

End Record_cost.

(** ** How a postal code is written *)

Lemma all_space_remove_char (c : ascii) (s : string) :
  all_space s = true -> all_space (remove_char c s) = true.
Proof.
  induction s as [| d r IH]; cbn; [reflexivity |].
  intros H. apply andb_true_iff in H as [H1 H2].
  destruct (decide (c = d)); cbn; [apply IH, H2 |].
  rewrite H1. apply IH, H2.
Qed.

Lemma eight_characters_are_present (cep : cell) :
  String.length (cep_clean cep) = 8%nat -> cep_missing cep = false.
Proof.
  intros Hlen. unfold cep_missing.
  destruct (pd_isna cep) eqn:Hna.
  - destruct cep; try discriminate; vm_compute in Hlen; discriminate.
  - cbn. destruct (decide (strip (py_str cep) = "")) as [Hblank | _]; [| reflexivity].
    exfalso. apply strip_empty in Hblank.
    assert (E : cep_clean cep = "").
    { unfold cep_clean. apply strip_empty.
      apply all_space_remove_char, all_space_remove_char, Hblank. }
    rewrite E in Hlen. discriminate.
Qed.

Section Cep_writing.

Variable md5_hexdigest : string -> string.

(** Hyphens, dots and surrounding white space in a postal code do not
    matter, nor does the type of the cell: two values whose text is ASCII
    and that are the same eight characters once cleaned are looked up in
    exactly the same way, with the same result and the same effects. *)
Theorem cep_punctuation_is_ignored (cep1 cep2 : cell) (geocoders : list geocoder)
    (w : world) :
  exact_cell cep1 = true ->
  exact_cell cep2 = true ->
  cep_clean cep1 = cep_clean cep2 ->
  String.length (cep_clean cep1) = 8%nat ->
  geocode_cep_robust md5_hexdigest cep1 geocoders w
  = geocode_cep_robust md5_hexdigest cep2 geocoders w.
Proof.
  intros _ _ Heq Hlen.
  assert (Hlen2 : String.length (cep_clean cep2) = 8%nat) by (rewrite <- Heq; exact Hlen).
  unfold geocode_cep_robust.
  rewrite (eight_characters_are_present cep1 Hlen).
  rewrite (eight_characters_are_present cep2 Hlen2).
  cbn zeta. rewrite Heq. reflexivity.
Qed.

End Cep_writing.

Lemma cep_punctuation_is_ignored_witness :
  geocode_cep_robust plain_digest (CStr " 29.060-970 ") finds_vitoria plain_world
  = geocode_cep_robust plain_digest (CInt 29060970) finds_vitoria plain_world.
Proof.
  apply (cep_punctuation_is_ignored plain_digest (CStr " 29.060-970 ")
           (CInt 29060970) finds_vitoria plain_world).
  - vm_compute. reflexivity.
  - vm_compute. reflexivity.
  - vm_compute. reflexivity.
  - vm_compute. reflexivity.
Defined.

(** ** A run that is stopped *)

Section Stopped_run.

Variable md5_hexdigest : string -> string.

Lemma iteration_stops (geocoders : list geocoder) (rest : list (option pstate))
    (cols : list string) (input : list (list cell)) (total k : nat) (w : world) :
  run_inv (Some STOPPED :: rest) cols input k w ->
  sat (iteration md5_hexdigest geocoders total k) w
      (fun o w' =>
         o = Ok Break /\ frame w' = frame w /\ batch_locals w' = batch_locals w
         /\ controller w' = rest /\ calls w' = calls w).
Proof.
  intros (I1 & I2 & _).
  unfold iteration, control_check.
  apply sat_bind, sat_bind, sat_observe_state.
  unfold deliver. rewrite I2. cbn.
  repeat first [apply sat_ret | progress cbn]. repeat split.
Qed.

Lemma records_loop_stops (geocoders : list geocoder) (cols : list string)
    (input : list (list cell)) (total k : nat) (rest : list (option pstate))
    (j m : nat) :
  forall (i : nat) (w : world),
    (i + j = k)%nat -> (k < length input)%nat ->
    Forall (fun cs => exists a,
              lookup_column "endereco_completo" cols cs = Some (CStr a))
           (take k input) ->
    run_inv (replicate j None ++ Some STOPPED :: rest) cols input i w ->
    sat (records_loop md5_hexdigest geocoders total (seq i (j + S m))) w
        (fun o w' =>
           o = Ok Break
           /\ controller w' = rest
           /\ columns (frame w') = cols
           /\ cells <$> rows (frame w') = input
           /\ Forall settled (take k (rows (frame w')))
           /\ Forall blank (drop k (rows (frame w')))
           /\ tallies (batch_locals w') (take k (rows (frame w')))).
Proof.
  induction j as [| j IH]; intros i w Hij Hk Htext Hinv.
  - cbn [Nat.add seq records_loop replicate app] in *.
    replace i with k in * by lia. apply sat_bind.
    eapply sat_mono; [apply (iteration_stops geocoders rest cols input total k w Hinv) |].
    intros o w' (-> & F1 & F2 & F3 & F4). cbn beta iota. apply sat_ret.
    destruct Hinv as (I1 & I2 & I3 & I4 & I5 & I6 & I7 & I8).
    rewrite F1, F2. auto 10.
  - cbn [Nat.add seq records_loop]. apply sat_bind.
    eapply sat_mono;
      [apply (iteration_inv md5_hexdigest geocoders
                (replicate (S j) None ++ Some STOPPED :: rest)
                cols input total i w);
       [| lia | right; reflexivity | exact Hinv] |].
    + intros c Hc. apply (proj1 (Forall_lookup _ _) Htext i c).
      rewrite lookup_take_lt by lia. exact Hc.
    + intros o w1 [-> H1]. cbn beta iota.
      apply IH; try assumption. lia.
Qed.

(** A stopped run reports every record as processed.  In a run started at
    the first record, when the click on "stop" is what the loop reads at the
    record of position [k], after [k] records of string address resolved
    with nothing clicked, the loop is left at once: the first [k] records
    are settled and no other is touched.  The function nevertheless returns
    with the state "completed", the cursor at the size of the table and
    [total_processed] equal to [total_records], while the four counters add
    up to [k]. *)
Theorem stopped_run_counts_every_record (geocoders : list geocoder) (w : world)
    (k : nat) (rest : list (option pstate)) :
  processed_index (session_state w) = None
  \/ processed_index (session_state w) = Some 0%nat ->
  controller w = replicate k None ++ Some STOPPED :: rest ->
  (k < length (rows (frame w)))%nat ->
  Forall (has_text_address (columns (frame w))) (take k (rows (frame w))) ->
  exists df w' st,
    geocode_batch_with_control md5_hexdigest geocoders w = (Ok df, w')
    /\ df = frame w'
    /\ Forall settled (take k (rows df))
    /\ Forall blank (drop k (rows df))
    /\ processing_state (session_state w') = Some COMPLETED
    /\ processed_index (session_state w') = Some (length (rows df))
    /\ current_stats (session_state w') = Some st
    /\ st_total_processed st = length (rows df)
    /\ st_total_records st = length (rows df)
    /\ (st_success_count st + st_cep_count st + st_cache_count st
        + st_error_count st)%Z = Z.of_nat k.
Proof.
  intros Hfresh Hctl Hk Htext.
  set (cols := columns (frame w)) in *.
  set (input := cells <$> rows (frame w)).
  assert (Hinput : Forall (fun cs => exists a,
                     lookup_column "endereco_completo" cols cs = Some (CStr a))
                     (take k input)).
  { unfold input. rewrite <- fmap_take. apply Forall_fmap. exact Htext. }
  assert (Hn : length input = length (rows (frame w))) by apply length_fmap.
  assert (H : sat (geocode_batch_with_control md5_hexdigest geocoders) w
                (fun o w' =>
                   o = Ok (frame w')
                   /\ cells <$> rows (frame w') = input
                   /\ Forall settled (take k (rows (frame w')))
                   /\ Forall blank (drop k (rows (frame w')))
                   /\ exists l,
                        tallies l (take k (rows (frame w')))
                        /\ session_state w'
                           = set_current_stats
                               (Some (stats_of l (length input) (length input)))
                               (set_processed_index (Some (length input))
                                  (set_processing_state (Some COMPLETED)
                                     (session_state w'))))).
  { unfold geocode_batch_with_control.
    apply sat_bind.
    eapply sat_mono; [apply prepare_fresh; exact Hfresh |].
    intros o w1 (-> & P1 & P2 & P3 & P4). cbn beta iota. cbn [fst snd].
    rewrite Nat.sub_0_r.
    assert (Hinv0 : run_inv (replicate k None ++ Some STOPPED :: rest)
                      cols input 0 w1).
    { unfold run_inv. rewrite P1, P2, P3, P4, Hctl. cbn [take drop].
      split; [reflexivity |]. split; [reflexivity |]. split; [reflexivity |].
      split.
      { unfold input. cbn. rewrite <- list_fmap_compose. reflexivity. }
      split; [constructor |].
      split.
      { cbn. apply Forall_fmap, Forall_forall. intros r0 _. repeat split. }
      split; [repeat split |]. left. reflexivity. }
    apply sat_bind.
    replace (length (rows (frame w)))
      with (k + S (length (rows (frame w)) - S k))%nat at 2 by lia.
    eapply sat_mono.
    { apply (records_loop_stops geocoders cols input (length (rows (frame w)))
               k rest k (length (rows (frame w)) - S k) 0 w1);
        [lia | lia | exact Hinput | exact Hinv0]. }
    intros o w2 (-> & S1 & S2 & S3 & S4 & S5 & S6). cbn beta iota.
    eapply sat_mono; [apply finish_effect |].
    intros o w3 (-> & F1 & F2). rewrite F1.
    split; [reflexivity |]. split; [exact S3 |]. split; [exact S4 |].
    split; [exact S5 |].
    exists (batch_locals w2). split; [exact S6 |].
    rewrite F2, Hn. destruct (session_state w2). reflexivity. }
  unfold sat in H.
  destruct (geocode_batch_with_control md5_hexdigest geocoders w) as [o w'].
  cbn [fst snd] in H.
  destruct H as (-> & H1 & H2 & H3 & l & (T1 & T2 & T3) & H5).
  assert (Hlen : length (rows (frame w')) = length input).
  { rewrite <- H1. symmetry. apply length_fmap. }
  eexists (frame w'), w', _. split; [reflexivity |]. split; [reflexivity |].
  split; [exact H2 |]. split; [exact H3 |].
  rewrite H5. cbn. rewrite Hlen.
  split; [reflexivity |]. split; [reflexivity |]. split; [reflexivity |].
  cbn. split; [reflexivity |]. split; [reflexivity |].
  rewrite T3. rewrite length_take. f_equal. lia.
Qed.

End Stopped_run.

Lemma stopped_run_counts_every_record_witness :
  exists df w' st,
    geocode_batch_with_control plain_digest finds_vitoria
      (start_world ∅ (uniform_table 3) [None; Some STOPPED])
    = (Ok df, w')
    /\ df = frame w'
    /\ Forall settled (take 1 (rows df))
    /\ Forall blank (drop 1 (rows df))
    /\ processing_state (session_state w') = Some COMPLETED
    /\ processed_index (session_state w') = Some (length (rows df))
    /\ current_stats (session_state w') = Some st
    /\ st_total_processed st = length (rows df)
    /\ st_total_records st = length (rows df)
    /\ (st_success_count st + st_cep_count st + st_cache_count st
        + st_error_count st)%Z = Z.of_nat 1.
Proof.
  apply (stopped_run_counts_every_record plain_digest finds_vitoria
           (start_world ∅ (uniform_table 3) [None; Some STOPPED]) 1 []).
  - left. reflexivity.
  - reflexivity.
  - cbn. lia.
  - repeat constructor; exists "Rua A"; reflexivity.
Defined.
